(** * A denoising autoencoder on MNIST: the notebook's pipeline

    This development embeds [4_autoencoders/Autoencoders-Solution.ipynb]:
    the NumPy cells that prepare the images and inject noise, the Keras
    cells that build the encoder, the decoder and their composition, the
    calls that train the composite and run it on the noisy test set, and
    the cells that show an image.

    NumPy arrays hold IEEE binary64 numbers (the kernel's primitive
    floats) or bytes, in buffers of a heap; a Python name is bound to a
    handle on a buffer.  The network computes over the real numbers: the
    backend's float32 rounding is not part of the model. *)

From Stdlib Require Import ZArith List Lia Floats Reals Lra Bool.
From Stdlib.Strings Require Import Byte String.
From stdpp Require Import gmap.
Import ListNotations.

(** ** Exceptions and the state monad of a Python session *)

(** The classes of the exceptions the cells can raise; [OtherException]
    stands for one whose class plays no part below. *)
Inductive exn : Type :=
| ValueError
| TypeError
| IndexError
| ZeroDivisionError
| AssertionError
| OtherException.

Inductive result (A : Type) : Type :=
| Ok (a : A)
| Raise (e : exn).

Arguments Ok {A} a.
Arguments Raise {A} e.

Definition M (S A : Type) : Type := S -> result (A * S).

Definition ret {S A : Type} (a : A) : M S A := fun s => Ok (a, s).

Definition bind {S A B : Type} (c : M S A) (k : A -> M S B) : M S B :=
  fun s => match c s with
           | Ok (a, s') => k a s'
           | Raise e => Raise e
           end.

Definition raise {S A : Type} (e : exn) : M S A := fun _ => Raise e.

Definition get {S : Type} : M S S := fun s => Ok (s, s).

Definition modify {S : Type} (f : S -> S) : M S unit := fun s => Ok (tt, f s).

Notation "x <- c ;; k" := (bind c (fun x => k))
  (at level 100, c at next level, right associativity).

(** ** Binary64 numbers *)

Module F64.

Local Open Scope float_scope.

(** The C conversion of an unsigned 8-bit pixel to a double. *)
Definition of_u8 (b : byte) : float :=
  PrimFloat.of_uint63 (Uint63.of_Z (Z.of_N (Byte.to_N b))).

(** [npy_isnan(a) ? a : (a > b ? a : b)]: the maximum NumPy's clip uses. *)
Definition fmax (a b : float) : float :=
  if is_nan a then a else if b <? a then a else b.

(** [npy_isnan(a) ? a : (a < b ? a : b)]. *)
Definition fmin (a b : float) : float :=
  if is_nan a then a else if a <? b then a else b.

(** One element of [np.clip(a, lo, hi)]: [min(max(v, lo), hi)]. *)
Definition clip (lo hi v : float) : float := fmin (fmax v lo) hi.

(** Clipping to [0,1] saturates: below 0 it gives 0, above 1 it gives 1,
    and it keeps what lies between. *)
Definition saturate (v : float) : float :=
  if 0 <? v then if v <? 1 then v else 1 else 0.

(** [0 <= v <= 1] as the machine compares. *)
Definition in_unit (v : float) : bool := (0 <=? v) && (v <=? 1).

(** Not a NaN and not an infinity, on the specification side. *)
Definition sf_finite (x : spec_float) : bool :=
  match x with
  | S754_zero _ | S754_finite _ _ _ => true
  | _ => false
  end.

Definition sf_nan (x : spec_float) : bool :=
  match x with
  | S754_nan => true
  | _ => false
  end.

(** The real number a double stands for (0 for infinities and NaN,
    which no array of the notebook holds). *)
Definition to_R (f : float) : R :=
  match Prim2SF f with
  | S754_finite s m e => (IZR (cond_Zopp s (Zpos m)) * powerRZ 2 e)%R
  | _ => 0%R
  end.

End F64.

(** ** NumPy arrays

    NumPy is a library the notebook imports: the functions of this
    module follow its documented behaviour on the calls the notebook
    makes.

    A buffer is a C-contiguous block of one dtype.  An array is a view:
    the location of its buffer and a shape.  Every array of the notebook
    spans its whole buffer in row-major order, so a view needs neither
    offset nor strides. *)

Module Np.

Definition loc : Type := nat.

Inductive buffer : Type :=
| U8 (bytes : list byte)
| F64 (vals : list float).

Record ndarray : Type := { base : loc; shape : list nat }.

(** The session's NumPy state: the heap of buffers and the global
    generator, as the sequence of standard normal samples it has yet to
    return. *)
Record state : Type := {
  heap : gmap loc buffer;
  gauss : nat -> float
}.

Definition prod (dims : list nat) : nat := fold_right Nat.mul 1 dims.

(** [a.size] *)
Definition size (a : ndarray) : nat := prod (shape a).

(** The elements of a buffer as doubles (the cast an arithmetic ufunc
    with a float operand applies to a uint8 operand). *)
Definition as_f64 (b : buffer) : list float :=
  match b with
  | U8 l => map F64.of_u8 l
  | F64 l => l
  end.

(** The buffer of an array.  A Python name never holds a handle on a
    buffer that is gone; the second branch is there to make the function
    total. *)
Definition load (a : ndarray) : M state buffer :=
  fun s => match heap s !! base a with
           | Some b => Ok (b, s)
           | None => Raise ValueError
           end.

(** A fresh buffer: every ufunc call without [out=] returns one. *)
Definition alloc (b : buffer) (shp : list nat) : M state ndarray :=
  fun s =>
    let l := fresh (dom (heap s)) in
    Ok ({| base := l; shape := shp |},
        {| heap := <[l := b]> (heap s); gauss := gauss s |}).

(** The shape [np.reshape] settles on for an array of [n] elements: at
    most one entry may be [-1], and it is inferred from the others. *)
Definition infer_shape (n : nat) (newshape : list Z) : option (list nat) :=
  if existsb (fun d => (d <? -1)%Z) newshape then None
  else
    let known :=
      prod (map Z.to_nat (List.filter (fun d => negb (d =? -1)%Z) newshape)) in
    match length (List.filter (fun d => (d =? -1)%Z) newshape) with
    | 0 => if known =? n then Some (map Z.to_nat newshape) else None
    | 1 =>
        if known =? 0 then None
        else if n mod known =? 0
        then Some (map (fun d => if (d =? -1)%Z then n / known else Z.to_nat d)
                       newshape)
        else None
    | _ => None
    end.

(** [np.reshape(a, newshape)]: a view on the same buffer. *)
Definition reshape (a : ndarray) (newshape : list Z) : M state ndarray :=
  match infer_shape (size a) newshape with
  | Some shp => ret {| base := base a; shape := shp |}
  | None => raise ValueError
  end.

(** [a / c] for a Python number [c]: true division, in binary64. *)
Definition true_divide (a : ndarray) (c : float) : M state ndarray :=
  b <- load a ;;
  alloc (F64 (map (fun v => PrimFloat.div v c) (as_f64 b))) (shape a).

(** [a + b] for two arrays of one shape (the only case of broadcasting
    the notebook uses; any other pair of shapes is refused here). *)
Definition add (a b : ndarray) : M state ndarray :=
  x <- load a ;;
  y <- load b ;;
  if decide (shape a = shape b)
  then alloc (F64 (zip_with PrimFloat.add (as_f64 x) (as_f64 y))) (shape a)
  else raise ValueError.

(** [np.clip(a, lo, hi)] *)
Definition clip (a : ndarray) (lo hi : float) : M state ndarray :=
  b <- load a ;;
  alloc (F64 (map (F64.clip lo hi) (as_f64 b))) (shape a).

(** [np.random.normal(loc, scale, size)]: [loc + scale * z] for the next
    [prod size] standard normal samples [z] of the generator. *)
Definition random_normal (mu sigma : float) (sz : list nat) : M state ndarray :=
  fun s =>
    let n := prod sz in
    let zs := map (gauss s) (seq 0 n) in
    alloc (F64 (map (fun z => PrimFloat.add mu (PrimFloat.mul sigma z)) zs)) sz
          {| heap := heap s; gauss := fun i => gauss s (n + i) |}.

(** The calls that take raw integers from the global generator and
    return no normal sample: [np.random.randint(high)] and
    [np.random.shuffle] of an array of [n] items. *)
Inductive raw_draw : Type :=
| Randint (high : Z)
| Shuffle (n : nat).

(** Such a call leaves the generator at [next d g], when it found it at
    [g]; the buffers are not touched. *)
Definition advance (next : raw_draw -> (nat -> float) -> nat -> float)
    (d : raw_draw) : M state unit :=
  modify (fun s => {| heap := heap s; gauss := next d (gauss s) |}).

(** [np.random.shuffle(a)] for an array of [n] indices, as far as the
    global generator goes: fewer than two indices need no draw. *)
Definition shuffle_draws (next : raw_draw -> (nat -> float) -> nat -> float)
    (n : nat) : M state unit :=
  if n <? 2 then ret tt else advance next (Shuffle n).

(** The seed the backend takes for the initialiser of a kernel,
    [np.random.randint(10e6)]. *)
Definition initializer_seed
    (next : raw_draw -> (nat -> float) -> nat -> float) : M state unit :=
  advance next (Randint 10000000).

End Np.

(** ** The notebook's NumPy cells *)

Definition image_size : nat := 28.

(** [x_train = np.reshape(x_train, [-1, image_size, image_size, 1]) / 255]
    and the same for [x_test]; the result is the new binding of the two
    names. *)
Definition cell_prepare (x_train x_test : Np.ndarray)
  : M Np.state (Np.ndarray * Np.ndarray) :=
  r <- Np.reshape x_train [(-1)%Z; Z.of_nat image_size; Z.of_nat image_size; 1%Z] ;;
  x_train <- Np.true_divide r 255%float ;;
  r <- Np.reshape x_test [(-1)%Z; Z.of_nat image_size; Z.of_nat image_size; 1%Z] ;;
  x_test <- Np.true_divide r 255%float ;;
  ret (x_train, x_test).

(** The noise cell; it returns the bindings of [x_train_noisy] and
    [x_test_noisy]. *)
Definition cell_noise (x_train x_test : Np.ndarray)
  : M Np.state (Np.ndarray * Np.ndarray) :=
  noise <- Np.random_normal 0.5%float 0.5%float (Np.shape x_train) ;;
  x_train_noisy <- Np.add x_train noise ;;
  noise <- Np.random_normal 0.5%float 0.5%float (Np.shape x_test) ;;
  x_test_noisy <- Np.add x_test noise ;;
  x_train_noisy <- Np.clip x_train_noisy 0%float 1%float ;;
  x_test_noisy <- Np.clip x_test_noisy 0%float 1%float ;;
  ret (x_train_noisy, x_test_noisy).

(** ** Keras: tensors, layers and their forward computation

    Keras is a library the notebook imports: this module follows the
    documented behaviour of the layers, of the functional API and of
    [compile], [fit] and [predict], as far as the notebook uses them.

    A tensor value is a shape and its elements in row-major order
    (channels last).  The functions below are the library's layer
    primitives, on one sample at a time; none of the notebook's layers
    mixes the samples of a batch. *)

Module K.

Local Open Scope R_scope.

Record tensor : Type := { tshape : list nat; tdata : list R }.

(** The trainable variables of one layer. *)
Record params : Type := { kernel : list R; bias : list R }.

(** The variables of all layer objects, by the identity of the layer. *)
Definition weights : Type := nat -> params.

Inductive activation : Type := Linear | ReLU | Sigmoid.

Inductive padding : Type := Valid | Same.

Definition sigmoid (x : R) : R := / (1 + exp (- x)).

Definition apply_activation (a : activation) (x : R) : R :=
  match a with
  | Linear => x
  | ReLU => Rmax x 0
  | Sigmoid => sigmoid x
  end.

(** [conv_utils.conv_output_length], without dilation. *)
Definition conv_output_length (input_length filter_size : nat)
    (pad : padding) (stride : nat) : Z :=
  let output_length :=
    match pad with
    | Same => Z.of_nat input_length
    | Valid => Z.of_nat input_length - Z.of_nat filter_size + 1
    end%Z in
  ((output_length + Z.of_nat stride - 1) / Z.of_nat stride)%Z.

(** [conv_utils.deconv_length] *)
Definition deconv_length (dim_size stride_size kernel_size : nat)
    (pad : padding) : nat :=
  match pad with
  | Valid => dim_size * stride_size + Nat.max (kernel_size - stride_size) 0
  | Same => dim_size * stride_size
  end%nat.

(** Rows (or columns) of zeros the backend puts before the input of a
    convolution from [input_length] positions. *)
Definition pad_before (input_length filter_size : nat)
    (pad : padding) (stride : nat) : Z :=
  match pad with
  | Valid => 0
  | Same =>
      let out := conv_output_length input_length filter_size pad stride in
      Z.max ((out - 1) * Z.of_nat stride + Z.of_nat filter_size
             - Z.of_nat input_length) 0 / 2
  end%Z.

Definition rsum (n : nat) (f : nat -> R) : R :=
  fold_right Rplus 0 (map f (seq 0 n)).

Definition axis (x : tensor) (i : nat) : nat := nth i (tshape x) 0%nat.

(** Element [(i, j, c)] of a height-width-channel tensor, zero outside. *)
Definition at3 (x : tensor) (i j : Z) (c : nat) : R :=
  if ((0 <=? i) && (i <? Z.of_nat (axis x 0))
      && (0 <=? j) && (j <? Z.of_nat (axis x 1)))%Z
  then nth ((Z.to_nat i * axis x 1 + Z.to_nat j) * axis x 2 + c)%nat (tdata x) 0
  else 0.

(** The elements of a height-width-channel tensor, one per index. *)
Definition tabulate3 (h w c : nat) (f : nat -> nat -> nat -> R) : list R :=
  flat_map (fun i => flat_map (fun j => map (f i j) (seq 0 c)) (seq 0 w))
           (seq 0 h).

(** [Conv2D]: kernel of shape (k, k, channels, filters). *)
Definition conv2d (filters k stride : nat) (pad : padding) (act : activation)
    (p : params) (x : tensor) : tensor :=
  let h := axis x 0 in
  let w := axis x 1 in
  let c := axis x 2 in
  let pt := pad_before h k pad stride in
  let pl := pad_before w k pad stride in
  {| tshape := [Z.to_nat (conv_output_length h k pad stride);
                Z.to_nat (conv_output_length w k pad stride); filters];
     tdata :=
       tabulate3 (Z.to_nat (conv_output_length h k pad stride))
                 (Z.to_nat (conv_output_length w k pad stride)) filters
         (fun i j o =>
            apply_activation act
              (nth o (bias p) 0 +
               rsum k (fun di => rsum k (fun dj => rsum c (fun ch =>
                 at3 x (Z.of_nat (i * stride + di) - pt)
                       (Z.of_nat (j * stride + dj) - pl) ch
                 * nth (((di * k + dj) * c + ch) * filters + o)%nat
                       (kernel p) 0))))) |}.

(** [Conv2DTranspose]: kernel of shape (k, k, filters, channels); the
    transpose of the convolution that takes the output size down to the
    input size, so input position [i] reaches output position
    [i * stride + di - pad]. *)
Definition conv2d_transpose (filters k stride : nat) (pad : padding)
    (act : activation) (p : params) (x : tensor) : tensor :=
  let h := axis x 0 in
  let w := axis x 1 in
  let c := axis x 2 in
  let ho := deconv_length h stride k pad in
  let wo := deconv_length w stride k pad in
  let pt := pad_before ho k pad stride in
  let pl := pad_before wo k pad stride in
  {| tshape := [ho; wo; filters];
     tdata :=
       tabulate3 ho wo filters
         (fun y z o =>
            apply_activation act
              (nth o (bias p) 0 +
               rsum h (fun i => rsum w (fun j =>
               rsum k (fun di => rsum k (fun dj =>
                 if ((Z.of_nat (i * stride + di) - pt =? Z.of_nat y)
                     && (Z.of_nat (j * stride + dj) - pl =? Z.of_nat z))%Z
                 then rsum c (fun ch =>
                        at3 x (Z.of_nat i) (Z.of_nat j) ch
                        * nth (((di * k + dj) * filters + o) * c + ch)%nat
                              (kernel p) 0)
                 else 0)))))) |}.

(** [Dense] on a vector, the only rank the notebook calls it on: kernel
    of shape (inputs, units). *)
Definition dense (units : nat) (act : activation) (p : params) (x : tensor)
  : tensor :=
  {| tshape := [units];
     tdata :=
       map (fun o =>
              apply_activation act
                (nth o (bias p) 0 +
                 rsum (axis x 0) (fun i =>
                   nth i (tdata x) 0 * nth (i * units + o)%nat (kernel p) 0)))
           (seq 0 units) |}.

Definition flatten (x : tensor) : tensor :=
  {| tshape := [Np.prod (tshape x)]; tdata := tdata x |}.

Definition reshape (target_shape : list nat) (x : tensor) : tensor :=
  {| tshape := target_shape; tdata := tdata x |}.

Definition activate (act : activation) (x : tensor) : tensor :=
  {| tshape := tshape x; tdata := map (apply_activation act) (tdata x) |}.

(** *** The graph of layers

    A layer object has an identity [uid], under which its variables are
    stored; a symbolic tensor remembers the layer call that made it and
    its static shape (without the batch axis).  A model is a layer too. *)

Inductive layer : Type :=
| LConv2D (uid : nat) (name : option string) (filters kernel_size strides : nat)
          (act : activation) (pad : padding)
| LConv2DTranspose (uid : nat) (name : option string)
          (filters kernel_size strides : nat) (act : activation) (pad : padding)
| LFlatten (uid : nat) (name : option string)
| LDense (uid : nat) (name : option string) (units : nat) (act : activation)
| LReshape (uid : nat) (name : option string) (target_shape : list nat)
| LActivation (uid : nat) (name : option string) (act : activation)
| LNetwork (m : model)
with model : Type :=
| MkModel (uid : nat) (name : string) (input_uid : nat)
          (input_shape : list nat) (output : ktensor)
with ktensor : Type :=
| Placeholder (uid : nat) (name : string) (shape : list nat)
| Apply (l : layer) (x : ktensor) (shape : list nat).

Definition static_shape (t : ktensor) : list nat :=
  match t with
  | Placeholder _ _ s => s
  | Apply _ _ s => s
  end.

Definition model_input_shape (m : model) : list nat :=
  match m with MkModel _ _ _ s _ => s end.

Definition model_output (m : model) : ktensor :=
  match m with MkModel _ _ _ _ o => o end.

Definition model_output_shape (m : model) : list nat :=
  static_shape (model_output m).

Definition positive_dim (z : Z) : option nat :=
  if (0 <? z)%Z then Some (Z.to_nat z) else None.

(** [layer.compute_output_shape], on shapes without the batch axis;
    [None] where the library raises (and for a [Dense] layer on an input
    that is not a vector).  [Dense] asserts that its input has a last
    axis that is not 0. *)
Definition compute_output_shape (l : layer) (s : list nat) : option (list nat) :=
  match l with
  | LConv2D _ _ filters k stride _ pad =>
      match s with
      | [h; w; _] =>
          match positive_dim (conv_output_length h k pad stride),
                positive_dim (conv_output_length w k pad stride) with
          | Some ho, Some wo => Some [ho; wo; filters]
          | _, _ => None
          end
      | _ => None
      end
  | LConv2DTranspose _ _ filters k stride _ pad =>
      match s with
      | [h; w; _] =>
          Some [deconv_length h stride k pad; deconv_length w stride k pad;
                filters]
      | _ => None
      end
  | LFlatten _ _ => Some [Np.prod s]
  | LDense _ _ units _ =>
      match s with
      | [S _] => Some [units]
      | _ => None
      end
  | LReshape _ _ target =>
      if (Np.prod target =? Np.prod s)%nat then Some target else None
  | LActivation _ _ _ => Some s
  | LNetwork m =>
      if decide (s = model_input_shape m) then Some (model_output_shape m)
      else None
  end.

(** The forward pass: the value of a symbolic tensor when every
    placeholder it is computed from holds [v]. *)
Fixpoint eval_tensor (W : weights) (v : tensor) (t : ktensor) : tensor :=
  match t with
  | Placeholder _ _ _ => v
  | Apply l x _ => eval_layer W l (eval_tensor W v x)
  end
with eval_layer (W : weights) (l : layer) (v : tensor) : tensor :=
  match l with
  | LConv2D uid _ filters k stride act pad =>
      conv2d filters k stride pad act (W uid) v
  | LConv2DTranspose uid _ filters k stride act pad =>
      conv2d_transpose filters k stride pad act (W uid) v
  | LFlatten _ _ => flatten v
  | LDense uid _ units act => dense units act (W uid) v
  | LReshape _ _ target => reshape target v
  | LActivation _ _ act => activate act v
  | LNetwork m => eval_model W m v
  end
with eval_model (W : weights) (m : model) (v : tensor) : tensor :=
  match m with
  | MkModel _ _ _ _ out => eval_tensor W v out
  end.

(** The layers that own variables, in the order of the forward pass
    ([model.trainable_weights] lists the variables in this order). *)
Fixpoint tensor_weights (t : ktensor) : list nat :=
  match t with
  | Placeholder _ _ _ => []
  | Apply l x _ => tensor_weights x ++ layer_weights l
  end
with layer_weights (l : layer) : list nat :=
  match l with
  | LConv2D uid _ _ _ _ _ _ => [uid]
  | LConv2DTranspose uid _ _ _ _ _ _ => [uid]
  | LDense uid _ _ _ => [uid]
  | LFlatten _ _ | LReshape _ _ _ | LActivation _ _ _ => []
  | LNetwork m => model_weights m
  end
with model_weights (m : model) : list nat :=
  match m with
  | MkModel _ _ _ _ out => tensor_weights out
  end.

(** Is the tensor computed from the placeholder [iuid] alone? *)
Fixpoint depends_on (iuid : nat) (t : ktensor) : bool :=
  match t with
  | Placeholder u _ _ => (u =? iuid)%nat
  | Apply _ x _ => depends_on iuid x
  end.

(** Does every layer call of the graph record the shape the layer
    computes, from an input of shape [ishape]? *)
Fixpoint well_shaped (ishape : list nat) (t : ktensor) : bool :=
  match t with
  | Placeholder _ _ s => bool_decide (s = ishape)
  | Apply l x s =>
      well_shaped ishape x
      && bool_decide (compute_output_shape l (static_shape x) = Some s)
      && layer_well_shaped l
  end
with layer_well_shaped (l : layer) : bool :=
  match l with
  | LNetwork m => model_well_shaped m
  | _ => true
  end
with model_well_shaped (m : model) : bool :=
  match m with
  | MkModel _ _ _ ishape out => well_shaped ishape out
  end.

(** One row of [model.summary()]: the layer and its output shape. *)
Inductive row : Type :=
| RInput (shape : list nat)
| RConv2D (filters kernel_size strides : nat) (act : activation)
          (pad : padding) (shape : list nat)
| RConv2DTranspose (filters kernel_size strides : nat) (act : activation)
          (pad : padding) (shape : list nat)
| RFlatten (shape : list nat)
| RDense (units : nat) (act : activation) (shape : list nat)
| RReshape (shape : list nat)
| RActivation (act : activation) (shape : list nat)
| RModel (name : string) (shape : list nat).

Definition layer_row (l : layer) (s : list nat) : row :=
  match l with
  | LConv2D _ _ f k st a p => RConv2D f k st a p s
  | LConv2DTranspose _ _ f k st a p => RConv2DTranspose f k st a p s
  | LFlatten _ _ => RFlatten s
  | LDense _ _ u a => RDense u a s
  | LReshape _ _ _ => RReshape s
  | LActivation _ _ a => RActivation a s
  | LNetwork (MkModel _ name _ _ _) => RModel name s
  end.

Fixpoint tensor_rows (t : ktensor) : list row :=
  match t with
  | Placeholder _ _ s => [RInput s]
  | Apply l x s => tensor_rows x ++ [layer_row l s]
  end.

Definition summary (m : model) : list row := tensor_rows (model_output m).

(** The symbolic tensors of a model, from its input to its output. *)
Fixpoint chain (t : ktensor) : list ktensor :=
  match t with
  | Placeholder _ _ _ => [t]
  | Apply _ x _ => chain x ++ [t]
  end.

(** The shapes of the values the forward pass computes on [v], one per
    symbolic tensor of the model. *)
Definition forward_shapes (W : weights) (m : model) (v : tensor)
  : list (list nat) :=
  map (fun t => tshape (eval_tensor W v t)) (chain (model_output m)).

(** *** The session state and the functional API *)

(** The hyperparameters of [keras.optimizers.Adam]. *)
Record optimizer : Type := {
  lr : R; beta_1 : R; beta_2 : R; epsilon : R; decay : R
}.

Inductive loss : Type := MeanSquaredError | MeanAbsoluteError.

(** What the library keeps between calls: the counter that gives new
    objects their identity, the variables of the layers, and the
    optimizer's step counter and moment estimates. *)
Record state : Type := {
  next_uid : nat;
  vars : weights;
  iterations : nat;
  moment_m : weights;
  moment_v : weights
}.

Definition fresh_uid : M state nat :=
  fun s => Ok (next_uid s,
               {| next_uid := S (next_uid s); vars := vars s;
                  iterations := iterations s;
                  moment_m := moment_m s; moment_v := moment_v s |}).

(** [activations.get] *)
Definition activations_get (identifier : option string) : M state activation :=
  match identifier with
  | None => ret Linear
  | Some id =>
      if decide (id = "linear"%string) then ret Linear
      else if decide (id = "relu"%string) then ret ReLU
      else if decide (id = "sigmoid"%string) then ret Sigmoid
      else raise ValueError
  end.

(** [conv_utils.normalize_padding]; the argument defaults to ['valid']. *)
Definition normalize_padding (value : option string) : M state padding :=
  match value with
  | None => ret Valid
  | Some v =>
      if decide (v = "valid"%string) then ret Valid
      else if decide (v = "same"%string) then ret Same
      else raise ValueError
  end.

(** [Input(shape=..., name=...)] *)
Definition Input (shape : list nat) (name : string) : M state ktensor :=
  u <- fresh_uid ;;
  ret (Placeholder u name shape).

(** [Conv2D(filters=, kernel_size=, strides=, activation=, padding=)];
    [strides] defaults to 1. *)
Definition Conv2D (filters kernel_size : nat) (strides : option nat)
    (activation : option string) (padding : option string)
    (name : option string) : M state layer :=
  act <- activations_get activation ;;
  pad <- normalize_padding padding ;;
  u <- fresh_uid ;;
  ret (LConv2D u name filters kernel_size (default 1%nat strides) act pad).

(** [Conv2DTranspose(...)], with the same defaults. *)
Definition Conv2DTranspose (filters kernel_size : nat) (strides : option nat)
    (activation : option string) (padding : option string)
    (name : option string) : M state layer :=
  act <- activations_get activation ;;
  pad <- normalize_padding padding ;;
  u <- fresh_uid ;;
  ret (LConv2DTranspose u name filters kernel_size (default 1%nat strides)
                        act pad).

Definition Flatten (name : option string) : M state layer :=
  u <- fresh_uid ;;
  ret (LFlatten u name).

Definition Dense (units : nat) (activation : option string)
    (name : option string) : M state layer :=
  act <- activations_get activation ;;
  u <- fresh_uid ;;
  ret (LDense u name units act).

Definition Reshape (target_shape : list nat) (name : option string)
  : M state layer :=
  u <- fresh_uid ;;
  ret (LReshape u name target_shape).

Definition Activation (activation : string) (name : option string)
  : M state layer :=
  act <- activations_get (Some activation) ;;
  u <- fresh_uid ;;
  ret (LActivation u name act).

(** The class of the exception a layer raises for an input shape it
    refuses: the assertion of [Dense], a [ValueError] elsewhere. *)
Definition shape_error (l : layer) (s : list nat) : exn :=
  match l, s with
  | LDense _ _ _ _, [_] => AssertionError
  | _, _ => ValueError
  end.

(** [layer(x)]: a new symbolic tensor, or the library's shape error. *)
Definition call (l : layer) (x : ktensor) : M state ktensor :=
  match compute_output_shape l (static_shape x) with
  | Some s => ret (Apply l x s)
  | None => raise (shape_error l (static_shape x))
  end.

(** [Model(inputs, outputs, name=...)]: [inputs] has to be an [Input]
    tensor and [outputs] has to be computed from it. *)
Definition Model (inputs outputs : ktensor) (name : string) : M state model :=
  match inputs with
  | Placeholder iuid _ ishape =>
      if depends_on iuid outputs
      then u <- fresh_uid ;; ret (MkModel u name iuid ishape outputs)
      else raise ValueError
  | Apply _ _ _ => raise ValueError
  end.

(** [K.int_shape(x)]: the batch axis is [None]. *)
Definition int_shape (x : ktensor) : list (option nat) :=
  None :: map Some (static_shape x).

(** [shape[i]] where an integer is needed. *)
Definition dim (shape : list (option nat)) (i : nat) : M state nat :=
  match nth_error shape i with
  | Some (Some d) => ret d
  | Some None => raise TypeError
  | None => raise IndexError
  end.

(** *** Batches *)

(** The samples of a batched tensor, along its first axis. *)
Definition unstack (x : tensor) : list tensor :=
  let s := tl (tshape x) in
  map (fun i => {| tshape := s;
                   tdata := take (Np.prod s) (drop (i * Np.prod s) (tdata x)) |})
      (seq 0 (hd 0%nat (tshape x))).

Definition stack (s : list nat) (samples : list tensor) : tensor :=
  {| tshape := length samples :: s; tdata := flat_map tdata samples |}.

(** [make_batches(size, batch_size)] of the training utilities. *)
Definition make_batches (size batch_size : nat) : list (nat * nat) :=
  map (fun i => (i * batch_size, Nat.min size ((i + 1) * batch_size))%nat)
      (seq 0 ((size + batch_size - 1) / batch_size)).

(** [l[start:stop]] *)
Definition slice {A : Type} (l : list A) (b : nat * nat) : list A :=
  take (snd b - fst b) (drop (fst b) l).

(** [unpack_singleton(outs)]: the array itself when the list holds
    one, the list otherwise. *)
Inductive unpacked : Type :=
| Single (a : tensor)
| Several (outs : list tensor).

Definition unpack_singleton (outs : list tensor) : unpacked :=
  match outs with
  | [a] => Single a
  | _ => Several outs
  end.

(** [predict_loop]: the list [outs] gets its one array (the model has
    one output) when the first batch is done, and every batch writes
    its rows; without a batch the list stays empty. *)
Definition predict_loop (f : list tensor -> list tensor)
    (out_shape : list nat) (samples : list tensor) : list tensor :=
  match make_batches (length samples) 32 with
  | [] => []
  | b :: batches =>
      [stack out_shape (flat_map (fun b => f (slice samples b)) (b :: batches))]
  end.

(** [model.predict(x)], in batches of 32 samples. *)
Definition predict (m : model) (x : tensor) : M state unpacked :=
  match tshape x with
  | _ :: s =>
      if decide (s = model_input_shape m)
      then
        st <- get ;;
        ret (unpack_singleton
               (predict_loop (map (eval_model (vars st) m))
                             (model_output_shape m) (unstack x)))
      else raise ValueError
  | [] => raise ValueError
  end.

(** *** Losses and the optimizer *)

Definition rmean (l : list R) : R := fold_right Rplus 0 l / INR (length l).

Definition sample_loss (f : loss) (y_true y_pred : tensor) : R :=
  match f with
  | MeanSquaredError =>
      rmean (zip_with (fun t p => (p - t) * (p - t)) (tdata y_true) (tdata y_pred))
  | MeanAbsoluteError =>
      rmean (zip_with (fun t p => Rabs (p - t)) (tdata y_true) (tdata y_pred))
  end.

(** The loss of a batch: the mean over its samples. *)
Definition batch_loss (f : loss) (y_true y_pred : list tensor) : R :=
  rmean (zip_with (sample_loss f) y_true y_pred).

(** [losses.get] *)
Definition losses_get (identifier : string) : M state loss :=
  if decide (identifier = "mse"%string) then ret MeanSquaredError
  else if decide (identifier = "mean_squared_error"%string) then ret MeanSquaredError
  else if decide (identifier = "mae"%string) then ret MeanAbsoluteError
  else if decide (identifier = "mean_absolute_error"%string) then ret MeanAbsoluteError
  else raise ValueError.

(** [Adam(lr=0.001, beta_1=0.9, beta_2=0.999, epsilon=None, decay=0.)];
    an omitted [epsilon] is the backend's fuzz factor [1e-7]. *)
Definition Adam (rate b1 b2 eps dec : option R) : optimizer :=
  {| lr := default (1 / 1000) rate;
     beta_1 := default (9 / 10) b1;
     beta_2 := default (999 / 1000) b2;
     epsilon := default (1 / 10000000) eps;
     decay := default 0 dec |}.

(** [optimizers.get]: an optimizer named by a string is built with its
    default arguments. *)
Definition optimizers_get (identifier : string) : M state optimizer :=
  if decide (identifier = "adam"%string) then ret (Adam None None None None None)
  else raise ValueError.

Record compiled : Type := {
  cm_model : model;
  cm_loss : loss;
  cm_optimizer : optimizer
}.

Definition zeros_like (p : params) : params :=
  {| kernel := map (fun _ => 0) (kernel p); bias := map (fun _ => 0) (bias p) |}.

(** [model.compile(loss=..., optimizer=...)]: the optimizer starts from
    step 0 and zero moments. *)
Definition compile (m : model) (loss_id optimizer_id : string)
  : M state compiled :=
  f <- losses_get loss_id ;;
  o <- optimizers_get optimizer_id ;;
  _ <- modify (fun s =>
         {| next_uid := next_uid s; vars := vars s; iterations := 0;
            moment_m := fun u => zeros_like (vars s u);
            moment_v := fun u => zeros_like (vars s u) |}) ;;
  ret {| cm_model := m; cm_loss := f; cm_optimizer := o |}.

(** One Adam update of a list of variables, given their gradient. *)
Definition adam_moment_m (o : optimizer) (m g : list R) : list R :=
  zip_with (fun m g => beta_1 o * m + (1 - beta_1 o) * g) m g.

Definition adam_moment_v (o : optimizer) (v g : list R) : list R :=
  zip_with (fun v g => beta_2 o * v + (1 - beta_2 o) * (g * g)) v g.

Definition adam_rate (o : optimizer) (its : nat) : R :=
  let rate :=
    if Rlt_dec 0 (decay o) then lr o * (1 / (1 + decay o * INR its)) else lr o in
  let t := S its in
  rate * (sqrt (1 - beta_2 o ^ t) / (1 - beta_1 o ^ t)).

Definition adam_step (o : optimizer) (its : nat) (p m_t v_t : list R) : list R :=
  zip_with (fun p mv => p - adam_rate o its * fst mv / (sqrt (snd mv) + epsilon o))
           p (zip m_t v_t).

Definition on_params (f : list R -> list R -> list R) (a b : params) : params :=
  {| kernel := f (kernel a) (kernel b); bias := f (bias a) (bias b) |}.

Definition adam_update (o : optimizer) (trainable : list nat) (g : weights)
    (s : state) : state :=
  let m_t := fun u => on_params (adam_moment_m o) (moment_m s u) (g u) in
  let v_t := fun u => on_params (adam_moment_v o) (moment_v s u) (g u) in
  let upd (old new : weights) : weights :=
    fun u => if bool_decide (u ∈ trainable) then new u else old u in
  {| next_uid := next_uid s;
     vars := upd (vars s) (fun u =>
       {| kernel := adam_step o (iterations s) (kernel (vars s u))
                      (kernel (m_t u)) (kernel (v_t u));
          bias := adam_step o (iterations s) (bias (vars s u))
                      (bias (m_t u)) (bias (v_t u)) |});
     iterations := S (iterations s);
     moment_m := upd (moment_m s) m_t;
     moment_v := upd (moment_v s) v_t |}.

(** *** Training

    [fit_loop] is the library's loop over epochs and batches, for any
    train function [f] and test function [val_f] on a state of any type;
    [shuffle e n] is the permutation of [0 .. n-1] drawn for epoch [e]. *)

Section FitLoop.
Context {S : Type}.
Variable f val_f : list tensor -> list tensor -> S -> R * S.
Variable shuffle : nat -> nat -> list nat.

Definition empty_tensor : tensor := {| tshape := []; tdata := [] |}.

(** [x[batch_ids]] *)
Definition gather (xs : list tensor) (ids : list nat) : list tensor :=
  map (fun i => nth i xs empty_tensor) ids.

Definition index_batches (index_array : list nat) (batch_size : nat)
  : list (list nat) :=
  map (slice index_array) (make_batches (length index_array) batch_size).

(** Runs [g] on the batches in turn; returns each batch's loss with the
    size of the batch. *)
Fixpoint batch_loop (g : list tensor -> list tensor -> S -> R * S)
    (xs ys : list tensor) (batches : list (list nat)) (s : S)
  : list (R * nat) * S :=
  match batches with
  | [] => ([], s)
  | ids :: rest =>
      let '(l, s1) := g (gather xs ids) (gather ys ids) s in
      let '(ls, s2) := batch_loop g xs ys rest s1 in
      ((l, length ids) :: ls, s2)
  end.

Definition weighted_mean (l : list (R * nat)) : R :=
  fold_right Rplus 0 (map (fun p => fst p * INR (snd p)) l)
  / INR (fold_right Nat.add 0%nat (map snd l)).

Definition fit_epoch (x y : list tensor)
    (validation : option (list tensor * list tensor)) (batch_size e : nat)
    (s : S) : (R * option R) * S :=
  let index_array := shuffle e (length x) in
  let '(ls, s1) := batch_loop f x y (index_batches index_array batch_size) s in
  match validation with
  | Some (vx, vy) =>
      let '(vs, s2) :=
        batch_loop val_f vx vy
                   (index_batches (seq 0 (length vx)) batch_size) s1 in
      ((weighted_mean ls,
        match vs with
        | [] => None
        | _ :: _ => Some (weighted_mean vs)
        end), s2)
  | None => ((weighted_mean ls, None), s1)
  end.

Fixpoint fit_loop (x y : list tensor)
    (validation : option (list tensor * list tensor)) (batch_size : nat)
    (epochs : list nat) (s : S) : list (R * option R) * S :=
  match epochs with
  | [] => ([], s)
  | e :: rest =>
      let '(h, s1) := fit_epoch x y validation batch_size e s in
      let '(hs, s2) := fit_loop x y validation batch_size rest s1 in
      (h :: hs, s2)
  end.

End FitLoop.

Section Backend.

(** The backend's reverse-mode differentiation: the gradient of an
    objective at the current variables. *)
Variable grad : (weights -> R) -> weights -> weights.
Variable shuffle : nat -> nat -> list nat.

(** The loss of the model's outputs on [xs] against the targets [ys]. *)
Definition objective (cm : compiled) (xs ys : list tensor) (W : weights) : R :=
  batch_loss (cm_loss cm) ys (map (eval_model W (cm_model cm)) xs).

Definition train_on_batch (cm : compiled) (xs ys : list tensor) (s : state)
  : R * state :=
  (objective cm xs ys (vars s),
   adam_update (cm_optimizer cm) (model_weights (cm_model cm))
               (grad (objective cm xs ys) (vars s)) s).

Definition test_on_batch (cm : compiled) (xs ys : list tensor) (s : state)
  : R * state :=
  (objective cm xs ys (vars s), s).

(** The library's check of the arrays passed to [fit]. *)
Definition check_data (m : model) (x y : tensor) : bool :=
  match tshape x, tshape y with
  | n :: sx, n' :: sy =>
      bool_decide (sx = model_input_shape m)
      && bool_decide (sy = model_output_shape m)
      && (n =? n')%nat
  | _, _ => false
  end.

(** The same check, of the validation arrays if there are any. *)
Definition check_validation (m : model)
    (validation_data : option (tensor * tensor)) : bool :=
  match validation_data with
  | Some (vx, vy) => check_data m vx vy
  | None => true
  end.

(** [model.fit(x, y, validation_data=..., epochs=..., batch_size=...)];
    the result is the history: per epoch, the training loss and the
    validation loss, if one was computed.  The arrays are checked
    first.  The first epoch then divides by the batch size, and it
    raises at its end for a training set without samples. *)
Definition fit (cm : compiled) (x y : tensor)
    (validation_data : option (tensor * tensor)) (epochs batch_size : nat)
  : M state (list (R * option R)) :=
  if negb (check_data (cm_model cm) x y) then raise ValueError
  else if negb (check_validation (cm_model cm) validation_data)
  then raise ValueError
  else
    match epochs with
    | 0 => ret []
    | S _ =>
        if (batch_size =? 0)%nat then raise ZeroDivisionError
        else
          match unstack x with
          | [] => raise OtherException
          | _ :: _ =>
              fun s =>
                Ok (fit_loop (train_on_batch cm) (test_on_batch cm) shuffle
                      (unstack x) (unstack y)
                      (option_map
                         (fun v => (unstack (fst v), unstack (snd v)))
                         validation_data)
                      batch_size (seq 0 epochs) s)
          end
    end.

End Backend.

End K.

(** ** The notebook's Keras cells *)

Definition input_shape : list nat := [image_size; image_size; 1].
Definition batch_size : nat := 128.
Definition kernel_size : nat := 3.
Definition latent_dim : nat := 16.

(** The encoder cells: they bind [inputs], [shape] and [encoder]. *)
Definition cell_encoder
  : M K.state (K.ktensor * list (option nat) * K.model) :=
  inputs <- K.Input input_shape "encoder_input" ;;
  let x := inputs in
  l <- K.Conv2D 32 kernel_size (Some 2) (Some "relu"%string)
                (Some "same"%string) None ;;
  x <- K.call l x ;;
  l <- K.Conv2D 64 kernel_size (Some 2) (Some "relu"%string)
                (Some "same"%string) None ;;
  x <- K.call l x ;;
  let shape := K.int_shape x in
  l <- K.Flatten None ;;
  x <- K.call l x ;;
  l <- K.Dense latent_dim None (Some "latent_vector"%string) ;;
  latent <- K.call l x ;;
  encoder <- K.Model inputs latent "encoder" ;;
  ret (inputs, shape, encoder).

(** The decoder cells, from the [shape] the encoder cells captured. *)
Definition cell_decoder (shape : list (option nat)) : M K.state K.model :=
  latent_inputs <- K.Input [latent_dim] "decoder_input" ;;
  d1 <- K.dim shape 1 ;;
  d2 <- K.dim shape 2 ;;
  d3 <- K.dim shape 3 ;;
  l <- K.Dense (d1 * d2 * d3) None None ;;
  x <- K.call l latent_inputs ;;
  l <- K.Reshape [d1; d2; d3] None ;;
  x <- K.call l x ;;
  l <- K.Conv2DTranspose 64 kernel_size (Some 2) (Some "relu"%string)
                         (Some "same"%string) None ;;
  x <- K.call l x ;;
  l <- K.Conv2DTranspose 32 kernel_size (Some 2) (Some "relu"%string)
                         (Some "same"%string) None ;;
  x <- K.call l x ;;
  l <- K.Conv2DTranspose 1 kernel_size None None (Some "same"%string) None ;;
  x <- K.call l x ;;
  l <- K.Activation "sigmoid" (Some "decoder_output"%string) ;;
  outputs <- K.call l x ;;
  K.Model latent_inputs outputs "decoder".

(** [autoencoder = Model(inputs, decoder(encoder(inputs)), name=...)] *)
Definition cell_autoencoder (inputs : K.ktensor) (encoder decoder : K.model)
  : M K.state K.model :=
  z <- K.call (K.LNetwork encoder) inputs ;;
  y <- K.call (K.LNetwork decoder) z ;;
  K.Model inputs y "autoencoder".

(** The three models of the notebook, built in its order. *)
Definition build_models : M K.state (K.model * K.model * K.model) :=
  r <- cell_encoder ;;
  let '(inputs, shape, encoder) := r in
  decoder <- cell_decoder shape ;;
  autoencoder <- cell_autoencoder inputs encoder decoder ;;
  ret (encoder, decoder, autoencoder).

(** *** Handing NumPy arrays to Keras *)

Record session : Type := { np : Np.state; keras : K.state }.

Definition in_np {A : Type} (c : M Np.state A) : M session A :=
  fun s => match c (np s) with
           | Ok (a, n) => Ok (a, {| np := n; keras := keras s |})
           | Raise e => Raise e
           end.

Definition in_keras {A : Type} (c : M K.state A) : M session A :=
  fun s => match c (keras s) with
           | Ok (a, k) => Ok (a, {| np := np s; keras := k |})
           | Raise e => Raise e
           end.

(** The tensor the library reads from an array. *)
Definition as_tensor (a : Np.ndarray) : M session K.tensor :=
  b <- in_np (Np.load a) ;;
  ret {| K.tshape := Np.shape a; K.tdata := map F64.to_R (Np.as_f64 b) |}.

Section Driver.

Variable grad : (K.weights -> R) -> K.weights -> K.weights.

(** [fit] shuffles the indices of the training set once per epoch, with
    [np.random.shuffle]: [shuffle e n] is the permutation of epoch [e],
    and [next d g] is NumPy's global generator after the draw [d] that
    found it at [g]. *)
Variable shuffle : nat -> nat -> list nat.
Variable next : Np.raw_draw -> (nat -> float) -> nat -> float.

(** The same computation once per element of [l]. *)
Definition for_each {S A : Type} (l : list A) (c : M S unit) : M S unit :=
  fold_right (fun _ k => _ <- c ;; k) (ret tt) l.

(** Building a layer with a kernel takes a seed for its initialiser from
    NumPy's generator: one per layer of the model that has weights. *)
Definition seed_draws (m : K.model) : M Np.state unit :=
  for_each (K.model_weights m) (Np.initializer_seed next).

(** [fit] in the session: the library's loop on the Keras state, and
    the draws of its shuffles on NumPy's generator. *)
Definition session_fit (cm : K.compiled) (x y : K.tensor)
    (validation_data : option (K.tensor * K.tensor)) (epochs batch_size : nat)
  : M session (list (R * option R)) :=
  h <- in_keras (K.fit grad shuffle cm x y validation_data epochs batch_size) ;;
  _ <- in_np (for_each (seq 0 epochs)
                (Np.shuffle_draws next (hd 0 (K.tshape x)))) ;;
  ret h.

(** The training cell, after the model is built: [compile] and [fit]. *)
Definition cell_train (autoencoder : K.model)
    (x_train_noisy x_train x_test_noisy x_test : Np.ndarray)
  : M session (K.compiled * list (R * option R)) :=
  cm <- in_keras (K.compile autoencoder "mse" "adam") ;;
  xn <- as_tensor x_train_noisy ;;
  xc <- as_tensor x_train ;;
  vn <- as_tensor x_test_noisy ;;
  vc <- as_tensor x_test ;;
  h <- session_fit cm xn xc (Some (vn, vc)) 2 batch_size ;;
  ret (cm, h).

(** [x_decoded = autoencoder.predict(x_test_noisy)] *)
Definition cell_predict (autoencoder : K.model) (x_test_noisy : Np.ndarray)
  : M session K.unpacked :=
  x <- as_tensor x_test_noisy ;;
  in_keras (K.predict autoencoder x).

(** The notebook from the loaded dataset to the denoised test images. *)
Definition notebook (x_train x_test : Np.ndarray) : M session K.unpacked :=
  p <- in_np (cell_prepare x_train x_test) ;;
  let '(x_train, x_test) := p in
  q <- in_np (cell_noise x_train x_test) ;;
  let '(x_train_noisy, x_test_noisy) := q in
  ms <- in_keras build_models ;;
  let '(encoder, decoder, autoencoder) := ms in
  _ <- in_np (seed_draws autoencoder) ;;
  _ <- cell_train autoencoder x_train_noisy x_train x_test_noisy x_test ;;
  cell_predict autoencoder x_test_noisy.

End Driver.

(** ** Python's [random] module

    The generator is the sequence of values its next calls are built
    from; [_randbelow(n)] reduces the next one to [0 .. n-1]. *)

Module Py.

Record state : Type := { stream : nat -> nat }.

(** [random.randint(a, b)] is [randrange(a, b + 1)]: [a] plus a value
    below the width [b - a + 1], so both ends are possible results; an
    empty range is a [ValueError]. *)
Definition randint (a b : Z) : M state Z :=
  fun s =>
    let width := (b - a + 1)%Z in
    if (0 <? width)%Z
    then Ok ((a + Z.of_nat (stream s 0) mod width)%Z,
             {| stream := fun i => stream s (S i) |})
    else Raise ValueError.

End Py.

(** ** Conversion of a double to an unsigned 8-bit integer *)

Module Cast.

(** The integral part of a double, fraction discarded; none for an
    infinity or a NaN. *)
Definition truncate (v : float) : option Z :=
  match Prim2SF v with
  | S754_zero _ => Some 0%Z
  | S754_finite s m e => Some (cond_Zopp s (Z.shiftl (Zpos m) e))
  | _ => None
  end.

Definition byte_of (z : Z) : option byte :=
  if (0 <=? z)%Z then Byte.of_N (Z.to_N z) else None.

(** The C conversion [(npy_ubyte)v]: the integral part where it is a
    value of the type.  C leaves every other conversion undefined;
    [wild] is what the platform stores then. *)
Definition to_u8 (wild : float -> byte) (v : float) : byte :=
  match truncate v with
  | Some z =>
      match byte_of z with
      | Some b => b
      | None => wild v
      end
  | None => wild v
  end.

(** The integral part of a real number, towards zero. *)
Definition truncate_real (r : R) : Z :=
  if Rle_dec 0 r then Int_part r else (- Int_part (- r))%Z.

Definition real_to_u8 (wild : R -> byte) (r : R) : byte :=
  match byte_of (truncate_real r) with
  | Some b => b
  | None => wild r
  end.

End Cast.

(** ** Indexing: views into a buffer

    [a[i]] and [a.reshape(...)] return views: a handle on the buffer of
    [a], the position of the first element, and a shape.  The elements
    of a view are contiguous, as the arrays they are taken from are. *)

Module View.

Record view : Type := { base : Np.loc; offset : nat; shape : list nat }.

Definition of_array (a : Np.ndarray) : view :=
  {| base := Np.base a; offset := 0; shape := Np.shape a |}.

(** [len(a)]: the length of the first axis. *)
Definition len {S : Type} (shp : list nat) : M S nat :=
  match shp with
  | n :: _ => ret n
  | [] => raise TypeError
  end.

(** Where index [i] of an axis of length [n] points: a negative index
    counts from the end, anything outside [-n .. n-1] is an
    [IndexError]. *)
Definition position {S : Type} (n : nat) (i : Z) : M S nat :=
  if ((- Z.of_nat n <=? i) && (i <? Z.of_nat n))%Z
  then ret (Z.to_nat (if (i <? 0)%Z then i + Z.of_nat n else i)%Z)
  else raise IndexError.

(** [a[i]] for an integer [i]: the [i]-th sub-array along the first
    axis. *)
Definition getitem {S : Type} (v : view) (i : Z) : M S view :=
  match shape v with
  | n :: s =>
      k <- position n i ;;
      ret {| base := base v; offset := offset v + k * Np.prod s; shape := s |}
  | [] => raise IndexError
  end.

(** [a.reshape(d1, d2, ...)] *)
Definition reshape {S : Type} (v : view) (newshape : list Z) : M S view :=
  match Np.infer_shape (Np.prod (shape v)) newshape with
  | Some shp => ret {| base := base v; offset := offset v; shape := shp |}
  | None => raise ValueError
  end.

Definition window {A : Type} (v : view) (l : list A) : list A :=
  take (Np.prod (shape v)) (drop (offset v) l).

(** The elements of a view. *)
Definition read (v : view) : M Np.state Np.buffer :=
  b <- Np.load {| Np.base := base v; Np.shape := shape v |} ;;
  ret match b with
      | Np.U8 l => Np.U8 (window v l)
      | Np.F64 l => Np.F64 (window v l)
      end.

(** [a * c] for a float array [a] and a Python number [c] (the notebook
    multiplies no other array; a uint8 array is refused here). *)
Definition multiply (v : view) (c : float) : M Np.state Np.ndarray :=
  b <- read v ;;
  match b with
  | Np.F64 l => Np.alloc (Np.F64 (map (fun x => PrimFloat.mul x c) l)) (shape v)
  | Np.U8 _ => raise TypeError
  end.

(** [a.astype(np.uint8)]: a new array, element by element. *)
Definition astype_uint8 (wild : float -> byte) (a : Np.ndarray)
  : M Np.state Np.ndarray :=
  b <- Np.load a ;;
  match b with
  | Np.F64 l => Np.alloc (Np.U8 (map (Cast.to_u8 wild) l)) (Np.shape a)
  | Np.U8 l => Np.alloc (Np.U8 l) (Np.shape a)
  end.

End View.

(** ** The cells that show an image

    What a cell hands to [imshow] and to [print] is its result. *)

Record viewer : Type := { random : Py.state; numpy : Np.state }.

Definition in_random {A : Type} (c : M Py.state A) : M viewer A :=
  fun s => match c (random s) with
           | Ok (a, r) => Ok (a, {| random := r; numpy := numpy s |})
           | Raise e => Raise e
           end.

Definition in_numpy {A : Type} (c : M Np.state A) : M viewer A :=
  fun s => match c (numpy s) with
           | Ok (a, n) => Ok (a, {| random := random s; numpy := n |})
           | Raise e => Raise e
           end.

(** The first cell that draws: an image of the loaded training set, as
    it is, and its label. *)
Definition cell_show_digit (x_train y_train : Np.ndarray)
  : M viewer (View.view * Np.buffer) :=
  n <- View.len (Np.shape x_train) ;;
  image_num <- in_random (Py.randint 0 (Z.of_nat n)) ;;
  img <- View.getitem (View.of_array x_train) image_num ;;
  img <- View.reshape img [Z.of_nat image_size; Z.of_nat image_size] ;;
  label <- View.getitem (View.of_array y_train) image_num ;;
  label <- in_numpy (View.read label) ;;
  ret (img, label).

Section Display.

(** What the platform's conversions store for a value outside 0 .. 255. *)
Variable wild : float -> byte.
Variable wild_real : R -> byte.

(** [img_plt = img.reshape(image_size, image_size)] and
    [img_plt = (img_plt * 255).astype(np.uint8)] *)
Definition to_picture (img : View.view) : M Np.state Np.ndarray :=
  img_plt <- View.reshape img [Z.of_nat image_size; Z.of_nat image_size] ;;
  scaled <- View.multiply img_plt 255%float ;;
  View.astype_uint8 wild scaled.

(** The cell that shows a noisy training image and its label. *)
Definition cell_show_noisy (x_train_noisy y_train : Np.ndarray)
  : M viewer (Np.ndarray * Np.buffer) :=
  n <- View.len (Np.shape x_train_noisy) ;;
  image_index <- in_random (Py.randint 0 (Z.of_nat n)) ;;
  img <- View.getitem (View.of_array x_train_noisy) image_index ;;
  img_plt <- in_numpy (to_picture img) ;;
  label <- View.getitem (View.of_array y_train) image_index ;;
  label <- in_numpy (View.read label) ;;
  ret (img_plt, label).

(** [x_decoded[index]], [.reshape(image_size, image_size)] and the
    conversion, on the array [predict] returned. *)
Definition decoded_picture (x_decoded : K.tensor) (index : Z)
  : M Np.state Np.ndarray :=
  match K.tshape x_decoded with
  | n :: _ =>
      k <- View.position n index ;;
      let img := nth k (K.unstack x_decoded) K.empty_tensor in
      match Np.infer_shape (Np.prod (K.tshape img))
                           [Z.of_nat image_size; Z.of_nat image_size] with
      | Some shp =>
          Np.alloc (Np.U8 (map (fun v => Cast.real_to_u8 wild_real (v * 255)%R)
                               (K.tdata img))) shp
      | None => raise ValueError
      end
  | [] => raise IndexError
  end.

(** The last cell: a noisy test image and the autoencoder's output for
    it. *)
Definition cell_show_decoded (x_test_noisy : Np.ndarray) (x_decoded : K.tensor)
  : M viewer (Np.ndarray * Np.ndarray) :=
  n <- View.len (Np.shape x_test_noisy) ;;
  index <- in_random (Py.randint 0 (Z.of_nat n)) ;;
  img <- View.getitem (View.of_array x_test_noisy) index ;;
  noisy_plt <- in_numpy (to_picture img) ;;
  decoded_plt <- in_numpy (decoded_picture x_decoded index) ;;
  ret (noisy_plt, decoded_plt).

End Display.

(** ** The model cells, for any setting of the configuration cell

    [cell_encoder], [cell_decoder] and [build_models] read the globals
    [image_size], [kernel_size] and [latent_dim]; here they are
    arguments. *)

Definition cell_encoder_with (input_shape : list nat)
    (kernel_size latent_dim : nat)
  : M K.state (K.ktensor * list (option nat) * K.model) :=
  inputs <- K.Input input_shape "encoder_input" ;;
  let x := inputs in
  l <- K.Conv2D 32 kernel_size (Some 2) (Some "relu"%string)
                (Some "same"%string) None ;;
  x <- K.call l x ;;
  l <- K.Conv2D 64 kernel_size (Some 2) (Some "relu"%string)
                (Some "same"%string) None ;;
  x <- K.call l x ;;
  let shape := K.int_shape x in
  l <- K.Flatten None ;;
  x <- K.call l x ;;
  l <- K.Dense latent_dim None (Some "latent_vector"%string) ;;
  latent <- K.call l x ;;
  encoder <- K.Model inputs latent "encoder" ;;
  ret (inputs, shape, encoder).

Definition cell_decoder_with (shape : list (option nat))
    (kernel_size latent_dim : nat) : M K.state K.model :=
  latent_inputs <- K.Input [latent_dim] "decoder_input" ;;
  d1 <- K.dim shape 1 ;;
  d2 <- K.dim shape 2 ;;
  d3 <- K.dim shape 3 ;;
  l <- K.Dense (d1 * d2 * d3) None None ;;
  x <- K.call l latent_inputs ;;
  l <- K.Reshape [d1; d2; d3] None ;;
  x <- K.call l x ;;
  l <- K.Conv2DTranspose 64 kernel_size (Some 2) (Some "relu"%string)
                         (Some "same"%string) None ;;
  x <- K.call l x ;;
  l <- K.Conv2DTranspose 32 kernel_size (Some 2) (Some "relu"%string)
                         (Some "same"%string) None ;;
  x <- K.call l x ;;
  l <- K.Conv2DTranspose 1 kernel_size None None (Some "same"%string) None ;;
  x <- K.call l x ;;
  l <- K.Activation "sigmoid" (Some "decoder_output"%string) ;;
  outputs <- K.call l x ;;
  K.Model latent_inputs outputs "decoder".

Definition build_models_with (image_size kernel_size latent_dim : nat)
  : M K.state (K.model * K.model * K.model) :=
  r <- cell_encoder_with [image_size; image_size; 1] kernel_size latent_dim ;;
  let '(inputs, shape, encoder) := r in
  decoder <- cell_decoder_with shape kernel_size latent_dim ;;
  autoencoder <- cell_autoencoder inputs encoder decoder ;;
  ret (encoder, decoder, autoencoder).

(** ** Vocabulary of the statements about the NumPy cells *)

(** The array [a] is live in [s] and its buffer is [b]. *)
Definition holds (s : Np.state) (a : Np.ndarray) (b : Np.buffer) : Prop :=
  Np.heap s !! Np.base a = Some b.

(** Every buffer of [s] is still in [s'], with the same contents. *)
Definition extends (s s' : Np.state) : Prop :=
  forall l b, Np.heap s !! l = Some b -> Np.heap s' !! l = Some b.

(** The [n] samples the generator of [s] returns after [off] others. *)
Definition draw (s : Np.state) (off n : nat) : list float :=
  map (Np.gauss s) (seq off n).

(** What the noise cell computes from clean values and samples. *)
Definition noisy (xs zs : list float) : list float :=
  map (F64.clip 0 1)
      (zip_with PrimFloat.add xs (map (fun z => 0.5 + 0.5 * z)%float zs)).

(** ** Vocabulary of the statements about training

    The schedule of a call of [fit], as the specification describes
    training: in every epoch one call of the train function per batch of
    the shuffled training pairs, then (with validation data) one call of
    the test function per batch of the validation pairs, in their order.
    The library's loop is compared with it below. *)

Inductive backend_call : Type :=
| TrainCall (xs ys : list K.tensor)
| TestCall (xs ys : list K.tensor).

Definition epoch_calls (shuffle : nat -> nat -> list nat)
    (x y : list K.tensor) (validation : option (list K.tensor * list K.tensor))
    (batch_size e : nat) : list backend_call :=
  map (fun ids => TrainCall (K.gather x ids) (K.gather y ids))
      (K.index_batches (shuffle e (length x)) batch_size)
  ++ match validation with
     | Some (vx, vy) =>
         map (fun ids => TestCall (K.gather vx ids) (K.gather vy ids))
             (K.index_batches (seq 0 (length vx)) batch_size)
     | None => []
     end.

Definition fit_schedule (shuffle : nat -> nat -> list nat)
    (x y : list K.tensor) (validation : option (list K.tensor * list K.tensor))
    (batch_size epochs : nat) : list backend_call :=
  flat_map (epoch_calls shuffle x y validation batch_size) (seq 0 epochs).

(** The state after a list of backend calls. *)
Definition replay {S : Type}
    (f val_f : list K.tensor -> list K.tensor -> S -> R * S)
    (calls : list backend_call) (s : S) : S :=
  fold_left (fun s c =>
               match c with
               | TrainCall xs ys => snd (f xs ys s)
               | TestCall xs ys => snd (val_f xs ys s)
               end) calls s.


(** The samples Keras reads from an array of doubles. *)
Definition samples_of (a : Np.ndarray) (data : list float) : list K.tensor :=
  K.unstack {| K.tshape := Np.shape a; K.tdata := map F64.to_R data |}.



Definition unit_interval (v : R) : Prop := (0 <= v <= 1)%R.

(** An image with all its values in [0,1]. *)
Definition unit_image (t : K.tensor) : Prop := Forall unit_interval (K.tdata t).

(** An entry of the history of [fit] with a validation loss, both
    losses in [0,1]. *)
Definition unit_losses (r : R * option R) : Prop :=
  unit_interval (fst r) /\ exists v, snd r = Some v /\ unit_interval v.

(** ** Vocabulary of the statements about the cells that show an image *)

(** The index a cell draws for an array of [n] rows, and the session
    after the draw. *)
Definition drawn_index (s : viewer) (n : nat) : nat :=
  Py.stream (random s) 0 mod (n + 1).

Definition after_draw (s : viewer) : viewer :=
  {| random := {| Py.stream := fun k => Py.stream (random s) (S k) |};
     numpy := numpy s |}.

(** The elements of image [i] in a buffer of 28 x 28 images. *)
Definition image_window {A : Type} (i : nat) (l : list A) : list A :=
  take 784 (drop (i * 784) l).

(** The byte [b] is the integral part of 255 times [v]. *)
Definition pixel_of (v : float) (b : byte) : Prop :=
  Cast.truncate (v * 255)%float = Some (Z.of_N (Byte.to_N b)).

Definition pixel_of_real (v : R) (b : byte) : Prop :=
  (IZR (Z.of_N (Byte.to_N b)) <= v * 255 < IZR (Z.of_N (Byte.to_N b)) + 1)%R.

(** ** A small session to run the NumPy cells on *)

Definition demo_gauss (i : nat) : float :=
  if Nat.even i then 0x1p+1023%float else (-3.25)%float.

Definition demo_bytes_state : Np.state :=
  {| Np.heap := {[ 0 := Np.U8 (repeat "255"%byte 784 ++ repeat "007"%byte 784);
                   1 := Np.U8 (repeat "128"%byte 784) ]};
     Np.gauss := demo_gauss |}.

Definition demo_floats_state : Np.state :=
  {| Np.heap := {[ 0 := Np.F64 [0; 0.25; 1; 0.5]%float;
                   1 := Np.F64 [1; 0]%float ]};
     Np.gauss := demo_gauss |}.

(** A new Keras session, and a NumPy session that holds one noisy and
    one clean image. *)
Definition fresh_keras : K.state :=
  {| K.next_uid := 0;
     K.vars := fun _ => {| K.kernel := []; K.bias := [] |};
     K.iterations := 0;
     K.moment_m := fun _ => {| K.kernel := []; K.bias := [] |};
     K.moment_v := fun _ => {| K.kernel := []; K.bias := [] |} |}.

Definition demo_images_session : session :=
  {| np := {| Np.heap := {[ 0 := Np.F64 (repeat 1%float 784);
                            1 := Np.F64 (repeat 0.5%float 784) ]};
              Np.gauss := demo_gauss |};
     keras := fresh_keras |}.

Definition demo_noisy : Np.ndarray := {| Np.base := 0; Np.shape := [1; 28; 28; 1] |}.
Definition demo_clean : Np.ndarray := {| Np.base := 1; Np.shape := [1; 28; 28; 1] |}.

(** An all-zero image and an all-zero latent vector. *)
Definition zero_image : K.tensor :=
  {| K.tshape := [28; 28; 1]; K.tdata := repeat 0%R 784 |}.

Definition zero_latent : K.tensor :=
  {| K.tshape := [16]; K.tdata := repeat 0%R 16 |}.

(** ** A small session to show images in *)

Definition demo_viewer (draw : nat) : viewer :=
  {| random := {| Py.stream := fun _ => draw |};
     numpy := {| Np.heap := {[ 0 := Np.U8 (repeat "255"%byte 784 ++ repeat "007"%byte 784);
                              1 := Np.U8 ["003"%byte; "008"%byte];
                              2 := Np.F64 (repeat 1%float 784 ++ repeat 0.5%float 784) ]};
                 Np.gauss := demo_gauss |} |}.

Definition demo_digits : Np.ndarray := {| Np.base := 0; Np.shape := [2; 28; 28] |}.
Definition demo_labels : Np.ndarray := {| Np.base := 1; Np.shape := [2] |}.
Definition demo_pair_noisy : Np.ndarray :=
  {| Np.base := 2; Np.shape := [2; 28; 28; 1] |}.

Definition demo_decoded : K.tensor :=
  {| K.tshape := [2; 28; 28; 1]; K.tdata := repeat 0%R 1568 |}.


Definition demo_bytes_session : session :=
  {| np := demo_bytes_state; keras := fresh_keras |}.

(** * Part II: properties *)

(** ** The library functions on small inputs *)

Section Examples.

Example infer_shape_two_images :
  Np.infer_shape 1568 [(-1)%Z; 28%Z; 28%Z; 1%Z] = Some [2; 28; 28; 1].
Proof. reflexivity. Qed.

Example infer_shape_mismatch :
  Np.infer_shape 1000 [(-1)%Z; 28%Z; 28%Z; 1%Z] = None.
Proof. reflexivity. Qed.

Example scaled_white_pixel : (F64.of_u8 "255" / 255 = 1)%float.
Proof. reflexivity. Qed.

Example scaled_dark_pixel : (F64.of_u8 "001" / 255 = 0x1.010101010101p-8)%float.
Proof. reflexivity. Qed.

Example clip_above : (F64.clip 0 1 1.75 = 1)%float.
Proof. reflexivity. Qed.

Example clip_below : (F64.clip 0 1 (-0.5) = 0)%float.
Proof. reflexivity. Qed.

Example clip_infinity : (F64.clip 0 1 infinity = 1)%float.
Proof. reflexivity. Qed.

Example clip_keeps_nan : is_nan (F64.clip 0 1 nan) = true.
Proof. reflexivity. Qed.

Example make_batches_300 :
  K.make_batches 300 128 = [(0, 128); (128, 256); (256, 300)].
Proof. reflexivity. Qed.

Example same_padding_sizes :
  K.conv_output_length 28 3 K.Same 2 = 14%Z /\
  K.conv_output_length 14 3 K.Same 2 = 7%Z /\
  K.conv_output_length 7 3 K.Same 2 = 4%Z /\
  K.deconv_length 7 2 3 K.Same = 14 /\
  K.deconv_length 14 2 3 K.Same = 28 /\
  K.deconv_length 28 1 3 K.Same = 28.
Proof. repeat split; reflexivity. Qed.

Example same_padding_offsets :
  K.pad_before 28 3 K.Same 2 = 0%Z /\ K.pad_before 28 3 K.Same 1 = 1%Z.
Proof. split; reflexivity. Qed.

Local Open Scope R_scope.

(** Unfolds a convolution on concrete shapes down to sums of products. *)
Ltac unfold_convolution :=
  cbv [K.conv2d K.conv2d_transpose K.axis K.tshape K.tdata K.rsum
       K.apply_activation K.kernel K.bias K.tabulate3 K.at3 K.deconv_length
       K.pad_before K.conv_output_length nth seq map flat_map app fold_right
       Nat.mul Nat.add Z.of_nat Z.add Z.sub Z.mul Z.div Z.max Z.eqb Z.leb
       Z.ltb Z.compare Z.to_nat Z.opp Z.div_eucl Z.pos_div_eucl Z.pos_sub
       Z.succ_double Z.pred_double Z.double Z.geb Z.gtb Pos.of_succ_nat
       Pos.succ Pos.add Pos.mul Pos.compare Pos.compare_cont Pos.eqb
       Pos.to_nat Pos.iter_op Pos.pred_double Pos.sub Pos.sub_mask
       Pos.succ_double_mask Pos.double_mask Pos.double_pred_mask
       Pos.sub_mask_carry Pos.add_carry andb CompOpp].

Example dense_affine :
  K.dense 1 K.Linear {| K.kernel := [2; 3]; K.bias := [1] |}
          {| K.tshape := [2%nat]; K.tdata := [5; 7] |}
  = {| K.tshape := [1%nat]; K.tdata := [32] |}.
Proof.
  cbv [K.dense K.axis K.tshape K.tdata K.rsum K.apply_activation K.kernel K.bias
       nth seq map fold_right Nat.mul Nat.add].
  f_equal. f_equal. lra.
Qed.

(** A stride-2 transposed convolution of one pixel writes the top left
    2 x 2 corner of the kernel. *)
Example conv2d_transpose_one_pixel :
  K.conv2d_transpose 1 3 2 K.Same K.Linear
    {| K.kernel := [1; 2; 3; 4; 5; 6; 7; 8; 9]; K.bias := [0] |}
    {| K.tshape := [1; 1; 1]%nat; K.tdata := [1] |}
  = {| K.tshape := [2; 2; 1]%nat; K.tdata := [1; 2; 4; 5] |}.
Proof.
  unfold_convolution.
  f_equal. repeat (f_equal; try lra).
Qed.

(** A stride-2 convolution of a 2 x 2 image with same padding reads the
    top left 2 x 2 corner of the kernel. *)
Example conv2d_one_pixel :
  K.conv2d 1 3 2 K.Same K.Linear
    {| K.kernel := [1; 2; 3; 4; 5; 6; 7; 8; 9]; K.bias := [10] |}
    {| K.tshape := [2; 2; 1]%nat; K.tdata := [1; 1; 1; 1] |}
  = {| K.tshape := [1; 1; 1]%nat; K.tdata := [22] |}.
Proof.
  unfold_convolution.
  f_equal. f_equal. lra.
Qed.

End Examples.

(** ** Binary64 arithmetic: sums and products of finite numbers are not
    NaN, and clipping a number that is not NaN lands in [0,1] *)

Section FloatFacts.

Import F64.

Lemma shr_1_nonneg mrs : (0 <= shr_m mrs)%Z -> (0 <= shr_m (shr_1 mrs))%Z.
Proof.
  destruct mrs as [m r s]; simpl.
  destruct m as [|p|p]; simpl; try lia; destruct p; simpl; lia.
Qed.

Lemma iter_shr_1_nonneg p : forall mrs,
  (0 <= shr_m mrs)%Z -> (0 <= shr_m (SpecFloat.iter_pos shr_1 p mrs))%Z.
Proof.
  induction p as [p IH|p IH|]; intros mrs H; simpl.
  - apply IH, IH, shr_1_nonneg, H.
  - apply IH, IH, H.
  - apply shr_1_nonneg, H.
Qed.

Lemma shr_fexp_nonneg m e l :
  (0 <= m)%Z -> (0 <= shr_m (fst (shr_fexp prec emax m e l)))%Z.
Proof.
  intros Hm. unfold shr_fexp, shr.
  assert (H0 : (0 <= shr_m (shr_record_of_loc m l))%Z).
  { destruct l as [|[]]; simpl; exact Hm. }
  destruct (fexp prec emax (Zdigits2 m + e) - e)%Z; simpl; auto.
  apply iter_shr_1_nonneg, H0.
Qed.

Lemma round_nearest_even_nonneg m l :
  (0 <= m)%Z -> (0 <= round_nearest_even m l)%Z.
Proof.
  intros Hm. destruct l as [|[]]; simpl; try lia.
  destruct (Z.even m); lia.
Qed.

Lemma binary_round_aux_not_nan sx mx ex lx :
  (0 <= mx)%Z -> sf_nan (binary_round_aux prec emax sx mx ex lx) = false.
Proof.
  intros Hm. unfold binary_round_aux.
  pose proof (shr_fexp_nonneg mx ex lx Hm) as H1.
  destruct (shr_fexp prec emax mx ex lx) as [mrs' e']. simpl in H1.
  pose proof (shr_fexp_nonneg _ e' loc_Exact
                (round_nearest_even_nonneg _ (loc_of_shr_record mrs') H1)) as H2.
  destruct (shr_fexp prec emax _ e' loc_Exact) as [mrs'' e'']. simpl in H2.
  destruct (shr_m mrs'') as [|p|p]; simpl; try reflexivity.
  - destruct (e'' <=? emax - prec)%Z; reflexivity.
  - lia.
Qed.

Lemma binary_round_not_nan sx mx ex :
  sf_nan (binary_round prec emax sx mx ex) = false.
Proof.
  unfold binary_round.
  destruct (shl_align mx ex _) as [mz ez].
  apply binary_round_aux_not_nan. lia.
Qed.

Lemma SFadd_not_nan x y :
  sf_finite x = true -> sf_nan y = false -> sf_nan (SF64add x y) = false.
Proof.
  unfold SF64add, SFadd.
  destruct x as [sx|sx| |sx mx ex]; try discriminate;
    destruct y as [sy|sy| |sy my ey]; try discriminate; intros _ _;
    try reflexivity.
  - destruct sx, sy; reflexivity.
  - unfold binary_normalize.
    destruct (_ + _)%Z; try reflexivity; apply binary_round_not_nan.
Qed.

Lemma SFmul_not_nan x y :
  sf_finite x = true -> sf_finite y = true -> sf_nan (SF64mul x y) = false.
Proof.
  unfold SF64mul, SFmul.
  destruct x as [sx|sx| |sx mx ex]; try discriminate;
    destruct y as [sy|sy| |sy my ey]; try discriminate; intros _ _;
    try reflexivity.
  apply binary_round_aux_not_nan. lia.
Qed.

Lemma SFcompare_refl x : sf_nan x = false -> SFcompare x x = Some Eq.
Proof.
  destruct x as [s|s| |s m e]; try discriminate; intros _; simpl.
  - reflexivity.
  - destruct s; reflexivity.
  - rewrite Z.compare_refl, Pos.compare_cont_refl. destruct s; reflexivity.
Qed.

Lemma is_nan_spec f : is_nan f = sf_nan (Prim2SF f).
Proof.
  unfold is_nan. rewrite FloatAxioms.eqb_spec. unfold SFeqb.
  destruct (sf_nan (Prim2SF f)) eqn:E.
  - destruct (Prim2SF f); try discriminate. reflexivity.
  - rewrite SFcompare_refl by exact E. reflexivity.
Qed.

Lemma is_finite_spec f : is_finite f = sf_finite (Prim2SF f).
Proof.
  unfold is_finite, is_infinity. rewrite is_nan_spec, FloatAxioms.eqb_spec, abs_spec.
  unfold SFeqb.
  replace (Prim2SF infinity) with (S754_infinity false) by reflexivity.
  destruct (Prim2SF f) as [s|s| |s m e]; reflexivity.
Qed.

Lemma add_not_nan a b :
  is_finite a = true -> is_nan b = false -> is_nan (a + b) = false.
Proof.
  rewrite is_finite_spec, !is_nan_spec, add_spec. apply SFadd_not_nan.
Qed.

Lemma mul_not_nan a b :
  is_finite a = true -> is_finite b = true -> is_nan (a * b) = false.
Proof.
  rewrite !is_finite_spec, is_nan_spec, mul_spec. apply SFmul_not_nan.
Qed.

Lemma ltb_leb a b : (a <? b)%float = true -> (a <=? b)%float = true.
Proof.
  rewrite FloatAxioms.ltb_spec, FloatAxioms.leb_spec. unfold SFltb, SFleb.
  destruct (SFcompare (Prim2SF a) (Prim2SF b)) as [[]|]; congruence.
Qed.

Lemma clip_in_unit v :
  is_nan v = false -> in_unit (clip 0 1 v) = true.
Proof.
  intros Hv. unfold clip, fmax. rewrite Hv.
  destruct (0 <? v)%float eqn:E0.
  - unfold fmin. rewrite Hv.
    destruct (v <? 1)%float eqn:E1.
    + unfold in_unit. rewrite (ltb_leb _ _ E0), (ltb_leb _ _ E1). reflexivity.
    + reflexivity.
  - reflexivity.
Qed.

Lemma clip_saturates v : is_nan v = false -> clip 0 1 v = saturate v.
Proof.
  intros Hv. unfold clip, saturate, fmax. rewrite Hv.
  destruct (0 <? v)%float; [|reflexivity].
  unfold fmin. rewrite Hv. reflexivity.
Qed.

Lemma prepared_in_unit b : in_unit (of_u8 b / 255)%float = true.
Proof. destruct b; vm_compute; reflexivity. Qed.

Lemma prepared_finite b : is_finite (of_u8 b / 255)%float = true.
Proof. destruct b; vm_compute; reflexivity. Qed.
End FloatFacts.

(** ** The NumPy cells *)

Section NumpyFacts.
Import Np.

Lemma extends_refl s : extends s s.
Proof. intros l b H; exact H. Qed.

Lemma extends_trans s1 s2 s3 : extends s1 s2 -> extends s2 s3 -> extends s1 s3.
Proof. intros H12 H23 l b H. apply H23, H12, H. Qed.

Lemma alloc_spec b shp s :
  exists a s',
    alloc b shp s = Ok (a, s') /\ shape a = shp /\
    heap s !! base a = None /\ heap s' !! base a = Some b /\
    extends s s' /\ gauss s' = gauss s.
Proof.
  eexists _, _. split; [reflexivity|]. cbn [base shape heap gauss].
  assert (Hf : heap s !! fresh (dom (heap s)) = None).
  { apply not_elem_of_dom, is_fresh. }
  repeat split; auto.
  - apply lookup_insert_eq.
  - intros l c Hl. cbn [heap]. rewrite lookup_insert_ne; [exact Hl|].
    intros E. rewrite <- E in Hl. congruence.
Qed.

Lemma reshape_spec a newshape shp s :
  infer_shape (size a) newshape = Some shp ->
  reshape a newshape s = Ok ({| base := base a; shape := shp |}, s).
Proof. intros H. unfold reshape. rewrite H. reflexivity. Qed.

Lemma true_divide_spec a c b s :
  heap s !! base a = Some b ->
  exists r s',
    true_divide a c s = Ok (r, s') /\ shape r = shape a /\
    heap s !! base r = None /\
    heap s' !! base r = Some (F64 (map (fun v => v / c)%float (as_f64 b))) /\
    extends s s' /\ gauss s' = gauss s.
Proof.
  intros Hb. unfold true_divide, bind, load. rewrite Hb.
  apply alloc_spec.
Qed.

Lemma add_spec a b x y s :
  heap s !! base a = Some x -> heap s !! base b = Some y ->
  shape a = shape b ->
  exists r s',
    add a b s = Ok (r, s') /\ shape r = shape a /\
    heap s !! base r = None /\
    heap s' !! base r = Some (F64 (zip_with PrimFloat.add (as_f64 x) (as_f64 y))) /\
    extends s s' /\ gauss s' = gauss s.
Proof.
  intros Hx Hy Hs. unfold add, bind, load. rewrite Hx, Hy.
  destruct (decide (shape a = shape b)); [|contradiction].
  apply alloc_spec.
Qed.

Lemma clip_spec a lo hi b s :
  heap s !! base a = Some b ->
  exists r s',
    clip a lo hi s = Ok (r, s') /\ shape r = shape a /\
    heap s !! base r = None /\
    heap s' !! base r = Some (F64 (map (F64.clip lo hi) (as_f64 b))) /\
    extends s s' /\ gauss s' = gauss s.
Proof.
  intros Hb. unfold clip, bind, load. rewrite Hb.
  apply alloc_spec.
Qed.

Lemma random_normal_spec mu sigma sz s :
  exists r s',
    random_normal mu sigma sz s = Ok (r, s') /\ shape r = sz /\
    heap s !! base r = None /\
    heap s' !! base r =
      Some (F64 (map (fun z => mu + sigma * z)%float
                     (map (gauss s) (seq 0 (prod sz))))) /\
    extends s s' /\ gauss s' = (fun i => gauss s (prod sz + i)).
Proof.
  unfold random_normal.
  destruct (alloc_spec
    (F64 (map (fun z => mu + sigma * z)%float (map (gauss s) (seq 0 (prod sz)))))
    sz {| heap := heap s; gauss := fun i => gauss s (prod sz + i) |})
    as (a & s' & E & H1 & H2 & H3 & H4 & H5).
  exists a, s'. repeat split; auto.
Qed.


Lemma holds_extends s s' a b : extends s s' -> holds s a b -> holds s' a b.
Proof. intros H Ha. apply H, Ha. Qed.

Lemma infer_shape_images n :
  infer_shape (prod [n; image_size; image_size])
              [(-1)%Z; Z.of_nat image_size; Z.of_nat image_size; 1%Z]
  = Some [n; image_size; image_size; 1].
Proof.
  unfold infer_shape.
  change (existsb _ _) with false. cbv iota.
  change (length (filter _ _)) with 1.
  change (prod (map Z.to_nat (filter _ _))) with 784.
  change (prod [n; image_size; image_size]) with (n * 784).
  change (784 =? 0) with false. cbv iota.
  rewrite Nat.Div0.mod_mul, Nat.div_mul by discriminate.
  reflexivity.
Qed.

Lemma prepare_run s a bytes n :
  holds s a (U8 bytes) -> shape a = [n; image_size; image_size] ->
  exists r s',
    (r <- reshape a [(-1)%Z; Z.of_nat image_size; Z.of_nat image_size; 1%Z] ;;
     true_divide r 255%float) s = Ok (r, s') /\
    shape r = [n; image_size; image_size; 1] /\
    heap s !! base r = None /\
    holds s' r (F64 (map (fun b => F64.of_u8 b / 255)%float bytes)) /\
    extends s s' /\ gauss s' = gauss s.
Proof.
  intros Ha Hs. unfold bind at 1.
  rewrite (reshape_spec a _ [n; image_size; image_size; 1]).
  2:{ unfold size. rewrite Hs. apply infer_shape_images. }
  destruct (true_divide_spec {| base := base a; shape := [n; image_size; image_size; 1] |}
              255%float (U8 bytes) s Ha) as (r & s' & E & H1 & H2 & H3 & H4 & H5).
  exists r, s'. unfold holds. repeat split; auto.
  rewrite H3. cbn [as_f64]. rewrite List.map_map. reflexivity.
Qed.

Lemma cell_prepare_run s x_train x_test tr te n m :
  holds s x_train (Np.U8 tr) -> Np.shape x_train = [n; image_size; image_size] ->
  holds s x_test (Np.U8 te) -> Np.shape x_test = [m; image_size; image_size] ->
  exists a b s',
    cell_prepare x_train x_test s = Ok ((a, b), s') /\
    Np.shape a = [n; image_size; image_size; 1] /\
    Np.shape b = [m; image_size; image_size; 1] /\
    holds s' a (Np.F64 (map (fun v => F64.of_u8 v / 255)%float tr)) /\
    holds s' b (Np.F64 (map (fun v => F64.of_u8 v / 255)%float te)) /\
    extends s s' /\ Np.gauss s' = Np.gauss s.
Proof.
  intros Htr Hstr Hte Hste.
  destruct (prepare_run s x_train tr n Htr Hstr)
    as (a1 & s1 & E1 & S1 & _ & D1 & X1 & G1).
  destruct (prepare_run s1 x_test te m (holds_extends _ _ _ _ X1 Hte) Hste)
    as (a2 & s2 & E2 & S2 & F2 & D2 & X2 & G2).
  exists a1, a2, s2. split.
  - unfold cell_prepare.
    unfold bind in E1, E2 |- *.
    destruct (Np.reshape x_train _ s) as [[r1 t1]|e1]; [|discriminate].
    rewrite E1.
    destruct (Np.reshape x_test _ s1) as [[r2 t2]|e2]; [|discriminate].
    rewrite E2. reflexivity.
  - repeat apply conj; try assumption.
    + apply (holds_extends _ _ _ _ X2 D1).
    + eauto using extends_trans.
    + congruence.
Qed.

Lemma Forall_prepared bytes :
  Forall (fun v => F64.in_unit v = true)
         (map (fun b => F64.of_u8 b / 255)%float bytes).
Proof. apply Forall_map, Forall_forall. intros b _. apply prepared_in_unit. Qed.

(** C3: for uint8 batches of shape (N,28,28) the preparation cell returns
    float arrays of shape (N,28,28,1) whose elements are the pixels
    divided by 255, each of them in [0,1]. *)
Theorem data_preparation_scales s x_train x_test tr te n m :
  holds s x_train (U8 tr) -> shape x_train = [n; 28; 28] ->
  length tr = size x_train ->
  holds s x_test (U8 te) -> shape x_test = [m; 28; 28] ->
  length te = size x_test ->
  exists x_train' x_test' s',
    cell_prepare x_train x_test s = Ok ((x_train', x_test'), s') /\
    (shape x_train' = [n; 28; 28; 1] /\
     holds s' x_train' (F64 (map (fun b => F64.of_u8 b / 255)%float tr)) /\
     length (map (fun b => F64.of_u8 b / 255)%float tr) = size x_train' /\
     Forall (fun v => F64.in_unit v = true)
            (map (fun b => F64.of_u8 b / 255)%float tr)) /\
    (shape x_test' = [m; 28; 28; 1] /\
     holds s' x_test' (F64 (map (fun b => F64.of_u8 b / 255)%float te)) /\
     length (map (fun b => F64.of_u8 b / 255)%float te) = size x_test' /\
     Forall (fun v => F64.in_unit v = true)
            (map (fun b => F64.of_u8 b / 255)%float te)).
Proof.
  intros Htr Hstr Hltr Hte Hste Hlte.
  destruct (cell_prepare_run s x_train x_test tr te n m Htr Hstr Hte Hste)
    as (a & b & s' & E & Sa & Sb & Da & Db & _).
  exists a, b, s'. split; [exact E|].
  split; (split; [assumption|split; [assumption|split]]);
    try apply Forall_prepared.
  - rewrite length_map, Hltr. unfold size. rewrite Hstr, Sa.
    unfold prod, fold_right, image_size. lia.
  - rewrite length_map, Hlte. unfold size. rewrite Hste, Sb.
    unfold prod, fold_right, image_size. lia.
Qed.

Lemma map_seq_offset {A} (f : nat -> A) k n a :
  map (fun i => f (k + i)) (seq a n) = map f (seq (k + a) n).
Proof.
  revert a. induction n as [|n IH]; intros a; simpl; [reflexivity|].
  f_equal. rewrite IH, Nat.add_succ_r. reflexivity.
Qed.

Lemma cell_noise_run s x_train x_test b1 b2 :
  holds s x_train b1 -> holds s x_test b2 ->
  exists ntr nte s',
    cell_noise x_train x_test s = Ok ((ntr, nte), s') /\
    shape ntr = shape x_train /\ shape nte = shape x_test /\
    extends s s' /\
    heap s !! base ntr = None /\ heap s !! base nte = None /\
    base ntr <> base nte /\
    holds s' ntr (F64 (noisy (as_f64 b1) (draw s 0 (size x_train)))) /\
    holds s' nte (F64 (noisy (as_f64 b2) (draw s (size x_train) (size x_test)))).
Proof.
  intros H1 H2. unfold cell_noise.
  destruct (random_normal_spec 0.5%float 0.5%float (shape x_train) s)
    as (z1 & s1 & E1 & Sz1 & Fz1 & Dz1 & X1 & G1).
  destruct (add_spec x_train z1 b1 _ s1 (X1 _ _ H1) Dz1 (eq_sym Sz1))
    as (a1 & s2 & E2 & Sa1 & Fa1 & Da1 & X2 & G2).
  destruct (random_normal_spec 0.5%float 0.5%float (shape x_test) s2)
    as (z2 & s3 & E3 & Sz2 & Fz2 & Dz2 & X3 & G3).
  destruct (add_spec x_test z2 b2 _ s3 (X3 _ _ (X2 _ _ (X1 _ _ H2))) Dz2 (eq_sym Sz2))
    as (a2 & s4 & E4 & Sa2 & Fa2 & Da2 & X4 & G4).
  destruct (clip_spec a1 0%float 1%float _ s4 (X4 _ _ (X3 _ _ Da1)))
    as (c1 & s5 & E5 & Sc1 & Fc1 & Dc1 & X5 & G5).
  destruct (clip_spec a2 0%float 1%float _ s5 (X5 _ _ Da2))
    as (c2 & s6 & E6 & Sc2 & Fc2 & Dc2 & X6 & G6).
  exists c1, c2, s6.
  assert (X04 : extends s s4).
  { eauto using extends_trans. }
  assert (X05 : extends s s5) by eauto using extends_trans.
  repeat apply conj.
  - unfold bind. rewrite E1, E2, E3, E4, E5, E6. reflexivity.
  - congruence.
  - congruence.
  - eauto using extends_trans.
  - destruct (heap s !! base c1) eqn:E; [|reflexivity].
    apply X04 in E. congruence.
  - destruct (heap s !! base c2) eqn:E; [|reflexivity].
    apply X05 in E. congruence.
  - intros E. rewrite E in Dc1. congruence.
  - unfold holds. apply X6. rewrite Dc1. cbn [as_f64]. unfold noisy, draw.
    reflexivity.
  - unfold holds. rewrite Dc2. cbn [as_f64]. unfold noisy, draw.
    rewrite G2, G1. unfold size.
    do 5 f_equal. rewrite map_seq_offset, Nat.add_0_r. reflexivity.
Qed.
Lemma noisy_length xs zs :
  length zs = length xs -> length (noisy xs zs) = length xs.
Proof.
  intros H. unfold noisy.
  rewrite length_map, length_zip_with, length_map. lia.
Qed.

Lemma noisy_lookup xs zs i x z :
  xs !! i = Some x -> zs !! i = Some z ->
  noisy xs zs !! i = Some (F64.clip 0 1 (x + (0.5 + 0.5 * z)))%float.
Proof.
  intros Hx Hz. unfold noisy.
  rewrite list_lookup_fmap, lookup_zip_with, Hx. cbn.
  rewrite list_lookup_fmap, Hz. reflexivity.
Qed.

Lemma noisy_in_unit xs zs :
  Forall (fun v => is_finite v = true) xs ->
  Forall (fun v => is_finite v = true) zs ->
  Forall (fun v => F64.in_unit v = true) (noisy xs zs).
Proof.
  intros Hxs Hzs. unfold noisy. apply Forall_map.
  revert zs Hzs. induction Hxs as [|x xs Hx Hxs IH]; intros zs Hzs.
  - constructor.
  - destruct Hzs as [|z zs Hz Hzs]; cbn; constructor.
    + apply clip_in_unit, add_not_nan; [exact Hx|].
      apply add_not_nan; [reflexivity|].
      apply mul_not_nan; [reflexivity|exact Hz].
    + apply IH, Hzs.
Qed.

Lemma noisy_saturates xs zs :
  Forall (fun v => is_finite v = true) xs ->
  Forall (fun v => is_finite v = true) zs ->
  noisy xs zs
  = zip_with (fun x z => F64.saturate (x + (0.5 + 0.5 * z)))%float xs zs.
Proof.
  intros Hxs Hzs. unfold noisy.
  revert zs Hzs. induction Hxs as [|x xs Hx Hxs IH]; intros zs Hzs.
  - reflexivity.
  - destruct Hzs as [|z zs Hz Hzs]; cbn; [reflexivity|].
    rewrite clip_saturates, (IH zs Hzs); [reflexivity|].
    apply add_not_nan; [exact Hx|].
    apply add_not_nan; [reflexivity|].
    apply mul_not_nan; [reflexivity|exact Hz].
Qed.

Lemma draw_length s off n : length (draw s off n) = n.
Proof. unfold draw. rewrite length_map, length_seq. reflexivity. Qed.

Lemma draw_finite s off n :
  (forall i, is_finite (gauss s i) = true) ->
  Forall (fun v => is_finite v = true) (draw s off n).
Proof. intros H. apply Forall_map, Forall_forall. intros i _. apply H. Qed.

Lemma draw_lookup s off n i :
  i < n -> draw s off n !! i = Some (gauss s (off + i)).
Proof.
  intros Hi. unfold draw. rewrite list_lookup_fmap, lookup_seq_lt by exact Hi.
  reflexivity.
Qed.

(** C2: for finite clean arrays and every sequence of finite samples the
    noise cell returns without an exception, and its two results have
    the shapes of the clean arrays and all their elements in [0,1]. *)
Theorem noise_injection_clipped s x_train x_test tr te :
  holds s x_train (F64 tr) -> length tr = size x_train ->
  Forall (fun v => is_finite v = true) tr ->
  holds s x_test (F64 te) -> length te = size x_test ->
  Forall (fun v => is_finite v = true) te ->
  (forall i, is_finite (gauss s i) = true) ->
  exists x_train_noisy x_test_noisy s' dtr dte,
    cell_noise x_train x_test s = Ok ((x_train_noisy, x_test_noisy), s') /\
    (shape x_train_noisy = shape x_train /\
     holds s' x_train_noisy (F64 dtr) /\ length dtr = size x_train_noisy /\
     Forall (fun v => F64.in_unit v = true) dtr) /\
    (shape x_test_noisy = shape x_test /\
     holds s' x_test_noisy (F64 dte) /\ length dte = size x_test_noisy /\
     Forall (fun v => F64.in_unit v = true) dte) /\
    dtr = zip_with (fun x z => F64.saturate (x + (0.5 + 0.5 * z)))%float
                   tr (draw s 0 (size x_train)) /\
    dte = zip_with (fun x z => F64.saturate (x + (0.5 + 0.5 * z)))%float
                   te (draw s (size x_train) (size x_test)).
Proof.
  intros Htr Ltr Ftr Hte Lte Fte Hg.
  destruct (cell_noise_run s x_train x_test _ _ Htr Hte)
    as (a & b & s' & E & Sa & Sb & _ & _ & _ & _ & Da & Db).
  cbn [as_f64] in Da, Db.
  exists a, b, s', (noisy tr (draw s 0 (size x_train))),
    (noisy te (draw s (size x_train) (size x_test))).
  split; [exact E|].
  split; [|split; [|split]];
    try (split; [assumption|split; [eassumption|split]]).
  - rewrite noisy_length; rewrite ?draw_length; unfold size in *; congruence.
  - apply noisy_in_unit; [exact Ftr|apply draw_finite, Hg].
  - rewrite noisy_length; rewrite ?draw_length; unfold size in *; congruence.
  - apply noisy_in_unit; [exact Fte|apply draw_finite, Hg].
  - apply noisy_saturates; [exact Ftr|apply draw_finite, Hg].
  - apply noisy_saturates; [exact Fte|apply draw_finite, Hg].
Qed.

(** C10: the noise cell leaves every buffer that existed before it as it
    was, in particular those of [x_train] and [x_test]; the noisy arrays
    are new buffers, and element i of each is computed from element i of
    its clean array. *)
Theorem noise_injection_frame s x_train x_test b1 b2 :
  holds s x_train b1 -> holds s x_test b2 ->
  exists x_train_noisy x_test_noisy s' dtr dte,
    cell_noise x_train x_test s = Ok ((x_train_noisy, x_test_noisy), s') /\
    holds s' x_train b1 /\ holds s' x_test b2 /\
    (forall l b, heap s !! l = Some b -> heap s' !! l = Some b) /\
    heap s !! base x_train_noisy = None /\
    heap s !! base x_test_noisy = None /\
    base x_train_noisy <> base x_test_noisy /\
    holds s' x_train_noisy (F64 dtr) /\ holds s' x_test_noisy (F64 dte) /\
    (forall i x, i < size x_train -> as_f64 b1 !! i = Some x ->
       dtr !! i = Some (F64.clip 0 1 (x + (0.5 + 0.5 * gauss s i)))%float) /\
    (forall i x, i < size x_test -> as_f64 b2 !! i = Some x ->
       dte !! i = Some (F64.clip 0 1
                          (x + (0.5 + 0.5 * gauss s (size x_train + i))))%float).
Proof.
  intros H1 H2.
  destruct (cell_noise_run s x_train x_test _ _ H1 H2)
    as (a & b & s' & E & _ & _ & X & Fa & Fb & Nab & Da & Db).
  exists a, b, s', (noisy (as_f64 b1) (draw s 0 (size x_train))),
    (noisy (as_f64 b2) (draw s (size x_train) (size x_test))).
  split; [exact E|].
  repeat apply conj; try eassumption.
  - apply (holds_extends _ _ _ _ X H1).
  - apply (holds_extends _ _ _ _ X H2).
  - intros i x Hi Hx. erewrite noisy_lookup; [|exact Hx|apply draw_lookup, Hi].
    reflexivity.
  - intros i x Hi Hx. erewrite noisy_lookup; [|exact Hx|apply draw_lookup, Hi].
    reflexivity.
Qed.

Lemma data_preparation_scales_witness :
  exists x_train' x_test' s',
    cell_prepare {| base := 0; shape := [2; 28; 28] |}
                 {| base := 1; shape := [1; 28; 28] |} demo_bytes_state
    = Ok ((x_train', x_test'), s') /\
    shape x_train' = [2; 28; 28; 1] /\ shape x_test' = [1; 28; 28; 1].
Proof.
  destruct (data_preparation_scales demo_bytes_state
              {| base := 0; shape := [2; 28; 28] |}
              {| base := 1; shape := [1; 28; 28] |}
              (repeat "255"%byte 784 ++ repeat "007"%byte 784)
              (repeat "128"%byte 784) 2 1)
    as (a & b & s' & E & (Sa & _) & (Sb & _)); try reflexivity.
  exists a, b, s'. auto.
Defined.

Lemma demo_gauss_finite i : is_finite (demo_gauss i) = true.
Proof. unfold demo_gauss. destruct (Nat.even i); reflexivity. Qed.

Lemma noise_injection_clipped_witness :
  exists x_train_noisy x_test_noisy s' dtr dte,
    cell_noise {| base := 0; shape := [2; 2] |} {| base := 1; shape := [2] |}
               demo_floats_state
    = Ok ((x_train_noisy, x_test_noisy), s') /\
    holds s' x_train_noisy (F64 dtr) /\ holds s' x_test_noisy (F64 dte) /\
    Forall (fun v => F64.in_unit v = true) (dtr ++ dte).
Proof.
  destruct (noise_injection_clipped demo_floats_state
              {| base := 0; shape := [2; 2] |} {| base := 1; shape := [2] |}
              [0; 0.25; 1; 0.5]%float [1; 0]%float)
    as (a & b & s' & dtr & dte & E & (_ & Da & _ & Ua) & (_ & Db & _ & Ub) & _);
    try reflexivity; try (repeat constructor); try apply demo_gauss_finite.
  exists a, b, s', dtr, dte. repeat split; auto.
  apply Forall_app; auto.
Defined.

Lemma noise_injection_frame_witness :
  exists x_train_noisy x_test_noisy s',
    cell_noise {| base := 0; shape := [2; 2] |} {| base := 1; shape := [2] |}
               demo_floats_state
    = Ok ((x_train_noisy, x_test_noisy), s') /\
    holds s' {| base := 0; shape := [2; 2] |} (F64 [0; 0.25; 1; 0.5]%float) /\
    holds s' {| base := 1; shape := [2] |} (F64 [1; 0]%float).
Proof.
  destruct (noise_injection_frame demo_floats_state
              {| base := 0; shape := [2; 2] |} {| base := 1; shape := [2] |}
              (F64 [0; 0.25; 1; 0.5]%float) (F64 [1; 0]%float))
    as (a & b & s' & dtr & dte & E & H1 & H2 & _); try reflexivity.
  exists a, b, s'. auto.
Defined.

End NumpyFacts.

(** ** Layers: shape inference and the forward pass *)

Section LayerFacts.
Import K.

Lemma sigmoid_range x : (0 < sigmoid x < 1)%R.
Proof.
  unfold sigmoid. pose proof (exp_pos (- x)) as He.
  split.
  - apply Rinv_0_lt_compat. lra.
  - rewrite <- Rinv_1 at 2. apply Rinv_lt_contravar; lra.
Qed.

Lemma length_flat_map_const {A B} (f : A -> list B) (l : list A) n :
  (forall a, length (f a) = n) -> length (flat_map f l) = length l * n.
Proof.
  intros H. induction l as [|a l IH]; simpl; [reflexivity|].
  rewrite length_app, H, IH. reflexivity.
Qed.

Lemma tabulate3_length h w c f : length (tabulate3 h w c f) = h * w * c.
Proof.
  unfold tabulate3.
  rewrite (length_flat_map_const _ _ (w * c)), length_seq; [lia|].
  intros i. rewrite (length_flat_map_const _ _ c), length_seq; [reflexivity|].
  intros j. rewrite length_map, length_seq. reflexivity.
Qed.

Lemma conv_output_length_same n k stride :
  0 < stride ->
  let r := conv_output_length n k Same stride in
  (Z.of_nat stride * (r - 1) < Z.of_nat n <= Z.of_nat stride * r)%Z.
Proof.
  intros Hs r. subst r. unfold conv_output_length.
  set (s := Z.of_nat stride). set (m := Z.of_nat n).
  assert (0 < s)%Z by (subst s; lia).
  pose proof (Z.div_mod (m + s - 1) s ltac:(lia)) as Hd.
  pose proof (Z.mod_pos_bound (m + s - 1) s ltac:(lia)) as Hm.
  nia.
Qed.

Scheme layer_mut := Induction for layer Sort Prop
  with model_mut := Induction for model Sort Prop
  with ktensor_mut := Induction for ktensor Sort Prop.

Combined Scheme graph_mutind from layer_mut, model_mut, ktensor_mut.

Lemma positive_dim_eq z n : positive_dim z = Some n -> n = Z.to_nat z.
Proof. unfold positive_dim. destruct (0 <? z)%Z; congruence. Qed.

(** Static shape inference is sound for the forward pass. *)
Lemma shape_inference_sound :
  (forall l, layer_well_shaped l = true ->
     forall W v s, compute_output_shape l (tshape v) = Some s ->
       tshape (eval_layer W l v) = s) /\
  (forall m, model_well_shaped m = true ->
     forall W v, tshape v = model_input_shape m ->
       tshape (eval_model W m v) = model_output_shape m) /\
  (forall t ishape, well_shaped ishape t = true ->
     forall W v, tshape v = ishape ->
       tshape (eval_tensor W v t) = static_shape t).
Proof.
  apply graph_mutind.
  - intros uid name f k st act pad _ W v s H. cbn in H |- *.
    destruct (tshape v) as [|h [|w [|c [|]]]] eqn:E; try discriminate.
    unfold axis. rewrite E. cbn [nth].
    destruct (positive_dim (conv_output_length h k pad st)) eqn:E1;
      [|discriminate].
    destruct (positive_dim (conv_output_length w k pad st)) eqn:E2;
      [|discriminate].
    apply positive_dim_eq in E1, E2. congruence.
  - intros uid name f k st act pad _ W v s H. cbn in H |- *.
    destruct (tshape v) as [|h [|w [|c [|]]]] eqn:E; try discriminate.
    unfold axis. rewrite E. cbn [nth]. congruence.
  - intros uid name _ W v s H. cbn in H |- *. congruence.
  - intros uid name units act _ W v s H. cbn in H |- *.
    destruct (tshape v) as [|[|n] [|]]; congruence.
  - intros uid name target _ W v s H. cbn in H |- *.
    destruct (Np.prod target =? Np.prod (tshape v)); congruence.
  - intros uid name act _ W v s H. cbn in H |- *. congruence.
  - intros m IH Hm W v s H. cbn in H |- *.
    destruct (decide (tshape v = model_input_shape m)) as [E|]; [|discriminate].
    rewrite (IH Hm W v E). congruence.
  - intros uid name iuid ishape out IH Hm W v Hv. cbn in *.
    apply (IH ishape Hm W v Hv).
  - intros uid name shape ishape H W v Hv. cbn in *.
    apply bool_decide_eq_true in H. congruence.
  - intros l IHl x IHx shape ishape H W v Hv. cbn in H |- *.
    apply andb_true_iff in H as [H Hl]. apply andb_true_iff in H as [Hx Hs].
    apply bool_decide_eq_true in Hs.
    apply (IHl Hl). rewrite (IHx ishape Hx W v Hv). exact Hs.
Qed.

Lemma eval_model_shape m W v :
  model_well_shaped m = true -> tshape v = model_input_shape m ->
  tshape (eval_model W m v) = model_output_shape m.
Proof. intros Hm Hv. apply shape_inference_sound; assumption. Qed.

(** The forward pass reads no variables but those of the model. *)
Lemma eval_reads_model_weights :
  (forall l W W', (forall u, In u (layer_weights l) -> W u = W' u) ->
     forall v, eval_layer W l v = eval_layer W' l v) /\
  (forall m W W', (forall u, In u (model_weights m) -> W u = W' u) ->
     forall v, eval_model W m v = eval_model W' m v) /\
  (forall t W W', (forall u, In u (tensor_weights t) -> W u = W' u) ->
     forall v, eval_tensor W v t = eval_tensor W' v t).
Proof.
  apply graph_mutind; cbn [eval_layer eval_model eval_tensor layer_weights
                           model_weights tensor_weights].
  - intros uid name f k st act pad W W' H v. rewrite (H uid); [reflexivity|].
    left; reflexivity.
  - intros uid name f k st act pad W W' H v. rewrite (H uid); [reflexivity|].
    left; reflexivity.
  - reflexivity.
  - intros uid name units act W W' H v. rewrite (H uid); [reflexivity|].
    left; reflexivity.
  - reflexivity.
  - reflexivity.
  - intros m IH W W' H v. apply IH, H.
  - intros uid name iuid ishape out IH W W' H v. apply IH, H.
  - reflexivity.
  - intros l IHl x IHx shape W W' H v.
    rewrite (IHx W W') by (intros u Hu; apply H, in_or_app; left; exact Hu).
    apply IHl. intros u Hu; apply H, in_or_app; right; exact Hu.
Qed.

End LayerFacts.

(** ** Batches: slicing, stacking and [predict] *)

Section Batches.
Import K.

Lemma take_app_drop {A} (l : list A) a b :
  take a l ++ take b (drop a l) = take (a + b) l.
Proof.
  revert l. induction a as [|a IH]; intros l; [reflexivity|].
  destruct l as [|x l]; cbn.
  - rewrite take_nil. reflexivity.
  - f_equal. apply IH.
Qed.

Lemma concat_slices_prefix {A} (l : list A) bs k :
  concat (map (fun i => slice l (i * bs, Nat.min (length l) ((i + 1) * bs)))
              (seq 0 k))
  = take (k * bs) l.
Proof.
  induction k as [|k IH]; [reflexivity|].
  rewrite seq_S, map_app, concat_app, IH. cbn [map concat Nat.add].
  rewrite app_nil_r. unfold slice. cbn [fst snd].
  rewrite take_app_drop.
  destruct (Nat.le_gt_cases ((k + 1) * bs) (length l)) as [Hle|Hgt].
  - f_equal. lia.
  - rewrite !take_ge; [reflexivity| |]; lia.
Qed.

Lemma ceil_div_covers n bs : 0 < bs -> n <= (n + bs - 1) / bs * bs.
Proof.
  intros Hbs.
  pose proof (Nat.div_mod_eq (n + bs - 1) bs) as Hd.
  pose proof (Nat.mod_upper_bound (n + bs - 1) bs ltac:(lia)) as Hm.
  nia.
Qed.

Lemma concat_batches {A} (l : list A) bs :
  0 < bs -> concat (map (slice l) (make_batches (length l) bs)) = l.
Proof.
  intros Hbs. unfold make_batches. rewrite List.map_map.
  rewrite concat_slices_prefix. apply take_ge, ceil_div_covers, Hbs.
Qed.

Lemma flat_map_batches {A B} (g : A -> B) (l : list A) bs :
  0 < bs ->
  flat_map (fun b => map g (slice l b)) (make_batches (length l) bs) = map g l.
Proof.
  intros Hbs. rewrite flat_map_concat_map.
  rewrite <- (List.map_map (slice l) (map g)).
  rewrite <- concat_map. rewrite concat_batches by exact Hbs. reflexivity.
Qed.

Lemma slice_length_le {A} (l : list A) bs b :
  In b (make_batches (length l) bs) -> length (slice l b) <= bs.
Proof.
  unfold make_batches. rewrite in_map_iff. intros (i & <- & _).
  unfold slice. cbn [fst snd]. rewrite length_take. lia.
Qed.

Lemma unstack_length x : length (unstack x) = hd 0 (tshape x).
Proof. unfold unstack. rewrite length_map, length_seq. reflexivity. Qed.

Lemma unstack_shape x v : In v (unstack x) -> tshape v = tl (tshape x).
Proof. unfold unstack. rewrite in_map_iff. intros (i & <- & _). reflexivity. Qed.

Lemma stack_length s l n :
  Forall (fun t => length (tdata t) = n) l ->
  length (tdata (stack s l)) = length l * n.
Proof.
  intros H. cbn [stack tdata]. induction H as [|t l Ht _ IH]; [reflexivity|].
  cbn [flat_map length]. rewrite length_app, Ht, IH. reflexivity.
Qed.

Lemma unstack_stack s l :
  Forall (fun t => tshape t = s /\ length (tdata t) = Np.prod s) l ->
  unstack (stack s l) = l.
Proof.
  unfold unstack, stack. cbn [tshape tdata hd tl].
  induction 1 as [|t l [Hs Hl] _ IH]; [reflexivity|].
  cbn [length seq map flat_map]. f_equal.
  - change (0 * Np.prod s) with 0. rewrite drop_0.
    rewrite take_app_length' by (symmetry; exact Hl).
    destruct t; cbn in *; congruence.
  - rewrite <- seq_shift, List.map_map. rewrite <- IH at 2.
    apply map_ext. intros i. f_equal. f_equal.
    replace (S i * Np.prod s) with (length (tdata t) + i * Np.prod s) by lia.
    rewrite drop_app_add'; reflexivity.
Qed.

Lemma make_batches_nonempty n bs :
  0 < n -> 0 < bs -> make_batches n bs <> [].
Proof.
  intros Hn Hbs H. apply (f_equal (@length _)) in H.
  unfold make_batches in H. rewrite length_map, length_seq in H.
  cbn [length] in H.
  pose proof (Nat.div_mod_eq (n + bs - 1) bs) as Hd.
  pose proof (Nat.mod_upper_bound (n + bs - 1) bs ltac:(lia)) as Hm.
  nia.
Qed.

Lemma predict_loop_spec (g : tensor -> tensor) s l :
  l <> [] -> predict_loop (map g) s l = [stack s (map g l)].
Proof.
  intros Hl. unfold predict_loop.
  destruct (make_batches (length l) 32) as [|b bs] eqn:E.
  - exfalso. apply (make_batches_nonempty (length l) 32); [|lia|exact E].
    destruct l; [contradiction|cbn; lia].
  - rewrite <- E, flat_map_batches by lia. reflexivity.
Qed.

Lemma predict_spec m x st n :
  0 < n -> tshape x = n :: model_input_shape m ->
  predict m x st
  = Ok (Single (stack (model_output_shape m)
                      (map (eval_model (vars st) m) (unstack x))),
        st).
Proof.
  intros Hn Hx. unfold predict. rewrite Hx.
  destruct (decide (model_input_shape m = model_input_shape m)); [|contradiction].
  unfold bind, get, ret. rewrite predict_loop_spec; [reflexivity|].
  intros E. apply (f_equal (@length _)) in E.
  rewrite unstack_length, Hx in E. cbn in E. lia.
Qed.

(** Without a sample there is no batch and no array to return: the
    result is the empty list of outputs. *)
Lemma predict_empty m x st :
  tshape x = 0 :: model_input_shape m ->
  predict m x st = Ok (Several [], st).
Proof.
  intros Hx. unfold predict. rewrite Hx.
  destruct (decide (model_input_shape m = model_input_shape m)); [|contradiction].
  unfold bind, get, ret, predict_loop.
  rewrite unstack_length, Hx. reflexivity.
Qed.

End Batches.

(** Runs the cells that build the graphs, for any value of the counter. *)
Ltac run_cells :=
  cbv -[Nat.eqb]; rewrite ?Nat.eqb_refl; cbv -[Nat.eqb]; reflexivity.

(** ** The encoder, the decoder and the autoencoder *)

Section Models.
Import K.


Lemma forward_shapes_static W m v :
  model_well_shaped m = true -> tshape v = model_input_shape m ->
  forward_shapes W m v = map static_shape (chain (model_output m)).
Proof.
  destruct m as [uid name iuid ishape out]. cbn [model_well_shaped
    model_input_shape model_output forward_shapes].
  intros Hw Hv. apply map_ext_in. intros t Ht.
  apply (proj2 (proj2 shape_inference_sound) t ishape); [|exact Hv].
  clear Hv. revert Ht Hw. induction out as [u n s|l x IH s]; cbn [chain well_shaped].
  - intros [<-|[]] H. exact H.
  - intros Ht H. apply andb_true_iff in H as [H Hl].
    apply andb_true_iff in H as [Hx Hs].
    apply in_app_or in Ht as [Ht|[<-|[]]].
    + apply IH; assumption.
    + cbn [well_shaped]. rewrite Hx, Hs, Hl. reflexivity.
Qed.

(** C6: with same padding a stride-2 stage maps a side n to ceil(n/2):
    the encoder takes 28 to 14 to 7, with 32 then 64 channels, so the
    shape captured before flattening is (None, 7, 7, 64); the decoder
    starts with a dense layer of 7*7*64 = 3136 units and a reshape to
    (7, 7, 64).  The forward pass computes values of these shapes. *)
Theorem shape_propagation s :
  exists inputs shape encoder s1 decoder s2,
    cell_encoder s = Ok ((inputs, shape, encoder), s1) /\
    cell_decoder shape s1 = Ok (decoder, s2) /\
    shape = [None; Some 7; Some 7; Some 64] /\
    summary encoder =
      [RInput [28; 28; 1];
       RConv2D 32 3 2 ReLU Same [14; 14; 32];
       RConv2D 64 3 2 ReLU Same [7; 7; 64];
       RFlatten [7 * 7 * 64];
       RDense 16 Linear [16]] /\
    take 3 (summary decoder) =
      [RInput [16]; RDense (7 * 7 * 64) Linear [7 * 7 * 64]; RReshape [7; 7; 64]] /\
    7 * 7 * 64 = 3136 /\
    (forall W x, tshape x = [28; 28; 1] ->
       forward_shapes W encoder x =
         [[28; 28; 1]; [14; 14; 32]; [7; 7; 64]; [3136]; [16]]) /\
    (forall W z, tshape z = [16] ->
       take 3 (forward_shapes W decoder z) = [[16]; [3136]; [7; 7; 64]]) /\
    (forall n k stride, 0 < stride ->
       let r := conv_output_length n k Same stride in
       (Z.of_nat stride * (r - 1) < Z.of_nat n <= Z.of_nat stride * r)%Z).
Proof.
  destruct s as [u W0 it m v].
  eexists _, _, _, _, _, _. split; [run_cells|]. split; [run_cells|].
  repeat apply conj; try reflexivity.
  - intros W x Hx. rewrite forward_shapes_static; [reflexivity|reflexivity|exact Hx].
  - intros W z Hz. rewrite forward_shapes_static; [reflexivity|reflexivity|exact Hz].
  - apply conv_output_length_same.
Qed.

Lemma dense_length units act p x : length (tdata (dense units act p x)) = units.
Proof. cbn [dense tdata]. rewrite length_map, length_seq. reflexivity. Qed.

Lemma conv2d_transpose_length f k st pad act p x :
  length (tdata (conv2d_transpose f k st pad act p x))
  = deconv_length (axis x 0) st k pad * deconv_length (axis x 1) st k pad * f.
Proof. cbn [conv2d_transpose tdata]. apply tabulate3_length. Qed.

Lemma activate_unit_interval x :
  Forall unit_interval (tdata (activate Sigmoid x)).
Proof.
  cbn [activate tdata]. apply Forall_map, Forall_forall. intros v _.
  cbn [apply_activation]. pose proof (sigmoid_range v). unfold unit_interval. lra.
Qed.

(** C4: on every image of shape (28,28,1) the encoder returns a vector
    of latent_dim = 16 elements, computed by a dense layer without
    activation: an affine function of the flattened features; on a batch
    of n > 0 images [predict] returns one array of shape (n, 16). *)
Theorem encoder_latent_vector s :
  exists encoder decoder autoencoder s',
    build_models s = Ok ((encoder, decoder, autoencoder), s') /\
    (exists uid features,
       model_output encoder
       = Apply (LDense uid (Some "latent_vector"%string) latent_dim Linear)
               features [latent_dim]) /\
    (forall W x, tshape x = input_shape ->
       tshape (eval_model W encoder x) = [latent_dim] /\
       length (tdata (eval_model W encoder x)) = latent_dim /\
       exists p features,
         tdata (eval_model W encoder x)
         = map (fun o =>
                  (nth o (bias p) 0
                   + rsum (axis features 0) (fun i =>
                       nth i (tdata features) 0
                       * nth (i * latent_dim + o) (kernel p) 0))%R)
               (seq 0 latent_dim)) /\
    (forall st x n, 0 < n -> tshape x = n :: input_shape ->
       exists z, predict encoder x st = Ok (Single z, st) /\
                 tshape z = [n; latent_dim] /\
                 length (tdata z) = n * latent_dim).
Proof.
  destruct s as [u W0 it m v].
  eexists _, _, _, _. split; [run_cells|].
  split; [eexists _, _; reflexivity|]. split.
  - intros W x Hx. cbn [eval_model eval_tensor eval_layer].
    split; [reflexivity|]. split; [apply dense_length|].
    eexists _, _. reflexivity.
  - intros st x n Hn Hx. eexists.
    split; [apply (predict_spec _ _ _ n Hn), Hx|].
    split.
    + cbn [stack tshape]. rewrite length_map, unstack_length, Hx. reflexivity.
    + rewrite (stack_length _ _ latent_dim).
      * rewrite length_map, unstack_length, Hx. reflexivity.
      * apply Forall_map, Forall_forall. intros t _. apply dense_length.
Qed.

(** C5: on every latent vector of 16 elements the decoder returns a
    tensor of shape (28,28,1); its last two layers are a transposed
    convolution with 1 filter, kernel 3, stride 1 and same padding, and
    a sigmoid, so every output element is in [0,1]; encoding then
    decoding keeps the shape of the image. *)
Theorem decoder_output_image s :
  exists encoder decoder autoencoder s',
    build_models s = Ok ((encoder, decoder, autoencoder), s') /\
    summary decoder =
      [RInput [16];
       RDense 3136 Linear [3136];
       RReshape [7; 7; 64];
       RConv2DTranspose 64 3 2 ReLU Same [14; 14; 64];
       RConv2DTranspose 32 3 2 ReLU Same [28; 28; 32];
       RConv2DTranspose 1 3 1 Linear Same [28; 28; 1];
       RActivation Sigmoid [28; 28; 1]] /\
    (forall W z, tshape z = [latent_dim] ->
       tshape (eval_model W decoder z) = [28; 28; 1] /\
       length (tdata (eval_model W decoder z)) = 28 * 28 * 1 /\
       Forall unit_interval (tdata (eval_model W decoder z))) /\
    (forall W x, tshape x = input_shape ->
       tshape (eval_model W decoder (eval_model W encoder x)) = tshape x).
Proof.
  destruct s as [u W0 it m v].
  eexists _, _, _, _. split; [run_cells|].
  split; [reflexivity|].
  split.
  - intros W z Hz. cbn [eval_model eval_tensor eval_layer].
    split; [reflexivity|]. split.
    + cbn [activate tdata]. rewrite length_map, conv2d_transpose_length.
      reflexivity.
    + apply activate_unit_interval.
  - intros W x Hx. rewrite Hx. reflexivity.
Qed.

Lemma cell_predict_spec m a data n ss :
  0 < n ->
  holds (np ss) a (Np.F64 data) ->
  Np.shape a = n :: model_input_shape m ->
  cell_predict m a ss
  = Ok (Single (stack (model_output_shape m)
                      (map (eval_model (vars (keras ss)) m) (samples_of a data))),
        ss).
Proof.
  intros Hn Ha Hs. destruct ss as [n0 k0]. cbn [np keras] in *.
  unfold cell_predict, as_tensor, bind, in_np, in_keras, Np.load, ret.
  cbn [np keras]. unfold holds in Ha. rewrite Ha. cbn [Np.as_f64].
  rewrite (predict_spec m _ k0 n Hn) by exact Hs. reflexivity.
Qed.

(** C1: the autoencoder is the decoder called on the encoder called on
    the input: its forward pass is their composition for every store of
    variables, its variables are those of the two sub-models (the same
    layer objects, each counted once), and the sub-models read no other
    variables.  A training step of the autoencoder changes no variable
    but these, and the encoder on its own computes with the variables
    the session holds at the time of the call.  On a batch of n > 0
    images [predict] of the autoencoder returns what [predict] of the
    decoder returns on the result of [predict] of the encoder. *)
Theorem autoencoder_composition s :
  exists encoder decoder autoencoder s',
    build_models s = Ok ((encoder, decoder, autoencoder), s') /\
    (exists inputs,
       model_output autoencoder
       = Apply (LNetwork decoder)
               (Apply (LNetwork encoder) inputs [latent_dim]) input_shape) /\
    (forall W x,
       eval_model W autoencoder x
       = eval_model W decoder (eval_model W encoder x)) /\
    model_weights autoencoder
    = model_weights encoder ++ model_weights decoder /\
    List.NoDup (model_weights autoencoder) /\
    (forall W W',
       (forall u, In u (model_weights autoencoder) -> W u = W' u) ->
       forall v, eval_model W encoder v = eval_model W' encoder v /\
                 eval_model W decoder v = eval_model W' decoder v) /\
    (forall st x n, 0 < n -> tshape x = n :: input_shape ->
       exists y z,
         predict autoencoder x st = Ok (Single y, st) /\
         predict encoder x st = Ok (Single z, st) /\
         predict decoder z st = Ok (Single y, st)) /\
    (forall grad cm xs ys st u,
       cm_model cm = autoencoder ->
       ~ In u (model_weights encoder ++ model_weights decoder) ->
       vars (snd (train_on_batch grad cm xs ys st)) u = vars st u) /\
    (forall st x n, 0 < n -> tshape x = n :: input_shape ->
       predict encoder x st
       = Ok (Single (stack [latent_dim]
                           (map (eval_model (vars st) encoder) (unstack x))),
             st)).
Proof.
  destruct s as [u W0 it m v].
  eexists _, _, _, _. split; [run_cells|].
  split; [eexists; reflexivity|].
  split; [reflexivity|]. split; [reflexivity|]. split.
  { cbn. repeat (constructor; [cbn [In]; lia|]). constructor. }
  split.
  - intros W W' H x. split; apply (proj1 (proj2 eval_reads_model_weights));
      intros a Ha; apply H; cbn in Ha |- *; tauto.
  - split; [|split].
    + intros st x n Hn Hx. eexists _, _.
      split; [apply (predict_spec _ _ _ n Hn), Hx|].
      split; [apply (predict_spec _ _ _ n Hn), Hx|].
      rewrite (predict_spec _ _ _ n Hn).
      2:{ cbn [stack tshape]. rewrite length_map, unstack_length, Hx.
          reflexivity. }
      rewrite unstack_stack.
      * rewrite List.map_map. reflexivity.
      * apply Forall_map, Forall_forall. intros t _. split; [reflexivity|].
        cbn [eval_model eval_tensor eval_layer model_output_shape model_output
             static_shape]. apply dense_length.
    + intros grad cm xs ys st a Hcm Ha.
      cbn [train_on_batch snd adam_update vars].
      rewrite bool_decide_eq_false_2; [reflexivity|].
      rewrite Hcm, list_elem_of_In. exact Ha.
    + intros st x n Hn Hx. rewrite (predict_spec _ _ _ n Hn) by exact Hx.
      reflexivity.
Qed.

(** C8: predicting on a noisy test array of n > 0 images returns one
    array of the same shape, with values in [0,1], and leaves the
    session as it was; a second call returns the same array.  The array
    depends on nothing but the variables of the autoencoder's layers and
    the contents of the input: a call in any other session, whatever its
    other variables, its optimizer state, its generator and its other
    buffers, on any array of the same shape and contents returns the
    same array. *)
Theorem inference_pure s :
  exists encoder decoder autoencoder s',
    build_models s = Ok ((encoder, decoder, autoencoder), s') /\
    forall (ss : session) (x_test_noisy : Np.ndarray) data n,
      0 < n ->
      holds (np ss) x_test_noisy (Np.F64 data) ->
      Np.shape x_test_noisy = n :: input_shape ->
      exists x_decoded,
        cell_predict autoencoder x_test_noisy ss = Ok (Single x_decoded, ss) /\
        tshape x_decoded = Np.shape x_test_noisy /\
        length (tdata x_decoded) = n * (28 * 28 * 1) /\
        Forall unit_interval (tdata x_decoded) /\
        (a <- cell_predict autoencoder x_test_noisy ;;
         b <- cell_predict autoencoder x_test_noisy ;;
         ret (a, b)) ss = Ok ((Single x_decoded, Single x_decoded), ss) /\
        (forall ss' x',
           holds (np ss') x' (Np.F64 data) ->
           Np.shape x' = Np.shape x_test_noisy ->
           (forall u, In u (model_weights autoencoder) ->
                      vars (keras ss') u = vars (keras ss) u) ->
           cell_predict autoencoder x' ss' = Ok (Single x_decoded, ss')).
Proof.
  destruct s as [u W0 it m v].
  eexists _, _, _, _. split; [run_cells|].
  intros ss a data n Hn Ha Hs.
  eexists.
  split; [apply (cell_predict_spec _ _ data n _ Hn); [exact Ha|exact Hs]|].
  assert (Hl : length (samples_of a data) = n).
  { unfold samples_of. rewrite unstack_length. cbn [tshape]. rewrite Hs.
    reflexivity. }
  repeat apply conj.
  - cbn [stack tshape]. rewrite length_map, Hl, Hs. reflexivity.
  - rewrite (stack_length _ _ (28 * 28 * 1)).
    + rewrite length_map, Hl. reflexivity.
    + apply Forall_map, Forall_forall. intros t _.
      cbn [eval_model eval_tensor eval_layer activate tdata].
      rewrite length_map, conv2d_transpose_length. reflexivity.
  - cbn [stack tdata]. apply Forall_flat_map, Forall_map, Forall_forall.
    intros t _. apply activate_unit_interval.
  - unfold bind. rewrite !(cell_predict_spec _ _ data n _ Hn) by assumption.
    reflexivity.
  - intros ss' a' Ha' Hs' Hv.
    rewrite (cell_predict_spec _ _ data n _ Hn);
      [|exact Ha'|rewrite Hs', Hs; reflexivity].
    unfold samples_of. rewrite Hs'. do 4 f_equal.
    apply map_ext. intros t.
    apply (proj1 (proj2 eval_reads_model_weights)). exact Hv.
Qed.

End Models.

Lemma shape_propagation_witness :
  exists inputs shape encoder s1,
    cell_encoder fresh_keras = Ok ((inputs, shape, encoder), s1) /\
    shape = [None; Some 7; Some 7; Some 64] /\
    K.forward_shapes (K.vars fresh_keras) encoder zero_image
    = [[28; 28; 1]; [14; 14; 32]; [7; 7; 64]; [3136]; [16]].
Proof.
  destruct (shape_propagation fresh_keras)
    as (i & sh & e & s1 & d & s2 & He & _ & Hs & _ & _ & _ & H & _).
  exists i, sh, e, s1. split; [exact He|]. split; [exact Hs|].
  apply (H (K.vars fresh_keras) zero_image eq_refl).
Defined.

Lemma encoder_latent_vector_witness :
  exists encoder decoder autoencoder s',
    build_models fresh_keras = Ok ((encoder, decoder, autoencoder), s') /\
    K.tshape (K.eval_model (K.vars fresh_keras) encoder zero_image) = [16] /\
    length (K.tdata (K.eval_model (K.vars fresh_keras) encoder zero_image)) = 16.
Proof.
  destruct (encoder_latent_vector fresh_keras)
    as (e & d & a & s' & Hb & _ & H & _).
  exists e, d, a, s'. split; [exact Hb|].
  destruct (H (K.vars fresh_keras) zero_image eq_refl) as (H1 & H2 & _).
  split; assumption.
Defined.

Lemma decoder_output_image_witness :
  exists encoder decoder autoencoder s',
    build_models fresh_keras = Ok ((encoder, decoder, autoencoder), s') /\
    K.tshape (K.eval_model (K.vars fresh_keras) decoder zero_latent)
    = [28; 28; 1] /\
    Forall unit_interval
           (K.tdata (K.eval_model (K.vars fresh_keras) decoder zero_latent)).
Proof.
  destruct (decoder_output_image fresh_keras)
    as (e & d & a & s' & Hb & _ & H & _).
  exists e, d, a, s'. split; [exact Hb|].
  destruct (H (K.vars fresh_keras) zero_latent eq_refl) as (H1 & _ & H3).
  split; assumption.
Defined.

Lemma autoencoder_composition_witness :
  exists encoder decoder autoencoder s',
    build_models fresh_keras = Ok ((encoder, decoder, autoencoder), s') /\
    K.eval_model (K.vars fresh_keras) autoencoder zero_image
    = K.eval_model (K.vars fresh_keras) decoder
        (K.eval_model (K.vars fresh_keras) encoder zero_image).
Proof.
  destruct (autoencoder_composition fresh_keras)
    as (e & d & a & s' & Hb & _ & H & _).
  exists e, d, a, s'. split; [exact Hb|]. apply H.
Defined.

Lemma inference_pure_witness :
  exists encoder decoder autoencoder s',
    build_models fresh_keras = Ok ((encoder, decoder, autoencoder), s') /\
    exists x_decoded,
      cell_predict autoencoder demo_noisy demo_images_session
      = Ok (K.Single x_decoded, demo_images_session) /\
      K.tshape x_decoded = [1; 28; 28; 1].
Proof.
  destruct (inference_pure fresh_keras) as (e & d & a & s' & Hb & H).
  exists e, d, a, s'. split; [exact Hb|].
  destruct (H demo_images_session demo_noisy (repeat 1%float 784) 1
              (Nat.lt_0_succ 0) eq_refl eq_refl) as (y & Hy & Hs & _).
  exists y. split; assumption.
Defined.

(** ** Training: the library's loop makes the calls of the schedule *)

Section FitFacts.
Import K.
Context {S : Type}.
Variable f val_f : list tensor -> list tensor -> S -> R * S.
Variable shuffle : nat -> nat -> list nat.

Lemma replay_app calls1 calls2 (s : S) :
  replay f val_f (calls1 ++ calls2) s
  = replay f val_f calls2 (replay f val_f calls1 s).
Proof. unfold replay. apply fold_left_app. Qed.

Lemma batch_loop_train xs ys batches (s : S) :
  snd (batch_loop f xs ys batches s)
  = replay f val_f
      (map (fun ids => TrainCall (gather xs ids) (gather ys ids)) batches) s.
Proof.
  revert s. induction batches as [|ids rest IH]; intros s; [reflexivity|].
  cbn [batch_loop map]. unfold replay. cbn [fold_left].
  destruct (f (gather xs ids) (gather ys ids) s) as [l s1]. cbn [snd].
  specialize (IH s1). destruct (batch_loop f xs ys rest s1) as [ls s2].
  exact IH.
Qed.

Lemma batch_loop_test xs ys batches (s : S) :
  snd (batch_loop val_f xs ys batches s)
  = replay f val_f
      (map (fun ids => TestCall (gather xs ids) (gather ys ids)) batches) s.
Proof.
  revert s. induction batches as [|ids rest IH]; intros s; [reflexivity|].
  cbn [batch_loop map]. unfold replay. cbn [fold_left].
  destruct (val_f (gather xs ids) (gather ys ids) s) as [l s1]. cbn [snd].
  specialize (IH s1). destruct (batch_loop val_f xs ys rest s1) as [ls s2].
  exact IH.
Qed.

Lemma fit_epoch_replay x y validation bs e (s : S) :
  snd (fit_epoch f val_f shuffle x y validation bs e s)
  = replay f val_f (epoch_calls shuffle x y validation bs e) s.
Proof.
  unfold fit_epoch, epoch_calls. rewrite replay_app, <- batch_loop_train.
  destruct (batch_loop f x y _ s) as [ls s1]. cbn [snd].
  destruct validation as [[vx vy]|]; [|reflexivity].
  rewrite <- batch_loop_test.
  destruct (batch_loop val_f vx vy _ s1) as [vs s2]. reflexivity.
Qed.

Lemma batch_loop_length (g : list tensor -> list tensor -> S -> R * S)
    xs ys batches (s : S) :
  length (fst (batch_loop g xs ys batches s)) = length batches.
Proof.
  revert s. induction batches as [|ids rest IH]; intros s; [reflexivity|].
  cbn [batch_loop]. destruct (g (gather xs ids) (gather ys ids) s) as [l s1].
  specialize (IH s1). destruct (batch_loop g xs ys rest s1) as [ls s2].
  cbn [fst length] in *. rewrite IH. reflexivity.
Qed.

Lemma index_batches_nil index_array bs :
  0 < bs -> index_batches index_array bs = [] <-> index_array = [].
Proof.
  intros Hbs. split.
  - intros H. destruct index_array as [|i l]; [reflexivity|]. exfalso.
    unfold index_batches in H. apply map_eq_nil in H.
    apply (make_batches_nonempty (length (i :: l)) bs); [cbn; lia|exact Hbs|].
    exact H.
  - intros ->. unfold index_batches, make_batches. cbn [length].
    replace (0 + bs - 1) with (bs - 1) by lia.
    rewrite Nat.div_small by lia. reflexivity.
Qed.

(** An epoch reports a validation loss when there is validation data
    with at least one sample. *)
Lemma fit_epoch_history x y validation bs e (s : S) :
  0 < bs ->
  is_Some (snd (fst (fit_epoch f val_f shuffle x y validation bs e s)))
  <-> match validation with
      | Some (vx, _) => vx <> []
      | None => False
      end.
Proof.
  intros Hbs. unfold fit_epoch.
  destruct (batch_loop f x y _ s) as [ls s1].
  destruct validation as [[vx vy]|].
  - pose proof (batch_loop_length val_f vx vy
                  (index_batches (seq 0 (length vx)) bs) s1) as HL.
    pose proof (index_batches_nil (seq 0 (length vx)) bs Hbs) as HN.
    destruct (batch_loop val_f vx vy _ s1) as [vs s2]. cbn [fst snd] in *.
    destruct vs as [|v vs].
    + split; [intros [? H]; discriminate|]. intros Hvx. exfalso.
      symmetry in HL. apply length_zero_iff_nil, HN in HL.
      apply (f_equal (@length _)) in HL. rewrite length_seq in HL.
      destruct vx; [contradiction|discriminate].
    + split; [|intros _; eexists; reflexivity]. intros _ ->.
      rewrite (proj2 HN eq_refl) in HL. discriminate.
  - cbn. split; [intros [? H]; discriminate|contradiction].
Qed.

Lemma fit_loop_replay x y validation bs epochs (s : S) :
  snd (fit_loop f val_f shuffle x y validation bs epochs s)
  = replay f val_f (flat_map (epoch_calls shuffle x y validation bs) epochs) s.
Proof.
  revert s. induction epochs as [|e rest IH]; intros s; [reflexivity|].
  cbn [fit_loop flat_map]. rewrite replay_app, <- fit_epoch_replay.
  destruct (fit_epoch f val_f shuffle x y validation bs e s) as [h s1].
  cbn [snd]. rewrite <- IH.
  destruct (fit_loop f val_f shuffle x y validation bs rest s1) as [hs s2].
  reflexivity.
Qed.

Lemma fit_loop_history x y validation bs epochs (s : S) :
  0 < bs ->
  let h := fst (fit_loop f val_f shuffle x y validation bs epochs s) in
  length h = length epochs /\
  Forall (fun r => is_Some (snd r)
                   <-> match validation with
                       | Some (vx, _) => vx <> []
                       | None => False
                       end) h.
Proof.
  intros Hbs. revert s. induction epochs as [|e rest IH]; intros s.
  - cbn. split; [reflexivity|constructor].
  - cbn [fit_loop].
    pose proof (fit_epoch_history x y validation bs e s Hbs) as He.
    destruct (fit_epoch f val_f shuffle x y validation bs e s) as [h s1].
    specialize (IH s1).
    destruct (fit_loop f val_f shuffle x y validation bs rest s1) as [hs s2].
    cbn [fst snd length] in *. destruct IH as [IH1 IH2].
    split; [congruence|constructor; assumption].
Qed.

End FitFacts.

(** ** The schedule and what its calls do to the Keras state *)

Section ScheduleFacts.
Import K.













Section Backend.
Variable grad : (weights -> R) -> weights -> weights.
Variable cm : compiled.



Lemma replay_frame calls s u :
  ~ In u (model_weights (cm_model cm)) ->
  vars (replay (train_on_batch grad cm) (test_on_batch cm) calls s) u = vars s u.
Proof.
  intros Hu. revert s.
  induction calls as [|[xs ys|xs ys] calls IH]; intros s;
    unfold replay in *; cbn [fold_left]; [reflexivity| |apply IH].
  rewrite IH. cbn [train_on_batch snd adam_update vars].
  rewrite bool_decide_eq_false_2; [reflexivity|].
  rewrite list_elem_of_In. exact Hu.
Qed.

End Backend.
End ScheduleFacts.

(** ** The training cell *)

Section Training.
Import K.
Variable grad : (weights -> R) -> weights -> weights.
Variable shuffle : nat -> nat -> list nat.
Variable next : Np.raw_draw -> (nat -> float) -> nat -> float.
Hypothesis shuffle_perm : forall e n, Permutation (shuffle e n) (seq 0 n).

Lemma as_tensor_spec a data ss :
  holds (np ss) a (Np.F64 data) ->
  as_tensor a ss
  = Ok ({| tshape := Np.shape a; tdata := map F64.to_R data |}, ss).
Proof.
  intros Ha. destruct ss as [n0 k0]. cbn [np] in Ha.
  unfold as_tensor, bind, in_np, Np.load, ret. cbn [np keras].
  unfold holds in Ha. rewrite Ha. reflexivity.
Qed.

Lemma check_data_ok m x y n :
  tshape x = n :: model_input_shape m ->
  tshape y = n :: model_output_shape m ->
  check_data m x y = true.
Proof.
  intros Hx Hy. unfold check_data. rewrite Hx, Hy.
  rewrite !bool_decide_eq_true_2 by reflexivity.
  rewrite Nat.eqb_refl. reflexivity.
Qed.

(** [fit] on arrays of the model's shapes, with at least one training
    sample, a positive batch size and at least one epoch: the loop runs. *)
Lemma fit_run cm x y vx vy n k bs epochs s :
  0 < n -> 0 < bs ->
  tshape x = n :: model_input_shape (cm_model cm) ->
  tshape y = n :: model_output_shape (cm_model cm) ->
  tshape vx = k :: model_input_shape (cm_model cm) ->
  tshape vy = k :: model_output_shape (cm_model cm) ->
  fit grad shuffle cm x y (Some (vx, vy)) (S epochs) bs s
  = Ok (fit_loop (train_on_batch grad cm) (test_on_batch cm) shuffle
          (unstack x) (unstack y) (Some (unstack vx, unstack vy))
          bs (seq 0 (S epochs)) s).
Proof.
  intros Hn Hbs Hx Hy Hvx Hvy. unfold fit, check_validation.
  rewrite (check_data_ok _ _ _ n Hx Hy), (check_data_ok _ _ _ k Hvx Hvy).
  cbn [negb]. cbv iota.
  destruct bs as [|bs]; [lia|]. cbn [Nat.eqb].
  destruct (unstack x) as [|t l] eqn:E.
  - exfalso. apply (f_equal (@length _)) in E.
    rewrite unstack_length, Hx in E. cbn in E. lia.
  - reflexivity.
Qed.

(** Without a training sample the first epoch ends in an exception. *)
Lemma fit_raises_on_empty cm x y validation bs epochs s :
  0 < bs ->
  tshape x = 0 :: model_input_shape (cm_model cm) ->
  tshape y = 0 :: model_output_shape (cm_model cm) ->
  check_validation (cm_model cm) validation = true ->
  fit grad shuffle cm x y validation (S epochs) bs s = Raise OtherException.
Proof.
  intros Hbs Hx Hy Hv. unfold fit.
  rewrite (check_data_ok _ _ _ 0 Hx Hy), Hv. cbn [negb]. cbv iota.
  destruct bs as [|bs]; [lia|]. cbn [Nat.eqb].
  unfold unstack. rewrite Hx. reflexivity.
Qed.

Lemma shuffle_draws_run n s :
  Np.shuffle_draws next n s
  = Ok (tt, {| Np.heap := Np.heap s;
               Np.gauss := if n <? 2 then Np.gauss s
                           else next (Np.Shuffle n) (Np.gauss s) |}).
Proof.
  unfold Np.shuffle_draws. destruct (n <? 2); [destruct s|]; reflexivity.
Qed.

Lemma for_each_shuffle_draws {A} n (l : list A) s :
  exists s', for_each l (Np.shuffle_draws next n) s = Ok (tt, s') /\
             Np.heap s' = Np.heap s.
Proof.
  revert s. induction l as [|a l IH]; intros s.
  - exists s. split; reflexivity.
  - unfold for_each. cbn [fold_right]. unfold bind at 1.
    rewrite shuffle_draws_run.
    destruct (IH {| Np.heap := Np.heap s;
                    Np.gauss := if n <? 2 then Np.gauss s
                                else next (Np.Shuffle n) (Np.gauss s) |})
      as (s' & E & H).
    exists s'. split; [exact E|exact H].
Qed.

Lemma cell_train_run m xn xc vn vc dxn dxc dvn dvc n k ss :
  0 < n ->
  model_output_shape m = model_input_shape m ->
  holds (np ss) xn (Np.F64 dxn) -> Np.shape xn = n :: model_input_shape m ->
  holds (np ss) xc (Np.F64 dxc) -> Np.shape xc = n :: model_input_shape m ->
  holds (np ss) vn (Np.F64 dvn) -> Np.shape vn = k :: model_input_shape m ->
  holds (np ss) vc (Np.F64 dvc) -> Np.shape vc = k :: model_input_shape m ->
  exists cm history k0 n1,
    cell_train grad shuffle next m xn xc vn vc ss
    = Ok ((cm, history),
          {| np := n1;
             keras := replay (train_on_batch grad cm) (test_on_batch cm)
                        (fit_schedule shuffle (samples_of xn dxn)
                           (samples_of xc dxc)
                           (Some (samples_of vn dvn, samples_of vc dvc))
                           batch_size 2) k0 |}) /\
    cm = {| cm_model := m; cm_loss := MeanSquaredError;
            cm_optimizer := Adam None None None None None |} /\
    vars k0 = vars (keras ss) /\ iterations k0 = 0 /\
    next_uid k0 = next_uid (keras ss) /\
    for_each (seq 0 2) (Np.shuffle_draws next n) (np ss) = Ok (tt, n1) /\
    Np.heap n1 = Np.heap (np ss) /\
    length history = 2 /\
    Forall (fun r => is_Some (snd r) <-> 0 < k) history /\
    history
    = fst (fit_loop (train_on_batch grad cm) (test_on_batch cm) shuffle
             (samples_of xn dxn) (samples_of xc dxc)
             (Some (samples_of vn dvn, samples_of vc dvc))
             batch_size (seq 0 2) k0).
Proof.
  intros Hn Hio Hxn Sxn Hxc Sxc Hvn Svn Hvc Svc.
  destruct ss as [n0 k0]. cbn [np keras] in *.
  destruct (for_each_shuffle_draws n (seq 0 2) n0) as (n1 & En & Hh).
  set (cm := {| cm_model := m; cm_loss := MeanSquaredError;
                cm_optimizer := Adam None None None None None |}).
  set (k1 := {| next_uid := next_uid k0; vars := vars k0; iterations := 0;
                moment_m := fun u => zeros_like (vars k0 u);
                moment_v := fun u => zeros_like (vars k0 u) |}).
  set (X := samples_of xn dxn). set (Y := samples_of xc dxc).
  set (VX := samples_of vn dvn). set (VY := samples_of vc dvc).
  pose proof (fit_loop_history (train_on_batch grad cm) (test_on_batch cm)
                shuffle X Y (Some (VX, VY)) batch_size (seq 0 2) k1
                ltac:(unfold batch_size; lia)) as [HL HS].
  pose proof (fit_loop_replay (train_on_batch grad cm) (test_on_batch cm)
                shuffle X Y (Some (VX, VY)) batch_size (seq 0 2) k1) as HR.
  destruct (fit_loop (train_on_batch grad cm) (test_on_batch cm) shuffle X Y
              (Some (VX, VY)) batch_size (seq 0 2) k1) as [h k2] eqn:EF.
  cbn [fst snd] in HL, HS, HR.
  exists cm, h, k1, n1. split.
  - unfold cell_train. unfold bind at 1.
    change (in_keras (compile m "mse" "adam") {| np := n0; keras := k0 |})
      with (Ok (cm, {| np := n0; keras := k1 |})).
    cbv beta iota. unfold bind at 1.
    rewrite (as_tensor_spec xn dxn) by exact Hxn. cbv beta iota.
    unfold bind at 1.
    rewrite (as_tensor_spec xc dxc) by exact Hxc. cbv beta iota.
    unfold bind at 1.
    rewrite (as_tensor_spec vn dvn) by exact Hvn. cbv beta iota.
    unfold bind at 1.
    rewrite (as_tensor_spec vc dvc) by exact Hvc. cbv beta iota.
    unfold bind at 1. unfold session_fit. unfold bind at 1.
    unfold in_keras at 1. cbn [np keras].
    rewrite (fit_run cm _ _ _ _ n k); cbn [tshape cm_model cm];
      [|exact Hn|unfold batch_size; lia|exact Sxn|congruence|exact Svn
       |congruence].
    fold (samples_of xn dxn) (samples_of xc dxc) (samples_of vn dvn)
         (samples_of vc dvc). fold X Y VX VY.
    rewrite EF. cbv beta iota. unfold bind at 1. unfold in_np.
    cbn [np keras tshape]. rewrite Sxn. cbn [hd]. rewrite En.
    unfold ret. rewrite HR. reflexivity.
  - repeat apply conj; try reflexivity.
    + exact En.
    + exact Hh.
    + exact HL.
    + eapply Forall_impl; [exact HS|]. intros r Hr. rewrite Hr.
      assert (HV : length VX = k).
      { unfold VX, samples_of. rewrite unstack_length. cbn [tshape].
        rewrite Svn. reflexivity. }
      destruct VX; cbn [length] in HV; split; intros H;
        [exfalso; apply H; reflexivity|lia|lia|discriminate].
    + fold X Y VX VY. rewrite EF. reflexivity.
Qed.

Lemma samples_of_length a data n s :
  Np.shape a = n :: s -> length (samples_of a data) = n.
Proof.
  intros H. unfold samples_of. rewrite unstack_length. cbn [tshape].
  rewrite H. reflexivity.
Qed.


End Training.


(** ** The notebook as a whole *)

Section EndToEnd.
Import K.
Variable grad : (weights -> R) -> weights -> weights.
Variable shuffle : nat -> nat -> list nat.
Variable next : Np.raw_draw -> (nat -> float) -> nat -> float.

Lemma in_np_ok {A} (c : M Np.state A) ss a n :
  c (np ss) = Ok (a, n) -> in_np c ss = Ok (a, {| np := n; keras := keras ss |}).
Proof. intros H. unfold in_np. rewrite H. reflexivity. Qed.

Lemma in_keras_ok {A} (c : M K.state A) ss a k :
  c (keras ss) = Ok (a, k) -> in_keras c ss = Ok (a, {| np := np ss; keras := k |}).
Proof. intros H. unfold in_keras. rewrite H. reflexivity. Qed.

Lemma for_each_advance {A} d (l : list A) s :
  exists s', for_each l (Np.advance next d) s = Ok (tt, s') /\
             Np.heap s' = Np.heap s.
Proof.
  revert s. induction l as [|a l IH]; intros s.
  - exists s. split; reflexivity.
  - unfold for_each. cbn [fold_right]. unfold bind at 1.
    unfold Np.advance at 1, modify. cbv beta iota.
    destruct (IH {| Np.heap := Np.heap s;
                    Np.gauss := next d (Np.gauss s) |}) as (s' & E & H).
    exists s'. split; [exact E|exact H].
Qed.

(** X13: the whole notebook runs without an exception on every dataset of
    n > 0 training and m > 0 test images of 28 x 28 bytes, whatever the
    generator returns, and its result is one array with one denoised
    image in [0,1] per test image. *)
Theorem notebook_runs ss x_train x_test tr te n m :
  0 < n -> 0 < m ->
  holds (np ss) x_train (Np.U8 tr) -> Np.shape x_train = [n; 28; 28] ->
  holds (np ss) x_test (Np.U8 te) -> Np.shape x_test = [m; 28; 28] ->
  exists x_decoded ss',
    notebook grad shuffle next x_train x_test ss = Ok (Single x_decoded, ss') /\
    tshape x_decoded = [m; 28; 28; 1] /\
    Forall unit_interval (tdata x_decoded).
Proof.
  intros Hn Hm Htr Hstr Hte Hste.
  destruct (cell_prepare_run _ _ _ _ _ _ _ Htr Hstr Hte Hste)
    as (a & b & s1 & E1 & Sa & Sb & Da & Db & X1 & _).
  destruct (cell_noise_run s1 a b _ _ Da Db)
    as (an & bn & s2 & E2 & San & Sbn & X2 & _ & _ & _ & Dan & Dbn).
  cbn [Np.as_f64] in Dan, Dbn.
  destruct ss as [n0 k0]. cbn [np] in *.
  destruct k0 as [u W0 it mm mv].
  set (k0 := {| next_uid := u; vars := W0; iterations := it;
                moment_m := mm; moment_v := mv |}) in *.
  assert (Hb : exists e d au k1, build_models k0 = Ok ((e, d, au), k1) /\
            model_input_shape au = input_shape /\
            model_output_shape au = input_shape /\
            (forall W v, Forall unit_interval (tdata (eval_model W au v)))).
  { eexists _, _, _, _. split; [subst k0; run_cells|].
    split; [reflexivity|]. split; [reflexivity|].
    intros W v. cbn [eval_model eval_tensor eval_layer].
    apply activate_unit_interval. }
  destruct Hb as (e & d & au & k1 & Eb & Hin & Hout & Hunit).
  match type of Dan with holds _ _ (Np.F64 ?l) => set (dan := l) in * end.
  match type of Dbn with holds _ _ (Np.F64 ?l) => set (dbn := l) in * end.
  match type of Da with holds _ _ (Np.F64 ?l) => set (da := l) in * end.
  match type of Db with holds _ _ (Np.F64 ?l) => set (db := l) in * end.
  destruct (for_each_advance (Np.Randint 10000000) (model_weights au) s2)
    as (s3 & Es & Hs3).
  assert (X3 : forall c buf, holds s2 c buf -> holds s3 c buf).
  { intros c buf H. unfold holds in *. rewrite Hs3. exact H. }
  destruct (cell_train_run grad shuffle next au an a bn b dan da dbn db n m
              {| np := s3; keras := k1 |})
    as (cm & h & k2 & s4 & Et & _ & _ & _ & _ & _ & Hs4 & _); cbn [np keras];
    try (rewrite Hin); try congruence; try exact Hn;
    try (apply X3); try (apply (holds_extends _ _ _ _ X2)); try assumption.
  { rewrite San, Sa. reflexivity. }
  { rewrite Sbn, Sb. reflexivity. }
  cbn [np keras] in Et, Hs4.
  eexists _, _. split.
  - unfold notebook. unfold bind at 1.
    rewrite (in_np_ok (cell_prepare x_train x_test)
               {| np := n0; keras := k0 |} _ _ E1).
    cbv beta iota. cbn [np keras]. unfold bind at 1.
    rewrite (in_np_ok (cell_noise a b) {| np := s1; keras := k0 |} _ _ E2).
    cbv beta iota. cbn [np keras]. unfold bind at 1.
    rewrite (in_keras_ok build_models {| np := s2; keras := k0 |} _ _ Eb).
    cbv beta iota. cbn [np keras]. unfold bind at 1.
    rewrite (in_np_ok (seed_draws next au) {| np := s2; keras := k1 |} _ _ Es).
    cbv beta iota. cbn [np keras]. unfold bind at 1.
    rewrite Et. cbv beta iota.
    apply (cell_predict_spec _ _ dbn m _ Hm); cbn [np keras].
    + unfold holds. rewrite Hs4. apply X3, Dbn.
    + rewrite Hin, Sbn, Sb. reflexivity.
  - split.
    + cbn [stack tshape]. rewrite length_map.
      rewrite (samples_of_length _ _ m input_shape), Hout; [reflexivity|].
      rewrite Sbn, Sb. reflexivity.
    + cbn [stack tdata]. apply Forall_flat_map, Forall_map, Forall_forall.
      intros t _. apply Hunit.
Qed.

End EndToEnd.

(** ** The conversion for display: 255 times a value of [0,1] has an
    integral part of 0 .. 255 *)

Section CastFacts.
Import F64.
Local Open Scope Z_scope.

Lemma digits2_pos_lower m : 2 ^ (Zpos (digits2_pos m) - 1) <= Zpos m.
Proof.
  induction m as [m IH|m IH|]; cbn [digits2_pos].
  - rewrite Pos2Z.inj_succ. replace (Z.succ (Zpos (digits2_pos m)) - 1)
      with (Z.succ (Zpos (digits2_pos m) - 1)) by lia.
    rewrite Z.pow_succ_r by lia. lia.
  - rewrite Pos2Z.inj_succ. replace (Z.succ (Zpos (digits2_pos m)) - 1)
      with (Z.succ (Zpos (digits2_pos m) - 1)) by lia.
    rewrite Z.pow_succ_r by lia. lia.
  - reflexivity.
Qed.

Lemma digits2_pos_upper m : Zpos m < 2 ^ Zpos (digits2_pos m).
Proof.
  induction m as [m IH|m IH|]; cbn [digits2_pos].
  - rewrite Pos2Z.inj_succ, Z.pow_succ_r by lia. lia.
  - rewrite Pos2Z.inj_succ, Z.pow_succ_r by lia. lia.
  - reflexivity.
Qed.

Lemma shr_1_div mrs : 0 <= shr_m mrs -> shr_m (shr_1 mrs) = shr_m mrs / 2.
Proof.
  destruct mrs as [m r s]. cbn [shr_m]. intros Hm.
  destruct m as [|p|p]; [reflexivity| |lia].
  destruct p as [p|p|]; cbn [shr_1 shr_m].
  - rewrite Pos2Z.inj_xI. apply (Z.div_unique _ _ _ 1); lia.
  - rewrite Pos2Z.inj_xO. apply (Z.div_unique _ _ _ 0); lia.
  - reflexivity.
Qed.

Lemma iter_shr_1_div p : forall mrs,
  0 <= shr_m mrs ->
  shr_m (SpecFloat.iter_pos shr_1 p mrs) = shr_m mrs / 2 ^ Zpos p.
Proof.
  induction p as [p IH|p IH|]; intros mrs H; cbn [SpecFloat.iter_pos].
  - rewrite IH, IH, shr_1_div by auto using iter_shr_1_nonneg, shr_1_nonneg.
    rewrite !Z.div_div by lia. f_equal.
    replace (Zpos p~1) with (1 + Zpos p + Zpos p) by lia.
    rewrite !Z.pow_add_r by lia. lia.
  - rewrite IH, IH by auto using iter_shr_1_nonneg.
    rewrite !Z.div_div by lia. f_equal.
    replace (Zpos p~0) with (Zpos p + Zpos p) by lia.
    rewrite Z.pow_add_r by lia. lia.
  - rewrite shr_1_div by exact H. reflexivity.
Qed.

Lemma shr_record_of_loc_m m l : shr_m (shr_record_of_loc m l) = m.
Proof. destruct l as [|[]]; reflexivity. Qed.

(** Shifting a mantissa to its canonical exponent keeps a bound of the
    form [c * 2^(-e)] on the number it stands for. *)
Lemma shr_fexp_scaled c m e l mrs e' :
  0 <= c -> 0 <= m -> e <= -45 -> m <= c * 2 ^ (- e) -> m < 2 ^ (8 - e) ->
  shr_fexp prec emax m e l = (mrs, e') ->
  e' <= -45 /\ 0 <= shr_m mrs <= c * 2 ^ (- e') /\ shr_m mrs < 2 ^ (8 - e').
Proof.
  intros Hc Hm He Hb Hd. unfold shr_fexp, shr.
  destruct (fexp prec emax (Zdigits2 m + e) - e) as [|p|p] eqn:En;
    intros [= <- <-]; try (rewrite shr_record_of_loc_m; lia).
  rewrite iter_shr_1_div by (rewrite shr_record_of_loc_m; exact Hm).
  rewrite shr_record_of_loc_m.
  assert (Hdig : Zdigits2 m + e <= 8).
  { destruct m as [|q|q]; cbn [Zdigits2]; [lia| |lia].
    pose proof (digits2_pos_lower q) as Hl.
    assert (2 ^ (Zpos (digits2_pos q) - 1) < 2 ^ (8 - e)) by lia.
    apply Z.pow_lt_mono_r_iff in H; lia. }
  assert (Hn : e + Zpos p <= -45).
  { unfold fexp, SpecFloat.emin, prec, emax in En. lia. }
  split; [exact Hn|].
  assert (Hp : 2 ^ (- e) = 2 ^ (- (e + Zpos p)) * 2 ^ Zpos p).
  { rewrite <- Z.pow_add_r by lia. f_equal; lia. }
  assert (Hq : 2 ^ (8 - e) = 2 ^ (8 - (e + Zpos p)) * 2 ^ Zpos p).
  { rewrite <- Z.pow_add_r by lia. f_equal; lia. }
  assert (0 < 2 ^ Zpos p) by (apply Z.pow_pos_nonneg; lia).
  repeat split.
  - apply Z.div_pos; lia.
  - apply Z.div_le_upper_bound; [lia|]. rewrite Hp in Hb. lia.
  - apply Z.div_lt_upper_bound; [lia|]. rewrite Hq in Hd. lia.
Qed.

Lemma round_nearest_even_le m l : m <= round_nearest_even m l <= m + 1.
Proof.
  destruct l as [|[]]; cbn [round_nearest_even]; try lia.
  destruct (Z.even m); lia.
Qed.

(** A product that stands for at most 255 rounds to a number whose
    integral part is at most 255. *)
Lemma binary_round_aux_byte s M E :
  0 <= M -> E <= -45 -> M <= 255 * 2 ^ (- E) ->
  match binary_round_aux prec emax s M E loc_Exact with
  | S754_zero _ => True
  | S754_finite s' m e => s' = s /\ 0 <= Z.shiftl (Zpos m) e <= 255
  | _ => False
  end.
Proof.
  intros HM HE Hb. unfold binary_round_aux.
  assert (Hpow : 2 ^ 8 * 2 ^ (- E) = 2 ^ (8 - E)).
  { rewrite <- Z.pow_add_r by lia. f_equal; lia. }
  assert (0 < 2 ^ (- E)) by (apply Z.pow_pos_nonneg; lia).
  assert (Hd : M < 2 ^ (8 - E)).
  { rewrite <- Hpow. change (2 ^ 8) with 256. lia. }
  destruct (shr_fexp prec emax M E loc_Exact) as [mrs' e'] eqn:E1.
  destruct (shr_fexp_scaled 255 M E loc_Exact mrs' e' ltac:(lia) HM HE Hb Hd E1)
    as (He' & [H0 H1] & _).
  pose proof (round_nearest_even_le (shr_m mrs') (loc_of_shr_record mrs')) as Hr.
  assert (Hpow' : 2 ^ 8 * 2 ^ (- e') = 2 ^ (8 - e')).
  { rewrite <- Z.pow_add_r by lia. f_equal; lia. }
  assert (2 ^ 45 <= 2 ^ (- e')) by (apply Z.pow_le_mono_r; lia).
  assert (1 < 2 ^ 45) by reflexivity.
  set (m1 := round_nearest_even (shr_m mrs') (loc_of_shr_record mrs')) in *.
  assert (Hd' : m1 < 2 ^ (8 - e')).
  { rewrite <- Hpow'. change (2 ^ 8) with 256. lia. }
  destruct (shr_fexp prec emax m1 e' loc_Exact) as [mrs'' e''] eqn:E2.
  destruct (shr_fexp_scaled 256 m1 e' loc_Exact mrs'' e'' ltac:(lia) ltac:(lia)
              He' ltac:(lia) Hd' E2) as (He'' & [Hq0 _] & Hq1).
  destruct (shr_m mrs'') as [|q|q] eqn:Eq; [exact I| |lia].
  replace (e'' <=? emax - prec) with true.
  2:{ symmetry. apply Z.leb_le. unfold emax, prec. lia. }
  split; [reflexivity|].
  rewrite Z.shiftl_div_pow2 by lia.
  assert (0 < 2 ^ (- e'')) by (apply Z.pow_pos_nonneg; lia).
  split; [apply Z.div_pos; lia|].
  assert (Zpos q / 2 ^ (- e'') < 256); [|lia].
  apply Z.div_lt_upper_bound; [lia|].
  replace (8 - e'') with (- e'' + 8) in Hq1 by lia.
  rewrite Z.pow_add_r in Hq1 by lia. change (2 ^ 8) with 256 in Hq1. lia.
Qed.

(** What [0 <= v <= 1] says about the representation of [v]. *)
Lemma in_unit_repr v :
  in_unit v = true ->
  match Prim2SF v with
  | S754_zero _ => True
  | S754_finite s m e => s = false /\ e <= -52 /\ Zpos m <= 2 ^ (- e)
  | _ => False
  end.
Proof.
  unfold in_unit. rewrite andb_true_iff, !FloatAxioms.leb_spec.
  pose proof (Prim2SF_valid v) as Hv.
  change (Prim2SF 0) with (S754_zero false).
  change (Prim2SF 1) with (S754_finite false 4503599627370496 (-52)).
  destruct (Prim2SF v) as [s|s| |s m e]; unfold SFleb; cbn [SFcompare];
    intros [H0 H1]; try discriminate; try exact I.
  - destruct s; discriminate.
  - destruct s; [discriminate|]. split; [reflexivity|].
    cbn [SpecFloat.valid_binary] in Hv. unfold SpecFloat.bounded in Hv.
    apply andb_true_iff in Hv as [Hc _]. unfold canonical_mantissa in Hc.
    apply Z.eqb_eq in Hc. unfold fexp, SpecFloat.emin, prec, emax in Hc.
    pose proof (digits2_pos_upper m) as Hu.
    destruct (e ?= -52) eqn:Ec.
    + apply Z.compare_eq in Ec. subst e. split; [lia|].
      change (2 ^ (- -52)) with 4503599627370496.
      assert (Hle : (m <= 4503599627370496)%positive).
      { unfold Pos.le, Pos.compare. intros Egt. rewrite Egt in H1.
        discriminate. }
      apply Pos2Z.pos_le_pos, Hle.
    + rewrite Z.compare_lt_iff in Ec. split; [lia|].
      assert (Zpos (digits2_pos m) <= 53) by lia.
      assert (2 ^ Zpos (digits2_pos m) <= 2 ^ (- e)).
      { apply Z.pow_le_mono_r; lia. }
      lia.
    + discriminate.
Qed.

(** The display conversion of a value of [0,1]: 255 times the value has
    an integral part between 0 and 255. *)
Lemma truncate_scaled v :
  in_unit v = true ->
  exists z, Cast.truncate (v * 255)%float = Some z /\ 0 <= z <= 255.
Proof.
  intros Hv. apply in_unit_repr in Hv. unfold Cast.truncate.
  rewrite mul_spec.
  change (Prim2SF 255) with (S754_finite false 8972014882652160 (-45)).
  destruct (Prim2SF v) as [s|s| |s m e]; try contradiction.
  - exists 0. split; [reflexivity|lia].
  - destruct Hv as (-> & He & Hm). cbn [SF64mul SFmul xorb].
    assert (Hb : Zpos (m * 8972014882652160) <= 255 * 2 ^ (- (e + -45))).
    { rewrite Pos2Z.inj_mul.
      replace (- (e + -45)) with (- e + 45) by lia.
      rewrite Z.pow_add_r by lia.
      change (Zpos 8972014882652160) with (255 * 2 ^ 45).
      assert (HP : 0 < 2 ^ 45) by reflexivity.
      revert HP. generalize (2 ^ 45). intros P HP. nia. }
    pose proof (binary_round_aux_byte false
                  (Zpos (m * 8972014882652160)) (e + -45)
                  ltac:(lia) ltac:(lia) Hb) as H.
    destruct (binary_round_aux prec emax false _ _ loc_Exact)
      as [s'|s'| |s' m' e']; try contradiction.
    + exists 0. split; [reflexivity|lia].
    + destruct H as [-> Hz].
      eexists. split; [reflexivity|]. cbn [cond_Zopp]. exact Hz.
Qed.

Lemma byte_of_range z :
  0 <= z <= 255 ->
  exists b, Cast.byte_of z = Some b /\ Z.of_N (Byte.to_N b) = z.
Proof.
  intros Hz. unfold Cast.byte_of.
  replace (0 <=? z) with true by (symmetry; apply Z.leb_le; lia).
  destruct (Byte.of_N (Z.to_N z)) as [b|] eqn:E.
  - exists b. split; [reflexivity|]. apply Byte.to_of_N in E. rewrite E. lia.
  - apply Byte.of_N_None_iff in E. lia.
Qed.

Lemma to_u8_scaled wild v :
  in_unit v = true ->
  exists z, Cast.truncate (v * 255)%float = Some z /\ 0 <= z <= 255 /\
            Z.of_N (Byte.to_N (Cast.to_u8 wild (v * 255)%float)) = z.
Proof.
  intros Hv. destruct (truncate_scaled v Hv) as (z & Hz & Hr).
  exists z. split; [exact Hz|]. split; [exact Hr|].
  unfold Cast.to_u8. rewrite Hz.
  destruct (byte_of_range z Hr) as (b & -> & Hb). exact Hb.
Qed.

Lemma to_u8_round_trip wild b :
  Cast.to_u8 wild (of_u8 b / 255 * 255)%float = b.
Proof. destruct b; vm_compute; reflexivity. Qed.

End CastFacts.

(** ** The cells that show an image *)

Section DisplayFacts.

Variable wild : float -> byte.
Variable wild_real : R -> byte.

Lemma randint_len_run r n :
  Py.randint 0 (Z.of_nat n) r
  = Ok (Z.of_nat (Py.stream r 0 mod (n + 1)),
        {| Py.stream := fun k => Py.stream r (S k) |}).
Proof.
  unfold Py.randint.
  replace (Z.of_nat n - 0 + 1)%Z with (Z.of_nat (n + 1)) by lia.
  replace (0 <? Z.of_nat (n + 1))%Z with true by (symmetry; apply Z.ltb_lt; lia).
  rewrite Nat2Z.inj_mod. reflexivity.
Qed.

Lemma drawn_index_le s n : drawn_index s n <= n.
Proof.
  unfold drawn_index.
  pose proof (Nat.mod_upper_bound (Py.stream (random s) 0) (n + 1)). lia.
Qed.

Lemma position_in_range {S} n i (s : S) :
  i < n -> View.position n (Z.of_nat i) s = Ok (i, s).
Proof.
  intros Hi. unfold View.position.
  replace (- Z.of_nat n <=? Z.of_nat i)%Z with true by (symmetry; apply Z.leb_le; lia).
  replace (Z.of_nat i <? Z.of_nat n)%Z with true by (symmetry; apply Z.ltb_lt; lia).
  replace (Z.of_nat i <? 0)%Z with false by (symmetry; apply Z.ltb_ge; lia).
  cbn [andb]. unfold ret. rewrite Nat2Z.id. reflexivity.
Qed.

Lemma position_at_len {S} n (s : S) :
  View.position n (Z.of_nat n) s = Raise IndexError.
Proof.
  unfold View.position. rewrite Z.ltb_irrefl, andb_false_r. reflexivity.
Qed.

Lemma take_one_lookup {A} (l : list A) i x :
  l !! i = Some x -> take 1 (drop i l) = [x].
Proof.
  revert i. induction l as [|y l IH]; intros [|i]; cbn; try discriminate.
  - intros [= ->]. rewrite take_0. reflexivity.
  - apply IH.
Qed.

Lemma map_seq_nth {A} (f : nat -> A) n i d :
  i < n -> nth i (map f (seq 0 n)) d = f i.
Proof.
  intros Hi. rewrite (nth_indep _ d (f 0)) by (rewrite length_map, length_seq; exact Hi).
  rewrite map_nth, seq_nth by exact Hi. reflexivity.
Qed.

Lemma label_read s y labels i :
  holds s y (Np.U8 labels) ->
  View.read {| View.base := Np.base y; View.offset := i; View.shape := [] |} s
  = Ok (Np.U8 (take 1 (drop i labels)), s).
Proof.
  intros Hy. unfold View.read, bind, Np.load. cbn [Np.base View.base].
  unfold holds in Hy. rewrite Hy. reflexivity.
Qed.

Lemma to_picture_run s img data :
  Np.heap s !! View.base img = Some (Np.F64 data) ->
  Np.prod (View.shape img) = 784 ->
  exists a s',
    to_picture wild img s = Ok (a, s') /\
    Np.shape a = [28; 28] /\
    Np.heap s !! Np.base a = None /\
    extends s s' /\
    holds s' a (Np.U8 (map (fun v => Cast.to_u8 wild (v * 255)%float)
                           (take 784 (drop (View.offset img) data)))) /\
    Np.gauss s' = Np.gauss s.
Proof.
  intros Hd Hp. unfold to_picture.
  unfold bind at 1. unfold View.reshape. rewrite Hp.
  change (Np.infer_shape 784 _) with (Some [28; 28]). cbn [ret].
  unfold bind at 1. unfold View.multiply, bind at 1.
  unfold View.read, bind, Np.load. cbn [Np.base View.base View.shape View.offset].
  rewrite Hd. cbn [ret]. unfold View.window. cbn [View.shape View.offset].
  change (Np.prod [28; 28]) with 784.
  destruct (alloc_spec (Np.F64 (map (fun x => (x * 255)%float)
                                    (take 784 (drop (View.offset img) data))))
                       [28; 28] s)
    as (r1 & s1 & E1 & S1 & F1 & D1 & X1 & G1).
  rewrite E1. unfold View.astype_uint8, bind, Np.load. rewrite D1, S1.
  destruct (alloc_spec (Np.U8 (map (Cast.to_u8 wild)
                                 (map (fun x => (x * 255)%float)
                                      (take 784 (drop (View.offset img) data)))))
                       [28; 28] s1)
    as (r2 & s2 & E2 & S2 & F2 & D2 & X2 & G2).
  exists r2, s2. rewrite E2. repeat split.
  - exact S2.
  - destruct (Np.heap s !! Np.base r2) eqn:E; [|reflexivity].
    apply X1 in E. congruence.
  - eauto using extends_trans.
  - unfold holds. rewrite D2, List.map_map. reflexivity.
  - congruence.
Qed.

Lemma scaled_pixels wild' l :
  Forall (fun v => F64.in_unit v = true) l ->
  Forall2 pixel_of l (map (fun v => Cast.to_u8 wild' (v * 255)%float) l).
Proof.
  induction 1 as [|v l Hv _ IH]; cbn [map]; constructor; [|exact IH].
  destruct (to_u8_scaled wild' v Hv) as (z & Hz & _ & Hb).
  unfold pixel_of. rewrite Hb. exact Hz.
Qed.

Lemma Forall_image_window {A} (P : A -> Prop) i l :
  Forall P l -> Forall P (image_window i l).
Proof. intros H. unfold image_window. apply Forall_take, Forall_drop, H. Qed.

Lemma image_window_length {A} i n (l : list A) :
  length l = n * 784 -> i < n -> length (image_window i l) = 784.
Proof.
  intros Hl Hi. unfold image_window. rewrite length_take, length_drop. nia.
Qed.

Lemma real_pixel v :
  unit_interval v -> pixel_of_real v (Cast.real_to_u8 wild_real (v * 255)%R).
Proof.
  intros [H0 H1]. unfold Cast.real_to_u8, Cast.truncate_real.
  destruct (Rle_dec 0 (v * 255)) as [_|Hn]; [|exfalso; apply Hn; lra].
  destruct (base_Int_part (v * 255)) as [Hlo Hhi].
  assert (Hz : (0 <= Int_part (v * 255) <= 255)%Z).
  { split.
    - assert (-1 < Int_part (v * 255))%Z; [|lia].
      apply lt_IZR. lra.
    - apply le_IZR. lra. }
  destruct (byte_of_range _ Hz) as (b & -> & Hb).
  unfold pixel_of_real. rewrite Hb. lra.
Qed.

Lemma decoded_picture_run s x i n :
  K.tshape x = [n; 28; 28; 1] -> i < n ->
  exists a s',
    decoded_picture wild_real x (Z.of_nat i) s = Ok (a, s') /\
    Np.shape a = [28; 28] /\
    Np.heap s !! Np.base a = None /\
    extends s s' /\
    holds s' a (Np.U8 (map (fun v => Cast.real_to_u8 wild_real (v * 255)%R)
                           (image_window i (K.tdata x)))) /\
    Np.gauss s' = Np.gauss s.
Proof.
  intros Hx Hi. unfold decoded_picture. rewrite Hx. unfold bind.
  rewrite position_in_range by exact Hi.
  unfold K.unstack. rewrite Hx. cbn [hd tl].
  rewrite (map_seq_nth _ n i) by exact Hi. cbn [K.tshape K.tdata].
  change (Np.prod [28; 28; 1]) with 784.
  change (Np.infer_shape 784 _) with (Some [28; 28]). cbv iota.
  fold (image_window i (K.tdata x)).
  destruct (alloc_spec (Np.U8 (map (fun v => Cast.real_to_u8 wild_real (v * 255)%R)
                                 (image_window i (K.tdata x)))) [28; 28] s)
    as (r & s' & E & S1 & F1 & D1 & X1 & G1).
  exists r, s'. repeat split; assumption.
Qed.


(** Runs the first three steps of a show cell: [len], [randint] and the
    check of the index. *)
Ltac draw_row Hshape :=
  unfold bind at 1; unfold View.len at 1; rewrite Hshape; cbn [ret];
  unfold bind at 1; unfold in_random at 1; rewrite randint_len_run;
  match goal with
  | |- context [Py.stream (random ?s) 0 mod (?n + 1)] =>
      fold (drawn_index s n); fold (after_draw s)
  end;
  unfold bind at 1; unfold View.getitem at 1; unfold View.of_array;
  cbn [View.shape View.base View.offset]; rewrite Hshape;
  unfold bind at 1.

(** X1: the first show cell draws its index with [random.randint(0,
    len(x_train))], whose upper end is included: the result is a valid
    index unless it is [len(x_train)], and then [x_train[image_num]]
    raises [IndexError].  Otherwise the cell shows the image at that
    index, a view into the array, with the label at the same index. *)
Theorem show_digit_index s x_train y_train n labels :
  Np.shape x_train = [n; 28; 28] -> Np.shape y_train = [n] ->
  holds (numpy s) y_train (Np.U8 labels) -> length labels = n ->
  drawn_index s n <= n /\
  (Py.stream (random s) 0 = n -> drawn_index s n = n) /\
  (drawn_index s n = n ->
     cell_show_digit x_train y_train s = Raise IndexError) /\
  (drawn_index s n < n ->
     exists label,
       labels !! drawn_index s n = Some label /\
       cell_show_digit x_train y_train s
       = Ok (({| View.base := Np.base x_train;
                 View.offset := drawn_index s n * 784;
                 View.shape := [28; 28] |}, Np.U8 [label]), after_draw s)).
Proof.
  intros Hx Hy Hl Hn.
  split; [apply drawn_index_le|]. split.
  { intros E. unfold drawn_index. rewrite E. apply Nat.mod_small. lia. }
  split.
  - intros Hi. unfold cell_show_digit. draw_row Hx.
    rewrite Hi, position_at_len. reflexivity.
  - intros Hi.
    destruct (lookup_lt_is_Some_2 labels (drawn_index s n)) as [label Hlab];
      [lia|].
    exists label. split; [exact Hlab|].
    unfold cell_show_digit. draw_row Hx.
    rewrite position_in_range by exact Hi. cbn [ret].
    unfold bind at 1. unfold View.reshape at 1. cbn [View.shape].
    change (Np.infer_shape _ _) with (Some [28; 28]). cbn [ret].
    unfold bind at 1. unfold View.getitem at 1.
    cbn [View.shape View.base View.offset]. rewrite Hy.
    unfold bind at 1. rewrite position_in_range by exact Hi. cbn [ret].
    unfold bind at 1. unfold in_numpy.
    replace (0 + drawn_index s n * Np.prod []) with (drawn_index s n)
      by (cbn; lia).
    rewrite (label_read _ _ labels) by exact Hl.
    rewrite (take_one_lookup _ _ _ Hlab). reflexivity.
Qed.

(** X2: the cell that shows a noisy training image: the same draw, with the
    same failure at [len(x_train_noisy)].  For an array with values in
    [0,1], as the noise cell leaves it, every pixel shown is the
    integral part of 255 times the value, a number of 0 .. 255 that the
    conversion to uint8 defines; the picture is a new array and the
    arrays of the session keep their contents. *)
Theorem show_noisy_pixels s x_train_noisy y_train n data labels :
  holds (numpy s) x_train_noisy (Np.F64 data) ->
  Np.shape x_train_noisy = [n; 28; 28; 1] -> length data = n * 784 ->
  Forall (fun v => F64.in_unit v = true) data ->
  holds (numpy s) y_train (Np.U8 labels) ->
  Np.shape y_train = [n] -> length labels = n ->
  (drawn_index s n = n ->
     cell_show_noisy wild x_train_noisy y_train s = Raise IndexError) /\
  (drawn_index s n < n ->
     exists img pixels label s',
       cell_show_noisy wild x_train_noisy y_train s
       = Ok ((img, Np.U8 [label]), s') /\
       labels !! drawn_index s n = Some label /\
       Np.shape img = [28; 28] /\ length pixels = 784 /\
       holds (numpy s') img (Np.U8 pixels) /\
       Forall2 pixel_of (image_window (drawn_index s n) data) pixels /\
       Np.heap (numpy s) !! Np.base img = None /\
       extends (numpy s) (numpy s') /\
       Np.gauss (numpy s') = Np.gauss (numpy s) /\
       random s' = random (after_draw s)).
Proof.
  intros Hd Hx Hlen Hunit Hl Hy Hn. split.
  - intros Hi. unfold cell_show_noisy. draw_row Hx.
    rewrite Hi, position_at_len. reflexivity.
  - intros Hi.
    destruct (lookup_lt_is_Some_2 labels (drawn_index s n)) as [label Hlab];
      [lia|].
    set (i := drawn_index s n) in *.
    destruct (to_picture_run (numpy s)
                {| View.base := Np.base x_train_noisy;
                   View.offset := 0 + i * Np.prod [28; 28; 1];
                   View.shape := [28; 28; 1] |} data Hd eq_refl)
      as (img & s1 & E1 & S1 & F1 & X1 & D1 & G1).
    cbn [View.offset] in D1.
    change (0 + i * Np.prod [28; 28; 1]) with (i * 784) in D1.
    fold (image_window i data) in D1.
    exists img, (map (fun v => Cast.to_u8 wild (v * 255)%float)
                     (image_window i data)), label,
           {| random := random (after_draw s); numpy := s1 |}.
    split.
    { unfold cell_show_noisy. draw_row Hx. fold i.
      rewrite position_in_range by exact Hi. cbn [ret].
      unfold bind at 1. unfold in_numpy at 1. cbn [numpy after_draw].
      rewrite E1.
      unfold bind at 1. unfold View.getitem at 1.
      cbn [View.shape View.base View.offset]. rewrite Hy.
      unfold bind at 1. rewrite position_in_range by exact Hi. cbn [ret].
      unfold bind at 1. unfold in_numpy. cbn [numpy random].
      replace (0 + i * Np.prod []) with i by (cbn; lia).
      rewrite (label_read _ _ labels) by (apply (holds_extends _ _ _ _ X1 Hl)).
      rewrite (take_one_lookup _ _ _ Hlab). reflexivity. }
    split; [exact Hlab|]. split; [exact S1|]. split.
    { rewrite length_map. apply (image_window_length _ n); assumption. }
    split; [exact D1|]. split.
    { apply scaled_pixels, Forall_image_window, Hunit. }
    split; [exact F1|]. split; [exact X1|]. split; [exact G1|reflexivity].
Qed.

(** X3: the last cell draws one index and shows the noisy test image and the
    decoded image at that index.  With the array [predict] returned for
    the noisy test set (the same number of images, values in [0,1]) the
    second lookup succeeds whenever the first does, both pictures have
    pixels of 0 .. 255, and they are new arrays. *)
Theorem show_decoded_pair s x_test_noisy x_decoded n data :
  holds (numpy s) x_test_noisy (Np.F64 data) ->
  Np.shape x_test_noisy = [n; 28; 28; 1] -> length data = n * 784 ->
  Forall (fun v => F64.in_unit v = true) data ->
  K.tshape x_decoded = [n; 28; 28; 1] ->
  length (K.tdata x_decoded) = n * 784 ->
  Forall unit_interval (K.tdata x_decoded) ->
  (drawn_index s n = n ->
     cell_show_decoded wild wild_real x_test_noisy x_decoded s
     = Raise IndexError) /\
  (drawn_index s n < n ->
     exists a b pa pb s',
       cell_show_decoded wild wild_real x_test_noisy x_decoded s
       = Ok ((a, b), s') /\
       Np.shape a = [28; 28] /\ Np.shape b = [28; 28] /\
       Np.base a <> Np.base b /\
       holds (numpy s') a (Np.U8 pa) /\ holds (numpy s') b (Np.U8 pb) /\
       length pa = 784 /\ length pb = 784 /\
       Forall2 pixel_of (image_window (drawn_index s n) data) pa /\
       Forall2 pixel_of_real
               (image_window (drawn_index s n) (K.tdata x_decoded)) pb /\
       extends (numpy s) (numpy s') /\
       Np.gauss (numpy s') = Np.gauss (numpy s)).
Proof.
  intros Hd Hx Hlen Hunit Hdx Hdlen Hdunit. split.
  - intros Hi. unfold cell_show_decoded. draw_row Hx.
    rewrite Hi, position_at_len. reflexivity.
  - intros Hi. set (i := drawn_index s n) in *.
    destruct (to_picture_run (numpy s)
                {| View.base := Np.base x_test_noisy;
                   View.offset := 0 + i * Np.prod [28; 28; 1];
                   View.shape := [28; 28; 1] |} data Hd eq_refl)
      as (a & s1 & E1 & S1 & F1 & X1 & D1 & G1).
    cbn [View.offset] in D1.
    change (0 + i * Np.prod [28; 28; 1]) with (i * 784) in D1.
    fold (image_window i data) in D1.
    destruct (decoded_picture_run s1 x_decoded i n Hdx Hi)
      as (b & s2 & E2 & S2 & F2 & X2 & D2 & G2).
    exists a, b,
           (map (fun v => Cast.to_u8 wild (v * 255)%float)
                (image_window i data)),
           (map (fun v => Cast.real_to_u8 wild_real (v * 255)%R)
                (image_window i (K.tdata x_decoded))),
           {| random := random (after_draw s); numpy := s2 |}.
    split.
    { unfold cell_show_decoded. draw_row Hx. fold i.
      rewrite position_in_range by exact Hi. cbn [ret].
      unfold bind at 1. unfold in_numpy at 1. cbn [numpy after_draw].
      rewrite E1. unfold bind at 1. unfold in_numpy. cbn [numpy random].
      rewrite E2. reflexivity. }
    split; [exact S1|]. split; [exact S2|]. split.
    { intros E. rewrite <- E in F2. unfold holds in D1. congruence. }
    split; [apply (holds_extends _ _ _ _ X2 D1)|]. split; [exact D2|].
    split.
    { rewrite length_map. apply (image_window_length _ n); assumption. }
    split.
    { rewrite length_map. apply (image_window_length _ n); assumption. }
    split.
    { apply scaled_pixels, Forall_image_window, Hunit. }
    split.
    { apply Forall2_fmap_r, Forall_Forall2_diag.
      eapply Forall_impl; [apply Forall_image_window, Hdunit|].
      intros v Hv. apply real_pixel, Hv. }
    cbn [numpy]. split; [eauto using extends_trans|congruence].
Qed.

(** X4: the conversion for display undoes the preparation: for each of the
    256 pixel values [b], [uint8((b / 255.0) * 255)] is [b] again, with
    no help from the platform. *)
Theorem display_inverts_preparation wild' bytes :
  map (Cast.to_u8 wild')
      (map (fun v => (v * 255)%float)
           (map (fun b => (F64.of_u8 b / 255)%float) bytes))
  = bytes.
Proof.
  rewrite !List.map_map. rewrite <- (map_id bytes) at 2.
  apply map_ext. intros b. apply to_u8_round_trip.
Qed.

End DisplayFacts.

Lemma show_digit_index_witness :
  cell_show_digit demo_digits demo_labels (demo_viewer 2) = Raise IndexError /\
  cell_show_digit demo_digits demo_labels (demo_viewer 1)
  = Ok (({| View.base := 0; View.offset := 784; View.shape := [28; 28] |},
         Np.U8 ["008"%byte]), after_draw (demo_viewer 1)).
Proof.
  split.
  - apply (show_digit_index (demo_viewer 2) demo_digits demo_labels 2
             ["003"%byte; "008"%byte] eq_refl eq_refl eq_refl eq_refl).
    reflexivity.
  - destruct (show_digit_index (demo_viewer 1) demo_digits demo_labels 2
                ["003"%byte; "008"%byte] eq_refl eq_refl eq_refl eq_refl)
      as (_ & _ & _ & H).
    destruct (H ltac:(cbv; lia)) as (label & Hl & E).
    injection Hl as <-. exact E.
Defined.

(** ** The model cells for any image size *)

Section AnySize.
Import K.

Lemma conv_same_half n k :
  0 < n -> positive_dim (conv_output_length n k Same 2) = Some ((n + 1) / 2).
Proof.
  intros Hn. unfold conv_output_length, positive_dim.
  replace (Z.of_nat n + Z.of_nat 2 - 1)%Z with (Z.of_nat (n + 1)) by lia.
  rewrite <- Nat2Z.inj_div.
  assert (0 < (n + 1) / 2) by (apply Nat.div_str_pos; lia).
  replace (0 <? Z.of_nat ((n + 1) / 2))%Z with true
    by (symmetry; apply Z.ltb_lt; lia).
  rewrite Nat2Z.id. reflexivity.
Qed.

Lemma conv_shape u nm f k act h w c :
  0 < h -> 0 < w ->
  compute_output_shape (LConv2D u nm f k 2 act Same) [h; w; c]
  = Some [(h + 1) / 2; (w + 1) / 2; f].
Proof.
  intros Hh Hw. cbn [compute_output_shape].
  rewrite !conv_same_half by assumption. reflexivity.
Qed.

Lemma reshape_shape u nm a b c :
  compute_output_shape (LReshape u nm [a; b; c]) [a * b * c] = Some [a; b; c].
Proof.
  cbn [compute_output_shape].
  replace (Np.prod [a; b; c] =? Np.prod [a * b * c]) with true; [reflexivity|].
  symmetry. apply Nat.eqb_eq. cbn [Np.prod fold_right]. lia.
Qed.

Lemma flatten_shape u nm s :
  compute_output_shape (LFlatten u nm) s = Some [Np.prod s].
Proof. reflexivity. Qed.

Lemma dense_shape u nm units act n :
  0 < n -> compute_output_shape (LDense u nm units act) [n] = Some [units].
Proof. intros Hn. destruct n; [lia|reflexivity]. Qed.

Lemma dense_zero u nm units act :
  compute_output_shape (LDense u nm units act) [0] = None.
Proof. reflexivity. Qed.

Lemma deconv_shape u nm f k st act h w c :
  compute_output_shape (LConv2DTranspose u nm f k st act Same) [h; w; c]
  = Some [h * st; w * st; f].
Proof. reflexivity. Qed.

Lemma activation_shape u nm act s :
  compute_output_shape (LActivation u nm act) s = Some s.
Proof. reflexivity. Qed.

Lemma network_shape m :
  compute_output_shape (LNetwork m) (model_input_shape m)
  = Some (model_output_shape m).
Proof.
  cbn [compute_output_shape].
  destruct (decide (model_input_shape m = model_input_shape m));
    [reflexivity|contradiction].
Qed.

Lemma quarter_side size :
  ((size + 1) / 2 + 1) / 2 * 2 * 2 = size <-> size mod 4 = 0.
Proof.
  pose proof (Nat.div_mod_eq (size + 1) 2) as Ha.
  pose proof (Nat.mod_upper_bound (size + 1) 2 ltac:(lia)) as Ha'.
  pose proof (Nat.div_mod_eq ((size + 1) / 2 + 1) 2) as Hq.
  pose proof (Nat.mod_upper_bound ((size + 1) / 2 + 1) 2 ltac:(lia)) as Hq'.
  pose proof (Nat.div_mod_eq size 4) as Hs.
  pose proof (Nat.mod_upper_bound size 4 ltac:(lia)) as Hs'.
  revert Ha Ha' Hq Hq' Hs Hs'.
  generalize (((size + 1) / 2 + 1) / 2), (((size + 1) / 2 + 1) mod 2).
  generalize ((size + 1) / 2), ((size + 1) mod 2).
  generalize (size / 4), (size mod 4). lia.
Qed.

(** Runs the model cells for a symbolic image size. *)
Ltac run_cells_with :=
  unfold build_models_with, cell_encoder_with, cell_decoder_with,
    cell_autoencoder;
  cbv -[compute_output_shape Nat.div Nat.add Nat.mul Nat.eqb];
  repeat (first [ rewrite conv_shape by assumption
                | rewrite flatten_shape
                | rewrite dense_zero
                | rewrite dense_shape
                    by first [ assumption
                             | repeat (apply Nat.mul_pos_pos; try assumption);
                               lia ]
                | rewrite reshape_shape
                | rewrite deconv_shape
                | rewrite activation_shape
                | rewrite network_shape
                | rewrite Nat.eqb_refl ];
          cbv -[compute_output_shape Nat.div Nat.add Nat.mul Nat.eqb]);
  reflexivity.

Lemma build_models_with_run size k d s :
  0 < size -> 0 < d ->
  exists encoder decoder autoencoder s',
    build_models_with size k d s = Ok ((encoder, decoder, autoencoder), s') /\
    (model_input_shape encoder = [size; size; 1] /\
     model_output_shape encoder = [d]) /\
    (model_input_shape decoder = [d] /\
     model_output_shape decoder
     = [4 * (((size + 1) / 2 + 1) / 2); 4 * (((size + 1) / 2 + 1) / 2); 1]) /\
    (model_input_shape autoencoder = [size; size; 1] /\
     model_output_shape autoencoder = model_output_shape decoder /\
     forall W x,
       eval_model W autoencoder x
       = eval_model W decoder (eval_model W encoder x)) /\
    (forall W z,
       tshape (eval_model W decoder z) = model_output_shape decoder /\
       Forall unit_interval (tdata (eval_model W decoder z))) /\
    next_uid s' = next_uid s + 15 /\ vars s' = vars s.
Proof.
  intros Hs Hd. destruct s as [u W0 it m v].
  assert (H1 : 0 < (size + 1) / 2) by (apply Nat.div_str_pos; lia).
  assert (H2 : 0 < ((size + 1) / 2 + 1) / 2) by (apply Nat.div_str_pos; lia).
  eexists _, _, _, _. split; [run_cells_with|].
  cbn [model_input_shape model_output_shape model_output static_shape
       next_uid vars].
  assert (E : ((size + 1) / 2 + 1) / 2 * 2 * 2 * 1
              = 4 * (((size + 1) / 2 + 1) / 2)) by lia.
  rewrite !E.
  repeat split; try reflexivity.
  - cbn [eval_model eval_tensor eval_layer activate conv2d_transpose tshape
         axis nth deconv_length reshape]. rewrite E. reflexivity.
  - cbn [eval_model eval_tensor eval_layer]. apply activate_unit_interval.
  - lia.
Qed.

(** With a latent dimension of 0 the encoder is built, and the first
    dense layer of the decoder fails its assertion on the input. *)
Lemma build_models_with_zero_latent size k s :
  0 < size -> build_models_with size k 0 s = Raise AssertionError.
Proof.
  intros Hs. destruct s as [u W0 it m v].
  assert (H1 : 0 < (size + 1) / 2) by (apply Nat.div_str_pos; lia).
  assert (H2 : 0 < ((size + 1) / 2 + 1) / 2) by (apply Nat.div_str_pos; lia).
  run_cells_with.
Qed.

(** The notebook's cells are the cells at its configuration. *)
Lemma build_models_at_configuration :
  build_models_with image_size kernel_size latent_dim = build_models.
Proof. reflexivity. Qed.


(** X5: the model cells for an image side other than 28, a kernel size other
    than 3 and a latent dimension other than 16: the three models are
    built for every positive side; the encoder halves the side twice,
    rounding up, and the decoder doubles it twice, so the autoencoder
    returns images of side 4 * ceil(ceil(side / 2) / 2), whatever the
    kernel size.  Its output has the shape of its input exactly when 4
    divides the side. *)
Theorem architecture_any_size size k d s :
  0 < size -> 0 < k -> 0 < d ->
  let side := 4 * (((size + 1) / 2 + 1) / 2) in
  exists encoder decoder autoencoder s',
    build_models_with size k d s = Ok ((encoder, decoder, autoencoder), s') /\
    model_input_shape autoencoder = [size; size; 1] /\
    model_output_shape encoder = [d] /\
    model_output_shape autoencoder = [side; side; 1] /\
    (forall W x,
       tshape (eval_model W autoencoder x) = [side; side; 1] /\
       Forall unit_interval (tdata (eval_model W autoencoder x))) /\
    size <= side < size + 4 /\
    (model_output_shape autoencoder = model_input_shape autoencoder
     <-> size mod 4 = 0).
Proof.
  intros Hs _ Hd0 side. subst side.
  destruct (build_models_with_run size k d s Hs Hd0)
    as (e & dc & a & s' & Hb & [_ Heo] & [_ Hdo] & (Hai & Hao & Hc) & Hd & _).
  exists e, dc, a, s'. split; [exact Hb|]. split; [exact Hai|].
  split; [exact Heo|]. rewrite Hao, Hdo, Hai.
  pose proof (quarter_side size) as Hq.
  split; [reflexivity|]. split.
  { intros W x. rewrite Hc. rewrite <- Hdo. apply Hd. }
  split.
  { pose proof (Nat.div_mod_eq (size + 1) 2).
    pose proof (Nat.mod_upper_bound (size + 1) 2 ltac:(lia)).
    pose proof (Nat.div_mod_eq ((size + 1) / 2 + 1) 2).
    pose proof (Nat.mod_upper_bound ((size + 1) / 2 + 1) 2 ltac:(lia)).
    lia. }
  rewrite <- Hq. split.
  - intros E. apply (f_equal (hd 0)) in E. cbn [hd] in E. revert E.
    generalize (((size + 1) / 2 + 1) / 2). intros q E. lia.
  - intros E. revert E. generalize (((size + 1) / 2 + 1) / 2). intros q E.
    replace (4 * q) with size by lia. reflexivity.
Qed.


End AnySize.

(** ** The NumPy cells on other inputs, and run again *)

Section NumpyEdges.
Import Np.

Lemma infer_shape_by_size n :
  infer_shape n [(-1)%Z; Z.of_nat image_size; Z.of_nat image_size; 1%Z]
  = if n mod 784 =? 0 then Some [n / 784; image_size; image_size; 1] else None.
Proof.
  unfold infer_shape.
  change (existsb _ _) with false. cbv iota.
  change (length (List.filter _ _)) with 1.
  change (prod (map Z.to_nat (List.filter _ _))) with 784.
  change (784 =? 0) with false. cbv iota.
  destruct (n mod 784 =? 0); reflexivity.
Qed.

Lemma prepare_by_size s a b :
  holds s a b -> size a mod 784 = 0 ->
  exists r s',
    (r <- reshape a [(-1)%Z; Z.of_nat image_size; Z.of_nat image_size; 1%Z] ;;
     true_divide r 255%float) s = Ok (r, s') /\
    shape r = [size a / 784; 28; 28; 1] /\
    heap s !! base r = None /\
    holds s' r (F64 (map (fun v => v / 255)%float (as_f64 b))) /\
    extends s s' /\ gauss s' = gauss s.
Proof.
  intros Ha Hm. unfold bind at 1. unfold reshape.
  rewrite infer_shape_by_size, Hm. cbn [Nat.eqb ret].
  destruct (true_divide_spec
              {| base := base a; shape := [size a / 784; image_size; image_size; 1] |}
              255%float b s Ha) as (r & s' & E & H1 & H2 & H3 & H4 & H5).
  exists r, s'. repeat split; assumption.
Qed.


Lemma cell_prepare_by_size s x_train x_test b1 b2 :
  holds s x_train b1 -> holds s x_test b2 ->
  size x_train mod 784 = 0 -> size x_test mod 784 = 0 ->
  exists a b s',
    cell_prepare x_train x_test s = Ok ((a, b), s') /\
    shape a = [size x_train / 784; 28; 28; 1] /\
    shape b = [size x_test / 784; 28; 28; 1] /\
    holds s' a (F64 (map (fun v => v / 255)%float (as_f64 b1))) /\
    holds s' b (F64 (map (fun v => v / 255)%float (as_f64 b2))) /\
    extends s s'.
Proof.
  intros H1 H2 M1 M2.
  destruct (prepare_by_size s x_train b1 H1 M1)
    as (a & s1 & E1 & S1 & _ & D1 & X1 & _).
  destruct (prepare_by_size s1 x_test b2 (holds_extends _ _ _ _ X1 H2) M2)
    as (b & s2 & E2 & S2 & _ & D2 & X2 & _).
  exists a, b, s2. split.
  - unfold cell_prepare. unfold bind in E1, E2 |- *.
    destruct (reshape x_train _ s) as [[r1 t1]|e1]; [|discriminate].
    rewrite E1.
    destruct (reshape x_test _ s1) as [[r2 t2]|e2]; [|discriminate].
    rewrite E2. reflexivity.
  - repeat split; try assumption.
    + apply (holds_extends _ _ _ _ X2 D1).
    + eauto using extends_trans.
Qed.


Lemma rescaled_dim b :
  ((F64.of_u8 b / 255 / 255 <=? 0x1.0101010101010p-8)%float) = true.
Proof. destruct b; vm_compute; reflexivity. Qed.

(** X8: running the preparation cell a second time, on its own results, is
    accepted and divides by 255 again: no value of the arrays it leaves
    exceeds 1/255. *)
Theorem prepare_again_scales_again s x_train x_test tr te n m :
  holds s x_train (U8 tr) -> shape x_train = [n; 28; 28] ->
  holds s x_test (U8 te) -> shape x_test = [m; 28; 28] ->
  exists a b s1 a' b' s2,
    cell_prepare x_train x_test s = Ok ((a, b), s1) /\
    cell_prepare a b s1 = Ok ((a', b'), s2) /\
    shape a' = [n; 28; 28; 1] /\ shape b' = [m; 28; 28; 1] /\
    holds s2 a' (F64 (map (fun v => F64.of_u8 v / 255 / 255)%float tr)) /\
    holds s2 b' (F64 (map (fun v => F64.of_u8 v / 255 / 255)%float te)) /\
    Forall (fun v => (v <=? 0x1.0101010101010p-8)%float = true)
           (map (fun v => F64.of_u8 v / 255 / 255)%float (tr ++ te)).
Proof.
  intros Htr Hstr Hte Hste.
  destruct (cell_prepare_run s x_train x_test tr te n m Htr Hstr Hte Hste)
    as (a & b & s1 & E1 & Sa & Sb & Da & Db & _).
  assert (Ma : size a = n * 784).
  { unfold size. rewrite Sa. unfold prod, fold_right, image_size. lia. }
  assert (Mb : size b = m * 784).
  { unfold size. rewrite Sb. unfold prod, fold_right, image_size. lia. }
  destruct (cell_prepare_by_size s1 a b _ _ Da Db)
    as (a' & b' & s2 & E2 & Sa' & Sb' & Da' & Db' & _).
  { rewrite Ma. apply Nat.Div0.mod_mul. }
  { rewrite Mb. apply Nat.Div0.mod_mul. }
  exists a, b, s1, a', b', s2.
  split; [exact E1|]. split; [exact E2|].
  rewrite Ma, Nat.div_mul in Sa' by discriminate.
  rewrite Mb, Nat.div_mul in Sb' by discriminate.
  cbn [as_f64] in Da', Db'. rewrite List.map_map in Da', Db'.
  repeat split; try assumption.
  apply Forall_map, Forall_forall. intros v _. apply rescaled_dim.
Qed.

Lemma cell_noise_stream s x_train x_test b1 b2 :
  holds s x_train b1 -> holds s x_test b2 ->
  exists ntr nte s',
    cell_noise x_train x_test s = Ok ((ntr, nte), s') /\
    extends s s' /\
    heap s !! base ntr = None /\ heap s !! base nte = None /\
    holds s' ntr (F64 (noisy (as_f64 b1) (draw s 0 (size x_train)))) /\
    holds s' nte (F64 (noisy (as_f64 b2) (draw s (size x_train) (size x_test)))) /\
    gauss s' = (fun i => gauss s (size x_train + (size x_test + i))).
Proof.
  intros H1 H2. unfold cell_noise.
  destruct (random_normal_spec 0.5%float 0.5%float (shape x_train) s)
    as (z1 & s1 & E1 & Sz1 & Fz1 & Dz1 & X1 & G1).
  destruct (add_spec x_train z1 b1 _ s1 (X1 _ _ H1) Dz1 (eq_sym Sz1))
    as (a1 & s2 & E2 & Sa1 & Fa1 & Da1 & X2 & G2).
  destruct (random_normal_spec 0.5%float 0.5%float (shape x_test) s2)
    as (z2 & s3 & E3 & Sz2 & Fz2 & Dz2 & X3 & G3).
  destruct (add_spec x_test z2 b2 _ s3 (X3 _ _ (X2 _ _ (X1 _ _ H2))) Dz2 (eq_sym Sz2))
    as (a2 & s4 & E4 & Sa2 & Fa2 & Da2 & X4 & G4).
  destruct (clip_spec a1 0%float 1%float _ s4 (X4 _ _ (X3 _ _ Da1)))
    as (c1 & s5 & E5 & Sc1 & Fc1 & Dc1 & X5 & G5).
  destruct (clip_spec a2 0%float 1%float _ s5 (X5 _ _ Da2))
    as (c2 & s6 & E6 & Sc2 & Fc2 & Dc2 & X6 & G6).
  exists c1, c2, s6.
  assert (X04 : extends s s4) by eauto using extends_trans.
  assert (X05 : extends s s5) by eauto using extends_trans.
  repeat apply conj.
  - unfold bind. rewrite E1, E2, E3, E4, E5, E6. reflexivity.
  - eauto using extends_trans.
  - destruct (heap s !! base c1) eqn:E; [|reflexivity].
    apply X04 in E. congruence.
  - destruct (heap s !! base c2) eqn:E; [|reflexivity].
    apply X05 in E. congruence.
  - unfold holds. apply X6. rewrite Dc1. cbn [as_f64]. unfold noisy, draw.
    reflexivity.
  - unfold holds. rewrite Dc2. cbn [as_f64]. unfold noisy, draw.
    rewrite G2, G1. unfold size.
    do 5 f_equal. rewrite map_seq_offset, Nat.add_0_r. reflexivity.
  - rewrite G6, G5, G4, G3, G2, G1. reflexivity.
Qed.

Lemma draw_shift s s' k off n :
  (forall i, gauss s' i = gauss s (k + i)) ->
  draw s' off n = draw s (k + off) n.
Proof.
  intros G. unfold draw. rewrite <- map_seq_offset.
  apply map_ext. intros i. apply G.
Qed.

(** X9: the noise cell takes one sample of the generator per element, first
    for the training array and then for the test array, and leaves the
    generator after them: run again on the same clean arrays, it
    computes its results from the samples that follow, and the arrays
    of the first run keep their contents. *)
Theorem noise_draws_fresh_samples s x_train x_test tr te :
  holds s x_train (F64 tr) -> holds s x_test (F64 te) ->
  let n1 := size x_train in
  let n2 := size x_test in
  exists a b s1 a' b' s2,
    cell_noise x_train x_test s = Ok ((a, b), s1) /\
    (forall i, gauss s1 i = gauss s (n1 + n2 + i)) /\
    cell_noise x_train x_test s1 = Ok ((a', b'), s2) /\
    (forall i, gauss s2 i = gauss s (2 * (n1 + n2) + i)) /\
    holds s2 a (F64 (noisy tr (draw s 0 n1))) /\
    holds s2 b (F64 (noisy te (draw s n1 n2))) /\
    holds s2 a' (F64 (noisy tr (draw s (n1 + n2) n1))) /\
    holds s2 b' (F64 (noisy te (draw s (n1 + n2 + n1) n2))) /\
    base a' <> base a /\ base b' <> base b.
Proof.
  intros H1 H2 n1 n2.
  destruct (cell_noise_stream s x_train x_test _ _ H1 H2)
    as (a & b & s1 & E1 & X1 & _ & _ & Da & Db & G1).
  destruct (cell_noise_stream s1 x_train x_test _ _
              (holds_extends _ _ _ _ X1 H1) (holds_extends _ _ _ _ X1 H2))
    as (a' & b' & s2 & E2 & X2 & Fa & Fb & Da' & Db' & G2).
  cbn [as_f64] in *. fold n1 n2 in Da, Db, Da', Db', G1, G2.
  exists a, b, s1, a', b', s2.
  split; [exact E1|]. split.
  { intros i. rewrite G1. f_equal. lia. }
  split; [exact E2|]. split.
  { intros i. rewrite G2, G1. f_equal. lia. }
  split; [apply (holds_extends _ _ _ _ X2 Da)|].
  split; [apply (holds_extends _ _ _ _ X2 Db)|].
  rewrite (draw_shift s s1 (n1 + n2)) in Da', Db'
    by (intros i; rewrite G1; f_equal; lia).
  split; [rewrite Nat.add_0_r in Da'; exact Da'|]. split; [exact Db'|].
  split.
  - intros E. rewrite E in Fa. unfold holds in Da. congruence.
  - intros E. rewrite E in Fb. unfold holds in Db. congruence.
Qed.

End NumpyEdges.

(** ** The models, built again *)

Section ModelEdges.
Import K.

(** X10: running the model cells a second time builds three new models: the
    layers of the second autoencoder own variables that no layer of the
    first one owns, so training the second changes neither a variable
    of the first nor what the first computes. *)
Theorem rebuilding_makes_new_layers s :
  exists e1 d1 a1 s1 e2 d2 a2 s2,
    build_models s = Ok ((e1, d1, a1), s1) /\
    build_models s1 = Ok ((e2, d2, a2), s2) /\
    summary e2 = summary e1 /\ summary d2 = summary d1 /\
    next_uid s2 = next_uid s + 30 /\ vars s2 = vars s /\
    (forall u, In u (model_weights a1) -> ~ In u (model_weights a2)) /\
    (forall grad cm xs ys st,
       cm_model cm = a2 ->
       let st' := snd (train_on_batch grad cm xs ys st) in
       (forall u, In u (model_weights a1) -> vars st' u = vars st u) /\
       (forall x, eval_model (vars st') a1 x = eval_model (vars st) a1 x)).
Proof.
  destruct s as [u W0 it m v].
  eexists _, _, _, _, _, _, _, _. split; [run_cells|]. split; [run_cells|].
  split; [reflexivity|]. split; [reflexivity|].
  split; [cbn [next_uid]; lia|]. split; [reflexivity|].
  assert (Hd : forall a b : nat, a < u + 15 -> u + 15 <= b -> a <> b) by lia.
  split.
  { intros a H1 H2. cbn in H1, H2. lia. }
  intros grad cm xs ys st Hcm st'.
  assert (Hv : forall a, a < u + 15 -> vars st' a = vars st a).
  { intros a Ha. subst st'. cbn [train_on_batch snd adam_update vars].
    rewrite bool_decide_eq_false_2; [reflexivity|].
    rewrite Hcm, list_elem_of_In. intros H2. cbn in H2. lia. }
  split.
  - intros a H1. apply Hv. cbn in H1. lia.
  - intros x. apply (proj1 (proj2 eval_reads_model_weights)).
    intros a H1. apply Hv. cbn in H1. lia.
Qed.

End ModelEdges.

(** ** The statements on small inputs *)

Lemma demo_pair_in_unit :
  Forall (fun v => F64.in_unit v = true)
         (repeat 1%float 784 ++ repeat 0.5%float 784).
Proof.
  apply Forall_app. split; apply List.Forall_forall; intros v Hv;
    apply repeat_spec in Hv; subst v; reflexivity.
Qed.

Lemma demo_decoded_unit : Forall unit_interval (K.tdata demo_decoded).
Proof.
  apply List.Forall_forall. intros v Hv. apply repeat_spec in Hv. subst v.
  unfold unit_interval. lra.
Qed.

Lemma show_noisy_pixels_witness :
  exists img pixels s',
    cell_show_noisy (fun _ => "000"%byte) demo_pair_noisy demo_labels
                    (demo_viewer 1)
    = Ok ((img, Np.U8 ["008"%byte]), s') /\
    holds (numpy s') img (Np.U8 pixels) /\ length pixels = 784.
Proof.
  destruct (show_noisy_pixels (fun _ => "000"%byte) (demo_viewer 1)
              demo_pair_noisy demo_labels 2
              (repeat 1%float 784 ++ repeat 0.5%float 784)
              ["003"%byte; "008"%byte]
              eq_refl eq_refl eq_refl demo_pair_in_unit eq_refl eq_refl eq_refl)
    as [_ H].
  destruct (H ltac:(cbv; lia))
    as (img & pixels & label & s' & E & Hl & _ & Hn & Hp & _).
  injection Hl as <-.
  exists img, pixels, s'. repeat split; assumption.
Defined.

Lemma show_decoded_pair_witness :
  (exists a b s',
     cell_show_decoded (fun _ => "000"%byte) (fun _ => "000"%byte)
                       demo_pair_noisy demo_decoded (demo_viewer 4)
     = Ok ((a, b), s') /\
     Np.shape a = [28; 28] /\ Np.shape b = [28; 28]) /\
  cell_show_decoded (fun _ => "000"%byte) (fun _ => "000"%byte)
                    demo_pair_noisy demo_decoded (demo_viewer 5)
  = Raise IndexError.
Proof.
  split.
  - destruct (show_decoded_pair (fun _ => "000"%byte) (fun _ => "000"%byte)
                (demo_viewer 4) demo_pair_noisy demo_decoded 2
                (repeat 1%float 784 ++ repeat 0.5%float 784)
                eq_refl eq_refl eq_refl demo_pair_in_unit eq_refl eq_refl
                demo_decoded_unit)
      as [_ H].
    destruct (H ltac:(cbv; lia)) as (a & b & pa & pb & s' & E & Sa & Sb & _).
    exists a, b, s'. repeat split; assumption.
  - apply (show_decoded_pair (fun _ => "000"%byte) (fun _ => "000"%byte)
             (demo_viewer 5) demo_pair_noisy demo_decoded 2
             (repeat 1%float 784 ++ repeat 0.5%float 784)
             eq_refl eq_refl eq_refl demo_pair_in_unit eq_refl eq_refl
             demo_decoded_unit).
    reflexivity.
Defined.

Lemma architecture_any_size_witness :
  exists encoder decoder autoencoder s',
    build_models_with 30 5 8 fresh_keras
    = Ok ((encoder, decoder, autoencoder), s') /\
    K.model_input_shape autoencoder = [30; 30; 1] /\
    K.model_output_shape autoencoder = [32; 32; 1].
Proof.
  destruct (architecture_any_size 30 5 8 fresh_keras
              ltac:(lia) ltac:(lia) ltac:(lia))
    as (e & d & a & s' & Hb & Hi & _ & Ho & _).
  exists e, d, a, s'. repeat split; assumption.
Defined.



Lemma prepare_again_scales_again_witness :
  exists a b s1 a' b' s2,
    cell_prepare {| Np.base := 0; Np.shape := [2; 28; 28] |}
                 {| Np.base := 1; Np.shape := [1; 28; 28] |} demo_bytes_state
    = Ok ((a, b), s1) /\
    cell_prepare a b s1 = Ok ((a', b'), s2) /\
    Np.shape a' = [2; 28; 28; 1].
Proof.
  destruct (prepare_again_scales_again demo_bytes_state
              {| Np.base := 0; Np.shape := [2; 28; 28] |}
              {| Np.base := 1; Np.shape := [1; 28; 28] |}
              (repeat "255"%byte 784 ++ repeat "007"%byte 784)
              (repeat "128"%byte 784) 2 1 eq_refl eq_refl eq_refl eq_refl)
    as (a & b & s1 & a' & b' & s2 & E1 & E2 & Sa & _).
  exists a, b, s1, a', b', s2. repeat split; assumption.
Defined.

Lemma noise_draws_fresh_samples_witness :
  exists a b s1 a' b' s2,
    cell_noise {| Np.base := 0; Np.shape := [2; 2] |}
               {| Np.base := 1; Np.shape := [2] |} demo_floats_state
    = Ok ((a, b), s1) /\
    cell_noise {| Np.base := 0; Np.shape := [2; 2] |}
               {| Np.base := 1; Np.shape := [2] |} s1
    = Ok ((a', b'), s2) /\
    Np.gauss s2 0 = demo_gauss 12 /\ Np.base a' <> Np.base a.
Proof.
  destruct (noise_draws_fresh_samples demo_floats_state
              {| Np.base := 0; Np.shape := [2; 2] |}
              {| Np.base := 1; Np.shape := [2] |}
              [0; 0.25; 1; 0.5]%float [1; 0]%float eq_refl eq_refl)
    as (a & b & s1 & a' & b' & s2 & E1 & _ & E2 & G & _ & _ & _ & _ & N & _).
  exists a, b, s1, a', b', s2. repeat split; try assumption.
  apply (G 0).
Defined.

Lemma notebook_runs_witness :
  exists x_decoded ss',
    notebook (fun _ W => W) (fun _ n => seq 0 n) (fun _ g => g)
             {| Np.base := 0; Np.shape := [2; 28; 28] |}
             {| Np.base := 1; Np.shape := [1; 28; 28] |} demo_bytes_session
    = Ok (K.Single x_decoded, ss') /\
    K.tshape x_decoded = [1; 28; 28; 1].
Proof.
  destruct (notebook_runs (fun _ W => W) (fun _ n => seq 0 n) (fun _ g => g)
              demo_bytes_session
              {| Np.base := 0; Np.shape := [2; 28; 28] |}
              {| Np.base := 1; Np.shape := [1; 28; 28] |}
              (repeat "255"%byte 784 ++ repeat "007"%byte 784)
              (repeat "128"%byte 784) 2 1
              (Nat.lt_0_succ 1) (Nat.lt_0_succ 0)
              eq_refl eq_refl eq_refl eq_refl)
    as (y & ss' & E & Hs & _).
  exists y, ss'. split; assumption.
Defined.

(** ** The losses that [fit] reports *)

Section LossFacts.
Import K.
Local Open Scope R_scope.

Lemma to_R_unit v : F64.in_unit v = true -> unit_interval (F64.to_R v).
Proof.
  intros Hv. apply in_unit_repr in Hv. unfold F64.to_R, unit_interval.
  destruct (Prim2SF v) as [s|s| |s m e]; try contradiction; try lra.
  destruct Hv as (-> & He & Hm). cbn [cond_Zopp].
  replace e with (- Z.of_nat (Z.to_nat (- e)))%Z by lia.
  rewrite powerRZ_neg', <- pow_powerRZ.
  replace (- e)%Z with (Z.of_nat (Z.to_nat (- e))) in Hm by lia.
  apply IZR_le in Hm. rewrite <- pow_IZR in Hm.
  set (k := Z.to_nat (- e)) in *.
  assert (Hk : 0 < 2 ^ k) by (apply pow_lt; lra).
  assert (H0 : 0 < IZR (Zpos m)) by (apply IZR_lt; lia).
  split.
  - apply Rmult_le_pos; [lra|]. left. apply Rinv_0_lt_compat, Hk.
  - apply (Rmult_le_reg_r (2 ^ k)); [exact Hk|].
    rewrite Rmult_assoc, Rinv_l by lra. lra.
Qed.

Lemma sum_unit l :
  Forall unit_interval l -> 0 <= fold_right Rplus 0 l <= INR (length l).
Proof.
  induction 1 as [|x l [H0 H1] _ IH]; cbn [fold_right length].
  - cbn. lra.
  - rewrite S_INR. lra.
Qed.

Lemma rmean_unit l : Forall unit_interval l -> unit_interval (rmean l).
Proof.
  intros H. apply sum_unit in H. unfold rmean, unit_interval, Rdiv.
  destruct l as [|x l].
  - cbn. lra.
  - assert (Hn : 0 < INR (length (x :: l))) by (apply lt_0_INR; cbn; lia).
    split.
    + apply Rmult_le_pos; [lra|]. left. apply Rinv_0_lt_compat, Hn.
    + apply (Rmult_le_reg_r (INR (length (x :: l)))); [exact Hn|].
      rewrite Rmult_assoc, Rinv_l by lra. lra.
Qed.

Lemma weighted_sum_unit (l : list (R * nat)) :
  Forall (fun p => unit_interval (fst p)) l ->
  0 <= fold_right Rplus 0 (map (fun p => fst p * INR (snd p)) l)
    <= INR (fold_right Nat.add 0%nat (map snd l)).
Proof.
  induction 1 as [|[x n] l [H0 H1] _ IH]; cbn [fold_right map fst snd] in *.
  - cbn. lra.
  - rewrite plus_INR. pose proof (pos_INR n). nra.
Qed.

Lemma weighted_mean_unit (l : list (R * nat)) :
  Forall (fun p => unit_interval (fst p)) l -> unit_interval (weighted_mean l).
Proof.
  intros H. apply weighted_sum_unit in H.
  unfold weighted_mean, unit_interval, Rdiv.
  remember (fold_right Nat.add 0%nat (map snd l)) as t eqn:Et. clear Et.
  destruct t as [|t].
  - cbn [INR] in H. destruct H as [Ha Hb].
    apply Rle_antisym in Hb; [|exact Ha]. rewrite <- Hb, Rmult_0_l. lra.
  - assert (Hn : 0 < INR (S t)) by (apply lt_0_INR; lia).
    split.
    + apply Rmult_le_pos; [lra|]. left. apply Rinv_0_lt_compat, Hn.
    + apply (Rmult_le_reg_r (INR (S t))); [exact Hn|].
      rewrite Rmult_assoc, Rinv_l by lra. lra.
Qed.

Lemma Forall_zip_with_unit {A B} (P : A -> Prop) (Q : B -> Prop)
    (f : A -> B -> R) l1 l2 :
  (forall a b, P a -> Q b -> unit_interval (f a b)) ->
  Forall P l1 -> Forall Q l2 -> Forall unit_interval (zip_with f l1 l2).
Proof.
  intros Hf H1. revert l2. induction H1 as [|a l1 Ha _ IH]; intros l2 H2.
  - constructor.
  - destruct H2 as [|b l2 Hb H2]; cbn; constructor; auto.
Qed.

(** Between two images with values in [0,1] the mean squared error is
    in [0,1]. *)
Lemma mse_unit y p :
  Forall unit_interval (tdata y) -> Forall unit_interval (tdata p) ->
  unit_interval (sample_loss MeanSquaredError y p).
Proof.
  intros Hy Hp. cbn [sample_loss]. apply rmean_unit.
  apply (Forall_zip_with_unit unit_interval unit_interval); try assumption.
  intros a b [Ha0 Ha1] [Hb0 Hb1]. unfold unit_interval.
  pose proof (Rle_0_sqr (b - a)) as H0. unfold Rsqr in H0.
  pose proof (Rmult_le_pos (1 - (b - a)) (1 + (b - a))
                ltac:(lra) ltac:(lra)) as H1.
  lra.
Qed.

Lemma gather_unit xs ids : Forall unit_image xs -> Forall unit_image (gather xs ids).
Proof.
  intros H. unfold gather. apply Forall_map, Forall_forall. intros i _.
  destruct (nth_in_or_default i xs empty_tensor) as [Hin | ->].
  - rewrite List.Forall_forall in H. apply H, Hin.
  - constructor.
Qed.

Lemma samples_of_unit a data :
  Forall (fun v => F64.in_unit v = true) data ->
  Forall unit_image (samples_of a data).
Proof.
  intros H. unfold samples_of, unstack. cbn [tshape tdata].
  apply Forall_map, Forall_forall. intros i _. unfold unit_image. cbn [tdata].
  apply Forall_take, Forall_drop, Forall_map.
  eapply Forall_impl; [exact H|]. intros v Hv. apply to_R_unit, Hv.
Qed.

Section Loop.
Context {S : Type}.
Variable f val_f : list tensor -> list tensor -> S -> R * S.
Variable shuffle : nat -> nat -> list nat.

Lemma batch_loop_unit (g : list tensor -> list tensor -> S -> R * S)
    xs ys batches s :
  (forall ids s, unit_interval (fst (g (gather xs ids) (gather ys ids) s))) ->
  Forall (fun p => unit_interval (fst p)) (fst (batch_loop g xs ys batches s)).
Proof.
  intros Hg. revert s. induction batches as [|ids rest IH]; intros s.
  - constructor.
  - cbn [batch_loop]. pose proof (Hg ids s) as H1.
    destruct (g (gather xs ids) (gather ys ids) s) as [l s1].
    specialize (IH s1). destruct (batch_loop g xs ys rest s1) as [ls s2].
    cbn [fst] in *. constructor; assumption.
Qed.

Lemma fit_loop_unit x y vx vy bs epochs s :
  (0 < bs)%nat -> vx <> [] ->
  (forall ids s, unit_interval (fst (f (gather x ids) (gather y ids) s))) ->
  (forall ids s, unit_interval (fst (val_f (gather vx ids) (gather vy ids) s))) ->
  Forall unit_losses
         (fst (fit_loop f val_f shuffle x y (Some (vx, vy)) bs epochs s)).
Proof.
  intros Hbs Hvx Hf Hv. revert s. induction epochs as [|e rest IH]; intros s.
  - constructor.
  - cbn [fit_loop]. unfold fit_epoch.
    pose proof (batch_loop_unit f x y
                  (index_batches (shuffle e (length x)) bs) s Hf) as H1.
    destruct (batch_loop f x y _ s) as [ls s1].
    pose proof (batch_loop_unit val_f vx vy
                  (index_batches (seq 0 (length vx)) bs) s1 Hv) as H2.
    pose proof (batch_loop_length val_f vx vy
                  (index_batches (seq 0 (length vx)) bs) s1) as HL.
    destruct (batch_loop val_f vx vy _ s1) as [vs s2].
    specialize (IH s2).
    destruct (fit_loop f val_f shuffle x y (Some (vx, vy)) bs rest s2)
      as [hs s3].
    cbn [fst] in *. constructor; [|exact IH].
    split; [apply weighted_mean_unit, H1|].
    destruct vs as [|v0 vs].
    + exfalso. symmetry in HL. apply length_zero_iff_nil in HL.
      apply (index_batches_nil _ _ Hbs) in HL.
      apply (f_equal (@length _)) in HL. rewrite length_seq in HL.
      destruct vx; [contradiction|discriminate].
    + eexists. split; [reflexivity|]. apply weighted_mean_unit, H2.
Qed.

End Loop.


Lemma objective_unit cm xs ys W :
  cm_loss cm = MeanSquaredError ->
  (forall W v, unit_image (eval_model W (cm_model cm) v)) ->
  Forall unit_image ys ->
  unit_interval (objective cm xs ys W).
Proof.
  intros Hl Hm Hy. unfold objective, batch_loss. rewrite Hl.
  apply rmean_unit.
  apply (Forall_zip_with_unit unit_image unit_image); try assumption.
  - intros y p. apply mse_unit.
  - apply Forall_map, Forall_forall. intros x _. apply Hm.
Qed.

(** X14: on n > 0 training and k > 0 test images the losses [fit]
    reports are numbers of [0,1]: the autoencoder ends in a sigmoid and
    the targets are the prepared images, so every squared error is at
    most 1, for every gradient, every shuffle and every state of the
    variables.  This holds for the training loss and for the validation
    loss of each of the two epochs. *)
Theorem reported_losses_in_unit_interval grad shuffle next s :
  exists encoder decoder autoencoder s',
    build_models s = Ok ((encoder, decoder, autoencoder), s') /\
    forall ss x_train_noisy x_train x_test_noisy x_test dxn dxc dvn dvc n k,
      (0 < n)%nat -> (0 < k)%nat ->
      holds (np ss) x_train_noisy (Np.F64 dxn) ->
      Np.shape x_train_noisy = n :: input_shape ->
      holds (np ss) x_train (Np.F64 dxc) ->
      Np.shape x_train = n :: input_shape ->
      holds (np ss) x_test_noisy (Np.F64 dvn) ->
      Np.shape x_test_noisy = k :: input_shape ->
      holds (np ss) x_test (Np.F64 dvc) ->
      Np.shape x_test = k :: input_shape ->
      Forall (fun v => F64.in_unit v = true) dxc ->
      Forall (fun v => F64.in_unit v = true) dvc ->
      exists cm history ss',
        cell_train grad shuffle next autoencoder
                   x_train_noisy x_train x_test_noisy x_test ss
        = Ok ((cm, history), ss') /\
        length history = 2%nat /\
        Forall unit_losses history /\
        (forall xs ys st,
           Forall unit_image ys ->
           unit_interval (fst (train_on_batch grad cm xs ys st)) /\
           unit_interval (fst (test_on_batch cm xs ys st))).
Proof.
  destruct s as [u W0 it m v].
  eexists _, _, _, _. split; [run_cells|].
  intros ss xn xc vn vc dxn dxc dvn dvc n k Hn Hk
         Hxn Sxn Hxc Sxc Hvn Svn Hvc Svc Uxc Uvc.
  match goal with
  | |- context [cell_train grad shuffle next ?a] => set (auto := a)
  end.
  destruct (cell_train_run grad shuffle next auto xn xc vn vc dxn dxc dvn dvc
              n k ss Hn eq_refl Hxn Sxn Hxc Sxc Hvn Svn Hvc Svc)
    as (cm & h & k0 & n1 & E & Hcm & _ & _ & _ & _ & _ & HL & _ & Hh).
  assert (Hobj : forall xs ys W,
            Forall unit_image ys -> unit_interval (objective cm xs ys W)).
  { intros xs ys W Hy. apply objective_unit; [subst cm; reflexivity| |exact Hy].
    intros W' x. subst cm. cbn [cm_model]. unfold unit_image.
    cbn [eval_model eval_tensor eval_layer]. apply activate_unit_interval. }
  eexists cm, h, _. split; [exact E|].
  split; [exact HL|].
  split.
  - rewrite Hh. apply fit_loop_unit.
    + unfold batch_size. lia.
    + intros H0. apply (f_equal (@length _)) in H0.
      rewrite (samples_of_length _ _ k _ Svn) in H0. cbn [length] in H0. lia.
    + intros ids st. apply Hobj, gather_unit, samples_of_unit, Uxc.
    + intros ids st. apply Hobj, gather_unit, samples_of_unit, Uvc.
  - intros xs ys st Hy. split; apply Hobj, Hy.
Qed.

End LossFacts.

Lemma reported_losses_in_unit_interval_witness :
  exists encoder decoder autoencoder s',
    build_models fresh_keras = Ok ((encoder, decoder, autoencoder), s') /\
    exists cm history ss',
      cell_train (fun _ W => W) (fun _ n => seq 0 n) (fun _ g => g) autoencoder
                 demo_noisy demo_clean demo_noisy demo_clean demo_images_session
      = Ok ((cm, history), ss') /\
      Forall unit_losses history.
Proof.
  destruct (reported_losses_in_unit_interval (fun _ W => W)
              (fun _ n => seq 0 n) (fun _ g => g) fresh_keras)
    as (e & d & a & s' & Hb & H).
  exists e, d, a, s'. split; [exact Hb|].
  assert (U : forall x n, F64.in_unit x = true ->
            Forall (fun v => F64.in_unit v = true) (repeat x n)).
  { intros x n Hx. apply List.Forall_forall. intros v Hv.
    apply repeat_spec in Hv. subst v. exact Hx. }
  destruct (H demo_images_session demo_noisy demo_clean demo_noisy demo_clean
              (repeat 1%float 784) (repeat 0.5%float 784)
              (repeat 1%float 784) (repeat 0.5%float 784) 1%nat 1%nat
              (Nat.lt_0_succ 0) (Nat.lt_0_succ 0)
              eq_refl eq_refl eq_refl eq_refl eq_refl eq_refl eq_refl eq_refl
              (U 0.5%float 784%nat eq_refl) (U 0.5%float 784%nat eq_refl))
    as (cm & h & ss' & E & _ & Hu & _).
  exists cm, h, ss'. split; assumption.
Defined.
